(** * Driver server actions (src/app/driver/actions.tsx)

    A shallow embedding of the four exported server actions
    [updateStopStatus], [savePOD], [uploadToBlob] and [updateDriverPosition].

    The actions talk to collaborators: the Supabase client, the blob store,
    [fetch], [revalidatePath], the clock, the timer and the console.  Every
    call to a collaborator is recorded as an [Event] in a trace, and the
    answer of the collaborator is read from a [World]: for a collaborator
    that is called more than once the answer to its k-th call is the value of
    the oracle at k.  The client, the identity lookup, the store calls, the
    blob put and [fetch] either return or raise; [revalidatePath], the clock,
    the timer and the console return.

    The actions run in a state-and-exception monad.  The local variables that
    the retry loops assign ([retryCount], [lastError]) live in the state, so
    that an assignment made before an exception is still visible in the
    handler, as in JavaScript.  Loops take fuel; running out of it is a
    result of its own, which no [catch] handles, and the properties below
    show that [maxRetries] units are always enough. *)

From Stdlib Require Import String Ascii List Arith Bool Lia NArith ZArith.
From Stdlib Require Import Floats.SpecFloat.
Import ListNotations.
Open Scope string_scope.

(** ** JavaScript values *)

(** A JavaScript number is an IEEE-754 double; the actions only pass numbers
    on and test them for truthiness. *)
Definition JsNumber : Type := spec_float.

#[warnings="-register-all"]
Inductive JsVal : Type :=
| JUndefined
| JNull
| JBool (b : bool)
| JNum (x : JsNumber)
| JStr (s : string)
| JObj (fields : list (string * JsVal)).

(** ToBoolean on numbers: +0, -0 and NaN are falsy. *)
Definition truthy_num (x : JsNumber) : bool :=
  match x with
  | S754_zero _ => false
  | S754_nan => false
  | _ => true
  end.

(** ToBoolean on strings: only the empty string is falsy. *)
Definition truthy_str (s : string) : bool :=
  match s with
  | EmptyString => false
  | String _ _ => true
  end.

Definition truthy (v : JsVal) : bool :=
  match v with
  | JUndefined => false
  | JNull => false
  | JBool b => b
  | JNum x => truthy_num x
  | JStr s => truthy_str s
  | JObj _ => true
  end.

(** ToBoolean on an optional string parameter ([undefined] when absent). *)
Definition truthy_opt_str (o : option string) : bool :=
  match o with
  | None => false
  | Some s => truthy_str s
  end.

Fixpoint lookup_field (k : string) (fields : list (string * JsVal)) : option JsVal :=
  match fields with
  | [] => None
  | (k', v) :: rest => if String.eqb k k' then Some v else lookup_field k rest
  end.

(** Error values: what a collaborator hands back in an [error] field or
    raises.  An error object carries an optional [message] string. *)
Inductive ErrVal : Type :=
| EUndefined
| ENull
| EObj (message : option string).

Definition truthy_err (e : ErrVal) : bool :=
  match e with
  | EObj _ => true
  | _ => false
  end.

(** [e?.message || dflt] *)
Definition message_or (e : ErrVal) (dflt : string) : string :=
  match e with
  | EObj (Some m) => if truthy_str m then m else dflt
  | _ => dflt
  end.

(** A call either returns a value or raises. *)
Inductive Outcome (A : Type) : Type :=
| Returns (a : A)
| Raises (e : ErrVal).
Arguments Returns {A} a.
Arguments Raises {A} e.

(** A promise that is not awaited settles later, one way or the other. *)
Inductive Settled (A : Type) : Type :=
| Fulfilled (a : A)
| Rejected (e : ErrVal).
Arguments Fulfilled {A} a.
Arguments Rejected {A} e.

(** ** String built-ins used by the actions *)

(** [s.startsWith(p)] *)
Definition startsWith (s p : string) : bool := String.prefix p s.

(** [s.includes(p)] *)
Fixpoint includes (s p : string) : bool :=
  String.prefix p s ||
  match s with
  | EmptyString => false
  | String _ s' => includes s' p
  end.

(** [s.split(',')]: the pieces between commas; [cur] is the piece being
    read, in reverse. *)
Fixpoint split_comma_aux (cur : list ascii) (s : string) : list string :=
  match s with
  | EmptyString => [string_of_list_ascii (rev cur)]
  | String c s' =>
      if Ascii.eqb c ","%char
      then string_of_list_ascii (rev cur) :: split_comma_aux [] s'
      else split_comma_aux (c :: cur) s'
  end.

Definition split_comma (s : string) : list string := split_comma_aux [] s.

(** [s.charCodeAt(i)] for an index inside the string. *)
Definition charCodeAt (s : string) (i : nat) : N :=
  match String.get i s with
  | Some c => N_of_ascii c
  | None => 0%N
  end.

(** *** [atob]: forgiving-base64 decode (WHATWG Infra) *)

Definition is_ascii_whitespace (c : ascii) : bool :=
  let n := N_of_ascii c in
  (N.eqb n 9 || N.eqb n 10 || N.eqb n 12 || N.eqb n 13 || N.eqb n 32)%N.

(** The value of a character in the base64 alphabet of RFC 4648, Table 1. *)
Definition sextet (c : ascii) : option N :=
  let n := N_of_ascii c in
  if (N.leb 65 n && N.leb n 90)%N then Some (n - 65)%N
  else if (N.leb 97 n && N.leb n 122)%N then Some (n - 71)%N
  else if (N.leb 48 n && N.leb n 57)%N then Some (n + 4)%N
  else if N.eqb n 43 then Some 62%N
  else if N.eqb n 47 then Some 63%N
  else None.

Fixpoint sextets (l : list ascii) : option (list N) :=
  match l with
  | [] => Some []
  | c :: rest =>
      match sextet c, sextets rest with
      | Some v, Some vs => Some (v :: vs)
      | _, _ => None
      end
  end.

Definition byte_of (n : N) : N := N.land n 255.

Fixpoint decode_sextets (l : list N) : list N :=
  match l with
  | a :: b :: c :: d :: rest =>
      let n := N.lor (N.lor (N.shiftl a 18) (N.shiftl b 12)) (N.lor (N.shiftl c 6) d) in
      byte_of (N.shiftr n 16) :: byte_of (N.shiftr n 8) :: byte_of n :: decode_sextets rest
  | [a; b; c] =>
      let n := N.shiftr (N.lor (N.lor (N.shiftl a 12) (N.shiftl b 6)) c) 2 in
      [byte_of (N.shiftr n 8); byte_of n]
  | [a; b] =>
      [byte_of (N.shiftr (N.lor (N.shiftl a 6) b) 4)]
  | _ => []
  end.

(** Remove one or two trailing [=] (the list is given reversed). *)
Definition strip_padding_rev (r : list ascii) : list ascii :=
  match r with
  | "="%char :: "="%char :: r' => r'
  | "="%char :: r' => r'
  | _ => r
  end.

Definition InvalidCharacterError : ErrVal :=
  EObj (Some "The string to be decoded is not correctly encoded.").

(** [atob(data)]: a binary string (one character per byte), or an
    InvalidCharacterError. *)
Definition atob (data : string) : Outcome string :=
  let d := filter (fun c => negb (is_ascii_whitespace c)) (list_ascii_of_string data) in
  let d := if Nat.eqb (Nat.modulo (length d) 4) 0 then rev (strip_padding_rev (rev d)) else d in
  if Nat.eqb (Nat.modulo (length d) 4) 1 then Raises InvalidCharacterError
  else match sextets d with
       | None => Raises InvalidCharacterError
       | Some vs => Returns (string_of_list_ascii (map ascii_of_N (decode_sextets vs)))
       end.

(** The binary payload handed to the blob store. *)
Record Blob : Type := mkBlob { blob_bytes : list N; blob_type : string }.

(** The characters a blob type may hold: U+0020 to U+007E. *)
Definition is_type_char (c : ascii) : bool :=
  (N.leb 32 (N_of_ascii c) && N.leb (N_of_ascii c) 126)%bool.

Definition ascii_lowercase (c : ascii) : ascii :=
  if (N.leb 65 (N_of_ascii c) && N.leb (N_of_ascii c) 90)%bool
  then ascii_of_N (N_of_ascii c + 32)
  else c.

(** The [type] of [new Blob(parts, { type })]: the given one in ASCII lower
    case, or the empty string when it holds a character outside
    U+0020..U+007E. *)
Definition blob_type_of (type : string) : string :=
  if forallb is_type_char (list_ascii_of_string type)
  then string_of_list_ascii (map ascii_lowercase (list_ascii_of_string type))
  else "".

(** [new Blob([byteArray], { type })] *)
Definition new_Blob (bytes : list N) (type : string) : Blob :=
  mkBlob bytes (blob_type_of type).

(** [new Uint8Array(byteNumbers)] keeps each number modulo 256. *)
Definition uint8 (n : N) : N := N.modulo n 256.

(** Lines 235-241: the byte array of a binary string, filled index by index. *)
Definition bytes_of_binary_string (byteCharacters : string) : list N :=
  map (fun i => uint8 (charCodeAt byteCharacters i)) (seq 0 (String.length byteCharacters)).

(** ** Collaborators *)

Record User : Type := mkUser { user_id : string }.

(** [{ data: { user }, error }] of [supabase.auth.getUser()]. *)
Record AuthResponse : Type := mkAuth { auth_user : option User; auth_error : ErrVal }.

Record PodRow : Type := mkPodRow { pod_id : JsVal }.

(** [{ data, error }] of the [pods] insert with [.select("id").single()]. *)
Record PodsResponse : Type := mkPods { pods_data : option PodRow; pods_error : ErrVal }.

Record PutBlobResult : Type := mkPut { put_url : string }.

(** The response of the [/api/pod-email] route, as far as the action reads it. *)
Record Response : Type := mkResponse {
  resp_content_type : option string;   (* r.headers.get("content-type") *)
  resp_status : JsNumber;              (* r.status *)
  resp_json : Settled JsVal;           (* r.json() *)
  resp_text : Settled string           (* r.text() *)
}.

Record World : Type := mkWorld {
  w_createServerClient : Outcome unit;
  w_getUser : Outcome AuthResponse;
  w_now : nat -> string;                              (* new Date().toISOString() *)
  w_orders_update : nat -> Outcome ErrVal;            (* { error } *)
  w_stop_events_insert : nat -> Outcome ErrVal;       (* { error } *)
  w_pods_insert : nat -> Outcome PodsResponse;
  w_upsert_driver_position : nat -> Outcome ErrVal;   (* { error } *)
  w_put : nat -> Outcome PutBlobResult;
  w_fetch_pod_email : nat -> Outcome (Settled Response);
  w_fetch_data_url : string -> Outcome (Outcome Blob); (* fetch(url), then .blob() *)
  w_ENABLE_POD_EMAIL : option string                  (* process.env.NEXT_PUBLIC_ENABLE_POD_EMAIL *)
}.

Inductive LogLevel : Type := LLog | LWarn | LError.

Inductive Event : Type :=
| EvCreateServerClient                                   (* createServerClient() *)
| EvGetUser                                              (* supabase.auth.getUser() *)
| EvDateNow                                              (* new Date().toISOString() *)
| EvOrdersUpdate (status updated_at id : string)
    (* from("orders").update({ status, updated_at }).eq("id", id) *)
| EvStopEventsInsert (order_id driver_id event_type : string) (notes : option string)
    (* from("stop_events").insert({ order_id, driver_id, event_type, notes }) *)
| EvPodsInsert (order_id driver_id : string) (photo_url signature_url notes : option string)
               (delivered_at : string)
    (* from("pods").insert({ ... }).select("id").single() *)
| EvUpsertDriverPosition (p_driver_id : string) (p_lat p_lng : JsNumber) (p_accuracy : JsVal)
    (* rpc("upsert_driver_position", { p_driver_id, p_lat, p_lng, p_accuracy }) *)
| EvBlobPut (filename : string) (body : Blob) (access contentType : string)
    (* put(filename, blob, { access, contentType }) *)
| EvSleep (ms : nat)                                     (* setTimeout(resolve, ms) *)
| EvRevalidatePath (path : string)                       (* revalidatePath(path) *)
| EvFetchPodEmail (orderId : string) (podId : JsVal)
    (* fetch("/api/pod-email", { method: "POST", body: JSON.stringify({ orderId, podId }) }) *)
| EvFetchDataUrl (url : string)                          (* fetch(url), url a data URL *)
| EvConsole (level : LogLevel) (msg : string).           (* console.log / warn / error *)

Definition is_getUser (e : Event) : bool :=
  match e with EvGetUser => true | _ => false end.
Definition is_date_now (e : Event) : bool :=
  match e with EvDateNow => true | _ => false end.
Definition is_orders_update (e : Event) : bool :=
  match e with EvOrdersUpdate _ _ _ => true | _ => false end.
Definition is_stop_events_insert (e : Event) : bool :=
  match e with EvStopEventsInsert _ _ _ _ => true | _ => false end.
Definition is_pods_insert (e : Event) : bool :=
  match e with EvPodsInsert _ _ _ _ _ _ => true | _ => false end.
Definition is_upsert_position (e : Event) : bool :=
  match e with EvUpsertDriverPosition _ _ _ _ => true | _ => false end.
Definition is_blob_put (e : Event) : bool :=
  match e with EvBlobPut _ _ _ _ => true | _ => false end.
Definition is_sleep (e : Event) : bool :=
  match e with EvSleep _ => true | _ => false end.
Definition is_fetch_pod_email (e : Event) : bool :=
  match e with EvFetchPodEmail _ _ => true | _ => false end.

(** A write: a store call or a blob put. *)
Definition is_write (e : Event) : bool :=
  is_orders_update e || is_stop_events_insert e || is_pods_insert e
  || is_upsert_position e || is_blob_put e.

(** How many events of a kind a trace holds. *)
Definition count (p : Event -> bool) (tr : list Event) : nat := length (filter p tr).

(** The durations of the sleeps of a trace, in order. *)
Fixpoint sleeps (tr : list Event) : list nat :=
  match tr with
  | [] => []
  | EvSleep ms :: rest => ms :: sleeps rest
  | _ :: rest => sleeps rest
  end.

(** ** The monad *)

Record St : Type := mkSt {
  trace : list Event;
  retryCount : nat;
  lastError : ErrVal;
  detached : list (Settled Response)   (* promises nobody awaits *)
}.

Definition st0 : St := mkSt [] 0 EUndefined [].

Inductive Res (A : Type) : Type :=
| Val (a : A)
| Exn (e : ErrVal)
| OutOfFuel.
Arguments Val {A} a.
Arguments Exn {A} e.
Arguments OutOfFuel {A}.

Definition M (A : Type) : Type := St -> Res A * St.

Definition ret {A} (a : A) : M A := fun st => (Val a, st).

Definition bind {A B} (m : M A) (k : A -> M B) : M B :=
  fun st =>
    match m st with
    | (Val a, st') => k a st'
    | (Exn e, st') => (Exn e, st')
    | (OutOfFuel, st') => (OutOfFuel, st')
    end.

Definition throw {A} (e : ErrVal) : M A := fun st => (Exn e, st).

(** [try { m } catch (e) { h e }] *)
Definition try_catch {A} (m : M A) (h : ErrVal -> M A) : M A :=
  fun st =>
    match m st with
    | (Exn e, st') => h e st'
    | r => r
    end.

Declare Scope action_scope.
Delimit Scope action_scope with action.
Notation "x <- m ;; k" := (bind m (fun x => k))
  (at level 100, m at next level, right associativity) : action_scope.
Notation "m ;; k" := (bind m (fun _ => k))
  (at level 100, right associativity) : action_scope.
Open Scope action_scope.

Definition emit (e : Event) : M unit :=
  fun st => (Val tt, mkSt (trace st ++ [e]) (retryCount st) (lastError st) (detached st)).

Definition settle {A} (o : Outcome A) : M A :=
  match o with
  | Returns a => ret a
  | Raises e => throw e
  end.

(** A call to a collaborator: the event is recorded, then the call returns
    or raises. *)
Definition call {A} (e : Event) (o : Outcome A) : M A := emit e ;; settle o.

(** The same for a collaborator that is called repeatedly: the answer is the
    oracle's at the number of earlier calls of that kind. *)
Definition call_nth {A} (p : Event -> bool) (e : Event) (o : nat -> Outcome A) : M A :=
  fun st => call e (o (count p (trace st))) st.

Definition get_retryCount : M nat := fun st => (Val (retryCount st), st).
Definition get_lastError : M ErrVal := fun st => (Val (lastError st), st).
Definition set_retryCount (n : nat) : M unit :=
  fun st => (Val tt, mkSt (trace st) n (lastError st) (detached st)).
Definition set_lastError (e : ErrVal) : M unit :=
  fun st => (Val tt, mkSt (trace st) (retryCount st) e (detached st)).
Definition detach (p : Settled Response) : M unit :=
  fun st => (Val tt, mkSt (trace st) (retryCount st) (lastError st) (detached st ++ [p])).

(** [await p] *)
Definition await {A} (p : Settled A) : M A :=
  match p with
  | Fulfilled a => ret a
  | Rejected e => throw e
  end.

(** [while (cond) { body }], where the body either falls through ([None]) or
    returns from the enclosing function ([Some v]). *)
Fixpoint while {R} (fuel : nat) (cond : St -> bool) (body : M (option R)) : M (option R) :=
  fun st =>
    if cond st then
      match fuel with
      | O => (OutOfFuel, st)
      | S fuel' =>
          match body st with
          | (Val None, st') => while fuel' cond body st'
          | r => r
          end
      end
    else (Val None, st).

Definition console (level : LogLevel) (msg : string) : M unit := emit (EvConsole level msg).

(** [await new Promise(resolve => setTimeout(resolve, ms))] *)
Definition sleep (ms : nat) : M unit := emit (EvSleep ms).

Definition revalidatePath (path : string) : M unit := emit (EvRevalidatePath path).

(** ** The actions *)

Definition maxRetries : nat := 3.

Definition newline : string := String (ascii_of_nat 10) EmptyString.

Inductive StopStatus : Type := Delivered | Failed.

Definition status_string (s : StopStatus) : string :=
  match s with
  | Delivered => "delivered"
  | Failed => "failed"
  end.

(** The result objects the actions build. *)
Definition success_result : JsVal := JObj [("success", JBool true)].

Definition failure_result (error : string) : JsVal :=
  JObj [("success", JBool false); ("error", JStr error)].

Definition failure_result_code (error code : string) : JsVal :=
  JObj [("success", JBool false); ("error", JStr error); ("code", JStr code)].

Definition session_expired : JsVal :=
  failure_result_code "Your session has expired. Please log in again." "AUTH_EXPIRED".

(** [lastError = e; retryCount++; if (retryCount < maxRetries) await sleep(1000 * retryCount)]:
    the text of lines 64-70, repeated at 72-77, 193-199, 201-206 and 258-264. *)
Definition record_failure (e : ErrVal) : M unit :=
  set_lastError e ;;
  c <- get_retryCount ;;
  set_retryCount (c + 1) ;;
  c <- get_retryCount ;;
  if Nat.ltb c maxRetries then sleep (1000 * c) else ret tt.

(** [while (retryCount < maxRetries)] *)
Definition retry_cond (st : St) : bool := Nat.ltb (retryCount st) maxRetries.

(** Line 119: [recipientName ? `Recipient: ${recipientName}\n${notes || ""}` : notes] *)
Definition podNotes (recipientName notes : option string) : option string :=
  match recipientName with
  | Some r =>
      if truthy_str r
      then Some ("Recipient: " ++ r ++ newline ++
                 match notes with
                 | Some n => if truthy_str n then n else ""
                 | None => ""
                 end)
      else notes
  | None => notes
  end.

(** Line 235: [base64Data.split(',')[1] || base64Data] *)
Definition raw_base64 (base64Data : string) : string :=
  match nth_error (split_comma base64Data) 1 with
  | Some s => if truthy_str s then s else base64Data
  | None => base64Data
  end.

(** Line 297: [accuracy || null] *)
Definition accuracy_or_null (accuracy : option JsNumber) : JsVal :=
  match accuracy with
  | Some a => if truthy_num a then JNum a else JNull
  | None => JNull
  end.

(** [v.k] on a value: a TypeError on [null] and [undefined], [undefined] for
    a missing property. *)
Definition get_prop (v : JsVal) (k : string) : Outcome JsVal :=
  match v with
  | JUndefined | JNull => Raises (EObj (Some "Cannot read properties of null or undefined"))
  | JObj fields =>
      match lookup_field k fields with
      | Some x => Returns x
      | None => Returns JUndefined
      end
  | _ => Returns JUndefined
  end.

(** Lines 159-180: the [.then] callback of the email request. *)
Definition pod_email_then (r : Response) : M JsVal :=
  let ct := match resp_content_type r with
            | Some s => if truthy_str s then s else ""
            | None => ""
            end in
  result <- (if includes ct "application/json"
             then await (resp_json r)
             else body <- await (resp_text r) ;;
                  ret (JObj [("ok", JBool false); ("status", JNum (resp_status r));
                             ("body", JStr body)])) ;;
  console LLog "[v0] [POD] Email API response:" ;;
  ok <- settle (get_prop result "ok") ;;
  (if negb (truthy ok) then console LError "[v0] [POD] Email failed:" else ret tt) ;;
  ret result.

(** Lines 150-183: [fetch(...).then(...).catch(...)], run when the promise of
    [fetch] settles. *)
Definition pod_email_chain (p : Settled Response) : M JsVal :=
  try_catch
    (r <- await p ;; pod_email_then r)
    (fun e => console LWarn "[v0] [POD] Email API call failed (non-blocking):" ;;
              ret JUndefined).

Section Actions.

Variable w : World.

Definition createServerClient : M unit :=
  call EvCreateServerClient (w_createServerClient w).

Definition auth_getUser : M AuthResponse := call EvGetUser (w_getUser w).

(** [new Date().toISOString()] *)
Definition date_now : M string :=
  fun st => call EvDateNow (Returns (w_now w (count is_date_now (trace st)))) st.

Definition orders_update (status updated_at id : string) : M ErrVal :=
  call_nth is_orders_update (EvOrdersUpdate status updated_at id) (w_orders_update w).

Definition stop_events_insert (order_id driver_id event_type : string)
    (notes : option string) : M ErrVal :=
  call_nth is_stop_events_insert
    (EvStopEventsInsert order_id driver_id event_type notes) (w_stop_events_insert w).

Definition pods_insert (order_id driver_id : string)
    (photo_url signature_url notes : option string) (delivered_at : string)
    : M PodsResponse :=
  call_nth is_pods_insert
    (EvPodsInsert order_id driver_id photo_url signature_url notes delivered_at)
    (w_pods_insert w).

Definition upsert_driver_position (p_driver_id : string) (p_lat p_lng : JsNumber)
    (p_accuracy : JsVal) : M ErrVal :=
  call_nth is_upsert_position
    (EvUpsertDriverPosition p_driver_id p_lat p_lng p_accuracy)
    (w_upsert_driver_position w).

Definition put (filename : string) (body : Blob) (access contentType : string)
    : M PutBlobResult :=
  call_nth is_blob_put (EvBlobPut filename body access contentType) (w_put w).

Definition fetch_pod_email (orderId : string) (podId : JsVal) : M (Settled Response) :=
  call_nth is_fetch_pod_email (EvFetchPodEmail orderId podId) (w_fetch_pod_email w).

(** Lines 37-78: one turn of the retry loop of [updateStopStatus]. *)
Definition updateStopStatus_attempt (orderId : string) (status : StopStatus)
    (notes : option string) (user : User) : M (option JsVal) :=
  try_catch
    (updated_at <- date_now ;;
     error <- orders_update (status_string status) updated_at orderId ;;
     if negb (truthy_err error) then
       eventError <- stop_events_insert orderId (user_id user) (status_string status) notes ;;
       (if truthy_err eventError
        then console LError "[v0] Error creating stop event:"
        else ret tt) ;;
       revalidatePath "/driver" ;;
       ret (Some success_result)
     else
       record_failure error ;;
       ret None)
    (fun err => record_failure err ;; ret None).

(** Lines 9-93.  Line 22, [authError || !user], is the second branch of
    the [match]. *)
Definition updateStopStatus (fuel : nat) (orderId : string) (status : StopStatus)
    (notes : option string) : M JsVal :=
  try_catch
    (createServerClient ;;
     r <- auth_getUser ;;
     match truthy_err (auth_error r), auth_user r with
     | false, Some user =>
         set_retryCount 0 ;;
         set_lastError EUndefined ;;
         x <- while fuel retry_cond (updateStopStatus_attempt orderId status notes user) ;;
         match x with
         | Some v => ret v
         | None =>
             console LError "[v0] Database error in updateStopStatus after retries:" ;;
             lastError <- get_lastError ;;
             ret (failure_result ("Failed to update order status: "
                                  ++ message_or lastError "Network error"))
         end
     | _, _ =>
         console LError "[v0] Auth error in updateStopStatus:" ;;
         ret session_expired
     end)
    (fun error =>
       console LError "[v0] Unexpected error in updateStopStatus:" ;;
       ret (failure_result "An unexpected error occurred. Please try again.")).

(** [process.env.NEXT_PUBLIC_ENABLE_POD_EMAIL === "true"] *)
Definition pod_email_enabled : bool :=
  match w_ENABLE_POD_EMAIL w with
  | Some flag => String.eqb flag "true"
  | None => false
  end.

(** Lines 143-187: the email request, sent and not awaited. *)
Definition trigger_pod_email (orderId : string) (podData : PodRow) : M unit :=
  if truthy (pod_id podData) && pod_email_enabled then
    console LLog "[v0] [POD] Triggering email via API route" ;;
    console LLog "[v0] [POD] Order ID:" ;;
    console LLog "[v0] [POD] POD ID:" ;;
    try_catch
      (p <- fetch_pod_email orderId (pod_id podData) ;;
       detach p)
      (fun emailError => console LWarn "[v0] [POD] Email setup failed (non-blocking):")
  else ret tt.

(** Lines 127-207: one turn of the retry loop of [savePOD]. *)
Definition savePOD_attempt (orderId : string) (photoUrl signatureUrl : option string)
    (podNotes : option string) (user : User) : M (option JsVal) :=
  try_catch
    (delivered_at <- date_now ;;
     r <- pods_insert orderId (user_id user) photoUrl signatureUrl podNotes delivered_at ;;
     match truthy_err (pods_error r), pods_data r with
     | false, Some podData =>
         trigger_pod_email orderId podData ;;
         revalidatePath "/driver" ;;
         ret (Some success_result)
     | _, _ =>
         record_failure (pods_error r) ;;
         ret None
     end)
    (fun err => record_failure err ;; ret None).

(** Lines 95-222. *)
Definition savePOD (fuel : nat) (orderId : string) (photoUrl signatureUrl notes
    recipientName : option string) : M JsVal :=
  try_catch
    (createServerClient ;;
     r <- auth_getUser ;;
     match truthy_err (auth_error r), auth_user r with
     | false, Some user =>
         let podNotes := podNotes recipientName notes in
         set_retryCount 0 ;;
         set_lastError EUndefined ;;
         x <- while fuel retry_cond
                (savePOD_attempt orderId photoUrl signatureUrl podNotes user) ;;
         match x with
         | Some v => ret v
         | None =>
             console LError "[v0] Database error in savePOD after retries:" ;;
             lastError <- get_lastError ;;
             ret (failure_result ("Failed to save proof of delivery: "
                                  ++ message_or lastError "Network error"))
         end
     | _, _ =>
         console LError "[v0] Auth error in savePOD:" ;;
         ret session_expired
     end)
    (fun error =>
       console LError "[v0] Unexpected error in savePOD:" ;;
       ret (failure_result "An unexpected error occurred. Please try again.")).

(** Lines 229-242: the payload as a blob. *)
Definition decode_payload (base64Data contentType : string) : M Blob :=
  if startsWith base64Data "data:" then
    base64Response <- call (EvFetchDataUrl base64Data) (w_fetch_data_url w base64Data) ;;
    settle base64Response
  else
    byteCharacters <- settle (atob (raw_base64 base64Data)) ;;
    ret (new_Blob (bytes_of_binary_string byteCharacters) contentType).

Definition upload_result (url : string) : JsVal :=
  JObj [("url", JStr url); ("error", JNull)].

Definition upload_failure (error : string) : JsVal :=
  JObj [("url", JNull); ("error", JStr error)].

(** Lines 250-265: one turn of the retry loop of [uploadToBlob]. *)
Definition uploadToBlob_attempt (filename : string) (blob : Blob) (contentType : string)
    : M (option JsVal) :=
  try_catch
    (result <- put filename blob "public" contentType ;;
     ret (Some (upload_result (put_url result))))
    (fun error => record_failure error ;; ret None).

(** Lines 224-274. *)
Definition uploadToBlob (fuel : nat) (base64Data filename contentType : string) : M JsVal :=
  try_catch
    (blob <- decode_payload base64Data contentType ;;
     set_retryCount 0 ;;
     set_lastError EUndefined ;;
     x <- while fuel retry_cond (uploadToBlob_attempt filename blob contentType) ;;
     match x with
     | Some v => ret v
     | None =>
         console LError "[v0] Error uploading to blob after retries:" ;;
         ret (upload_failure "Failed to upload file after multiple attempts")
     end)
    (fun error =>
       console LError "[v0] Error uploading to blob:" ;;
       ret (upload_failure "Failed to upload file")).

(** Lines 276-316. *)
Definition updateDriverPosition (lat lng : JsNumber) (accuracy : option JsNumber) : M JsVal :=
  try_catch
    (createServerClient ;;
     r <- auth_getUser ;;
     match truthy_err (auth_error r), auth_user r with
     | false, Some user =>
         error <- upsert_driver_position (user_id user) lat lng (accuracy_or_null accuracy) ;;
         if truthy_err error then
           console LError "[v0] Error updating driver position:" ;;
           ret (failure_result "Failed to update position")
         else ret success_result
     | _, _ => ret (failure_result_code "Authentication required" "AUTH_EXPIRED")
     end)
    (fun error =>
       console LError "[v0] Unexpected error in updateDriverPosition:" ;;
       ret (failure_result "An unexpected error occurred")).

End Actions.

(** Running an action from the initial state. *)
Definition run {A} (m : M A) : Res A * St := m st0.
Definition result_of {A} (m : M A) : Res A := fst (run m).
Definition trace_of {A} (m : M A) : list Event := trace (snd (run m)).
Definition detached_of {A} (m : M A) : list (Settled Response) := detached (snd (run m)).

(** ** Observations on results and traces *)

(** Line 7: [{ success: true; data?: T } | { success: false; error: string; code?: string }],
    at [T = void]. *)
Definition is_ActionResponse (v : JsVal) : bool :=
  match v with
  | JObj fields =>
      match lookup_field "success" fields with
      | Some (JBool true) =>
          match lookup_field "data" fields with
          | None | Some JUndefined => true
          | _ => false
          end
      | Some (JBool false) =>
          match lookup_field "error" fields, lookup_field "code" fields with
          | Some (JStr _), (None | Some JUndefined | Some (JStr _)) => true
          | _, _ => false
          end
      | _ => false
      end
  | _ => false
  end.

(** The [code] of a failure object. *)
Definition code_of (v : JsVal) : option string :=
  match v with
  | JObj fields =>
      match lookup_field "success" fields, lookup_field "code" fields with
      | Some (JBool false), Some (JStr c) => Some c
      | _, _ => None
      end
  | _ => None
  end.

(** The retry loops seen as attempts of the wrapped call and pauses. *)
Inductive Beat : Type := Attempt | Pause (ms : nat).

Fixpoint skeleton (primary : Event -> bool) (tr : list Event) : list Beat :=
  match tr with
  | [] => []
  | e :: rest =>
      if primary e then Attempt :: skeleton primary rest
      else match e with
           | EvSleep ms => Pause ms :: skeleton primary rest
           | _ => skeleton primary rest
           end
  end.

(** [n] attempts with the pauses of the retry policy between them:
    attempt, 1000 ms, attempt, 2000 ms, attempt, ... *)
Definition beats (n : nat) : list Beat :=
  match n with
  | O => []
  | S m => Attempt :: flat_map (fun k => [Pause (1000 * k); Attempt]) (seq 1 m)
  end.

(** The first of the attempts [c], [c+1], ..., [c+n-1] that succeeds. *)
Fixpoint first_ok_from (ok : nat -> bool) (c n : nat) : option nat :=
  match n with
  | O => None
  | S n' => if ok c then Some c else first_ok_from ok (S c) n'
  end.

Definition first_ok (ok : nat -> bool) : option nat := first_ok_from ok 0 maxRetries.

(** How many attempts a retry loop makes: up to and including the first
    that succeeds, all of them when none does. *)
Definition attempts_made (ok : nat -> bool) : nat :=
  match first_ok ok with
  | Some j => S j
  | None => maxRetries
  end.

(** What the loop leaves in the trace for [n] failed attempts in a row, the
    first made with [retryCount = c]. *)
Fixpoint failed_beats (c n : nat) : list Beat :=
  match n with
  | O => []
  | S n' =>
      Attempt :: (if Nat.ltb (S c) maxRetries then [Pause (1000 * S c)] else [])
      ++ failed_beats (S c) n'
  end.

Definition returned {A} (o : Outcome A) : bool :=
  match o with
  | Returns _ => true
  | Raises _ => false
  end.

(** The identity check lets the action through. *)
Definition signed_in (w : World) : option User :=
  match w_createServerClient w, w_getUser w with
  | Returns _, Returns r => if truthy_err (auth_error r) then None else auth_user r
  | _, _ => None
  end.

(** The identity provider was asked and reported an error or no user. *)
Definition identity_check_fails (w : World) : bool :=
  match w_createServerClient w, w_getUser w with
  | Returns _, Returns r =>
      truthy_err (auth_error r) || match auth_user r with None => true | Some _ => false end
  | _, _ => false
  end.

(** The orders update reported no error. *)
Definition update_ok (o : Outcome ErrVal) : bool :=
  match o with
  | Returns e => negb (truthy_err e)
  | Raises _ => false
  end.

(** The audit insert of attempt [j] is the one after those of the earlier
    attempts whose update reported no error. *)
Fixpoint audit_index (w : World) (j : nat) : nat :=
  match j with
  | O => 0
  | S j' => audit_index w j' + (if update_ok (w_orders_update w j') then 1 else 0)
  end.

(** Attempt [j] of [updateStopStatus] reaches the [return] of line 61. *)
Definition status_attempt_ok (w : World) (j : nat) : bool :=
  update_ok (w_orders_update w j) && returned (w_stop_events_insert w (audit_index w j)).

(** Line 141: [!error && podData]. *)
Definition pod_insert_ok (o : Outcome PodsResponse) : bool :=
  match o with
  | Returns r =>
      negb (truthy_err (pods_error r))
      && match pods_data r with Some _ => true | None => false end
  | Raises _ => false
  end.

Definition pod_attempt_ok (w : World) (j : nat) : bool := pod_insert_ok (w_pods_insert w j).

Definition put_attempt_ok (w : World) (j : nat) : bool := returned (w_put w j).

(** The [notes] of the rows a trace inserts into [pods]. *)
Fixpoint persisted_notes (tr : list Event) : list (option string) :=
  match tr with
  | [] => []
  | EvPodsInsert _ _ _ _ notes _ :: rest => notes :: persisted_notes rest
  | _ :: rest => persisted_notes rest
  end.

(** The accuracies a trace hands to [upsert_driver_position]. *)
Fixpoint upserted_accuracies (tr : list Event) : list JsVal :=
  match tr with
  | [] => []
  | EvUpsertDriverPosition _ _ _ acc :: rest => acc :: upserted_accuracies rest
  | _ :: rest => upserted_accuracies rest
  end.

(** The payload cannot be decoded: [fetch] or [.blob()] raises on a data
    URL, [atob] raises on raw base64. *)
Definition decode_fails (w : World) (base64Data : string) : bool :=
  if startsWith base64Data "data:" then
    match w_fetch_data_url w base64Data with
    | Returns (Returns _) => false
    | _ => true
    end
  else negb (returned (atob (raw_base64 base64Data))).

(** What [record_failure] adds to the trace when it brings [retryCount] to [c]. *)
Definition backoff (c : nat) : list Event :=
  if Nat.ltb c maxRetries then [EvSleep (1000 * c)] else [].

(** The events of one attempt: the wrapped call once, no sleep, and only
    events that satisfy [P]. *)
Definition attempt_shape (primary : Event -> bool) (P : Event -> Prop) (a : list Event)
    : Prop :=
  skeleton primary a = [Attempt] /\ Forall P a.

(** The events the retry loop of [updateStopStatus] may leave in the trace. *)
Definition status_loop_event (orderId : string) (status : StopStatus) (notes : option string)
    (user : User) (e : Event) : Prop :=
  match e with
  | EvDateNow | EvSleep _ | EvConsole _ _ => True
  | EvOrdersUpdate s _ id => s = status_string status /\ id = orderId
  | EvStopEventsInsert o d t n =>
      o = orderId /\ d = user_id user /\ t = status_string status /\ n = notes
  | EvRevalidatePath p => p = "/driver"
  | _ => False
  end.

(** The error a failed attempt [j] of [updateStopStatus] leaves in
    [lastError]. *)
Definition status_error (w : World) (j : nat) : ErrVal :=
  match w_orders_update w j with
  | Raises e => e
  | Returns e =>
      if truthy_err e then e
      else match w_stop_events_insert w (audit_index w j) with
           | Raises e' => e'
           | Returns _ => EUndefined
           end
  end.

(** The console lines of the callbacks of the email request. *)
Definition is_email_callback_event (e : Event) : bool :=
  match e with
  | EvConsole LLog msg => String.eqb msg "[v0] [POD] Email API response:"
  | EvConsole LError msg => String.eqb msg "[v0] [POD] Email failed:"
  | EvConsole LWarn msg => String.eqb msg "[v0] [POD] Email API call failed (non-blocking):"
  | _ => false
  end.

(** The events the retry loop of [savePOD] may leave in the trace. *)
Definition pod_loop_event (w : World) (orderId : string) (photoUrl signatureUrl
    podNotes : option string) (user : User) (e : Event) : Prop :=
  match e with
  | EvDateNow | EvSleep _ => True
  | EvConsole _ _ => is_email_callback_event e = false
  | EvPodsInsert o d p s n _ =>
      o = orderId /\ d = user_id user /\ p = photoUrl /\ s = signatureUrl /\ n = podNotes
  | EvFetchPodEmail o id =>
      o = orderId /\ pod_email_enabled w = true /\ truthy id = true
      /\ exists j r row,
           w_pods_insert w j = Returns r /\ pod_insert_ok (Returns r) = true
           /\ pods_data r = Some row /\ pod_id row = id
  | EvRevalidatePath p => p = "/driver"
  | _ => False
  end.

(** Attempt [j] of [savePOD] sends the email request: the insert gave a row
    with a truthy id and the flag is on. *)
Definition dispatches (w : World) (j : nat) : bool :=
  match w_pods_insert w j with
  | Returns r =>
      match pods_data r with
      | Some row => truthy (pod_id row) && pod_email_enabled w
      | None => false
      end
  | Raises _ => false
  end.

(** The promises left unawaited by an attempt that sends the request. *)
Definition dispatched (w : World) (j : nat) : list (Settled Response) :=
  if dispatches w j
  then match w_fetch_pod_email w 0 with
       | Returns p => [p]
       | Raises _ => []
       end
  else [].

(** The error a failed attempt [j] of [savePOD] leaves in [lastError]. *)
Definition pod_error (w : World) (j : nat) : ErrVal :=
  match w_pods_insert w j with
  | Raises e => e
  | Returns r => pods_error r
  end.

(** The events the retry loop of [uploadToBlob] may leave in the trace. *)
Definition blob_loop_event (filename : string) (blob : Blob) (contentType : string)
    (e : Event) : Prop :=
  match e with
  | EvSleep _ | EvConsole _ _ => True
  | EvBlobPut f b a ct => f = filename /\ b = blob /\ a = "public" /\ ct = contentType
  | _ => False
  end.

(** The error a failed attempt [j] of [uploadToBlob] leaves in [lastError]. *)
Definition put_error (w : World) (j : nat) : ErrVal :=
  match w_put w j with
  | Raises e => e
  | Returns _ => EUndefined
  end.

(** The blob lines 229-242 build, when they do not raise. *)
Definition decoded_blob (w : World) (base64Data contentType : string) : option Blob :=
  if startsWith base64Data "data:" then
    match w_fetch_data_url w base64Data with
    | Returns (Returns b) => Some b
    | _ => None
    end
  else
    match atob (raw_base64 base64Data) with
    | Returns byteCharacters =>
        Some (new_Blob (bytes_of_binary_string byteCharacters) contentType)
    | Raises _ => None
    end.

(** The events of decoding: the data URL is fetched, raw base64 is decoded
    in place. *)
Definition decode_events (base64Data : string) : list Event :=
  if startsWith base64Data "data:" then [EvFetchDataUrl base64Data] else [].

(** ** Worlds used in examples *)

Definition set_getUser (w : World) (g : Outcome AuthResponse) : World :=
  mkWorld (w_createServerClient w) g (w_now w) (w_orders_update w) (w_stop_events_insert w)
    (w_pods_insert w) (w_upsert_driver_position w) (w_put w) (w_fetch_pod_email w)
    (w_fetch_data_url w) (w_ENABLE_POD_EMAIL w).

Definition set_orders_update (w : World) (f : nat -> Outcome ErrVal) : World :=
  mkWorld (w_createServerClient w) (w_getUser w) (w_now w) f (w_stop_events_insert w)
    (w_pods_insert w) (w_upsert_driver_position w) (w_put w) (w_fetch_pod_email w)
    (w_fetch_data_url w) (w_ENABLE_POD_EMAIL w).

Definition set_stop_events_insert (w : World) (f : nat -> Outcome ErrVal) : World :=
  mkWorld (w_createServerClient w) (w_getUser w) (w_now w) (w_orders_update w) f
    (w_pods_insert w) (w_upsert_driver_position w) (w_put w) (w_fetch_pod_email w)
    (w_fetch_data_url w) (w_ENABLE_POD_EMAIL w).

Definition set_pods_insert (w : World) (f : nat -> Outcome PodsResponse) : World :=
  mkWorld (w_createServerClient w) (w_getUser w) (w_now w) (w_orders_update w)
    (w_stop_events_insert w) f (w_upsert_driver_position w) (w_put w) (w_fetch_pod_email w)
    (w_fetch_data_url w) (w_ENABLE_POD_EMAIL w).

Definition set_upsert_driver_position (w : World) (f : nat -> Outcome ErrVal) : World :=
  mkWorld (w_createServerClient w) (w_getUser w) (w_now w) (w_orders_update w)
    (w_stop_events_insert w) (w_pods_insert w) f (w_put w) (w_fetch_pod_email w)
    (w_fetch_data_url w) (w_ENABLE_POD_EMAIL w).

Definition set_fetch_pod_email (w : World) (f : nat -> Outcome (Settled Response)) : World :=
  mkWorld (w_createServerClient w) (w_getUser w) (w_now w) (w_orders_update w)
    (w_stop_events_insert w) (w_pods_insert w) (w_upsert_driver_position w) (w_put w) f
    (w_fetch_data_url w) (w_ENABLE_POD_EMAIL w).

Definition set_ENABLE_POD_EMAIL (w : World) (flag : option string) : World :=
  mkWorld (w_createServerClient w) (w_getUser w) (w_now w) (w_orders_update w)
    (w_stop_events_insert w) (w_pods_insert w) (w_upsert_driver_position w) (w_put w)
    (w_fetch_pod_email w) (w_fetch_data_url w) flag.

Definition driver : User := mkUser "driver-1".

(** HTTP status 200. *)
Definition status_200 : JsNumber := S754_finite false 25%positive 3%Z.

(** 43.5 and -79.5. *)
Definition example_lat : JsNumber := S754_finite false 87%positive (-1)%Z.
Definition example_lng : JsNumber := S754_finite true 159%positive (-1)%Z.

Definition email_ok : Response :=
  mkResponse (Some "application/json") status_200
    (Fulfilled (JObj [("ok", JBool true)])) (Fulfilled "{}").

(** Every collaborator answers and nothing fails. *)
Definition w_online : World :=
  mkWorld (Returns tt) (Returns (mkAuth (Some driver) ENull))
    (fun _ => "2024-05-01T12:00:00.000Z")
    (fun _ => Returns ENull) (fun _ => Returns ENull)
    (fun _ => Returns (mkPods (Some (mkPodRow (JStr "pod-1"))) ENull))
    (fun _ => Returns ENull)
    (fun _ => Returns (mkPut "https://blob.example/f.png"))
    (fun _ => Returns (Fulfilled email_ok))
    (fun _ => Returns (Returns (mkBlob [137; 80; 78; 71]%N "image/png")))
    (Some "true").

(** The identity provider reports no user. *)
Definition w_signed_out : World := set_getUser w_online (Returns (mkAuth None ENull)).

Definition timeout_error : ErrVal := EObj (Some "timeout").

(** The store fails twice, then answers. *)
Definition w_flaky : World :=
  set_pods_insert
    (set_orders_update w_online
       (fun k => if Nat.ltb k 2 then Returns timeout_error else Returns ENull))
    (fun k => if Nat.ltb k 2 then Raises timeout_error
              else Returns (mkPods (Some (mkPodRow (JStr "pod-1"))) ENull)).

(** The audit insert raises, the orders update works. *)
Definition w_audit_raises : World :=
  set_stop_events_insert w_online (fun _ => Raises (EObj (Some "audit down"))).

(** The position upsert reports an error every time. *)
Definition w_position_down : World :=
  set_upsert_driver_position w_online (fun _ => Returns timeout_error).

(** ** Properties of a run *)

(** The identity check guards the writes of a run: at most one check,
    exactly one before any write, and when it fails AUTH_EXPIRED and no
    write. *)
Definition guarded_by_identity_check (w : World) (m : M JsVal) : Prop :=
  count is_getUser (trace_of m) <= 1
  /\ (forall pre e post,
        trace_of m = (pre ++ e :: post)%list -> is_write e = true -> count is_getUser pre = 1)
  /\ (identity_check_fails w = true ->
        count is_getUser (trace_of m) = 1
        /\ count is_write (trace_of m) = 0
        /\ exists v, result_of m = Val v /\ code_of v = Some "AUTH_EXPIRED").

(** The retry policy, for a loop whose wrapped call is [primary] and whose
    attempt [j] succeeds when [ok j]. *)
Definition retry_policy_holds (primary : Event -> bool) (ok : nat -> bool) (m : M JsVal)
    : Prop :=
  let tr := trace_of m in
  let n := attempts_made ok in
  1 <= n <= maxRetries
  /\ count primary tr = n
  /\ skeleton primary tr = beats n
  /\ sleeps tr = map (fun k => 1000 * k) (seq 1 (n - 1))
  /\ length (sleeps tr) <= 2
  /\ (forall pre ms post, tr = (pre ++ EvSleep ms :: post)%list -> 1 <= count primary post)
  /\ (forall j, first_ok ok = Some j ->
        n = S j /\ result_of m = Val success_result
        /\ exists pre, tr = (pre ++ [EvRevalidatePath "/driver"])%list)
  /\ (first_ok ok = None ->
        n = maxRetries /\ exists msg, result_of m = Val (failure_result msg)).

(** [notes || ""] inside the template of line 119; an empty [notes] adds
    nothing either way. *)
Definition notes_text (notes : option string) : string :=
  match notes with
  | Some n => n
  | None => ""
  end.

(** What may be said of an email request found in the trace of
    [savePOD]: the flag is "true" and the id is that of a row some insert
    returned without error, and it is truthy. *)
Definition dispatch_justified (w : World) (e : Event) : Prop :=
  match e with
  | EvFetchPodEmail _ id =>
      w_ENABLE_POD_EMAIL w = Some "true" /\ truthy id = true
      /\ exists j r row,
           w_pods_insert w j = Returns r /\ pod_insert_ok (Returns r) = true
           /\ pods_data r = Some row /\ pod_id row = id
  | _ => True
  end.

(** What [uploadToBlob] returns: [{ url, error }], one of the two [null]. *)
Definition is_upload_response (v : JsVal) : bool :=
  match v with
  | JObj fields =>
      match lookup_field "success" fields, lookup_field "url" fields,
            lookup_field "error" fields with
      | None, Some (JStr _), Some JNull => true
      | None, Some JNull, Some (JStr _) => true
      | _, _, _ => false
      end
  | _ => false
  end.

(** The position upsert reports no error. *)
Definition position_attempt_ok (w : World) (j : nat) : bool :=
  update_ok (w_upsert_driver_position w j).

(** The client or the identity lookup raises. *)
Definition identity_lookup_raises (w : World) : bool :=
  match w_createServerClient w, w_getUser w with
  | Raises _, _ => true
  | Returns _, Raises _ => true
  | Returns _, Returns _ => false
  end.

(** The store reports an error on every call. *)
Definition w_store_down : World :=
  set_pods_insert
    (set_orders_update w_online (fun _ => Returns timeout_error))
    (fun _ => Returns (mkPods None timeout_error)).

(** A response of the email route that is not JSON. *)
Definition email_html_error : Response :=
  mkResponse (Some "text/html") (S754_finite false 125%positive 2%Z)
    (Rejected (EObj (Some "Unexpected token <"))) (Fulfilled "<html>oops</html>").

(** A JSON response whose body is [null]. *)
Definition email_json_null : Response :=
  mkResponse (Some "application/json; charset=utf-8") status_200
    (Fulfilled JNull) (Fulfilled "null").

(** ** More observations *)

Definition set_put (w : World) (f : nat -> Outcome PutBlobResult) : World :=
  mkWorld (w_createServerClient w) (w_getUser w) (w_now w) (w_orders_update w)
    (w_stop_events_insert w) (w_pods_insert w) (w_upsert_driver_position w) f
    (w_fetch_pod_email w) (w_fetch_data_url w) (w_ENABLE_POD_EMAIL w).

(** The blob store raises twice, then answers. *)
Definition w_blob_flaky : World :=
  set_put w_online
    (fun k => if Nat.ltb k 2 then Raises timeout_error
              else Returns (mkPut "https://blob.example/f.png")).

(** The blob store raises every time. *)
Definition w_blob_down : World := set_put w_online (fun _ => Raises timeout_error).

Definition is_revalidate (e : Event) : bool :=
  match e with EvRevalidatePath _ => true | _ => false end.

(** The string holds no comma. *)
Fixpoint no_comma (s : string) : bool :=
  match s with
  | EmptyString => true
  | String c s' => negb (Ascii.eqb c ","%char) && no_comma s'
  end.

(** The [updated_at] of the orders updates of a trace, in order. *)
Fixpoint update_stamps (tr : list Event) : list string :=
  match tr with
  | [] => []
  | EvOrdersUpdate _ updated_at _ :: rest => updated_at :: update_stamps rest
  | _ :: rest => update_stamps rest
  end.

(** The [delivered_at] of the rows a trace inserts into [pods], in order. *)
Fixpoint pod_stamps (tr : list Event) : list string :=
  match tr with
  | [] => []
  | EvPodsInsert _ _ _ _ _ delivered_at :: rest => delivered_at :: pod_stamps rest
  | _ :: rest => pod_stamps rest
  end.

(** The email requests of a trace: order id and row id. *)
Fixpoint email_requests (tr : list Event) : list (string * JsVal) :=
  match tr with
  | [] => []
  | EvFetchPodEmail o id :: rest => (o, id) :: email_requests rest
  | _ :: rest => email_requests rest
  end.

(** The id of the row the [j]-th insert into [pods] returns. *)
Definition inserted_id (w : World) (j : nat) : JsVal :=
  match w_pods_insert w j with
  | Returns r =>
      match pods_data r with
      | Some row => pod_id row
      | None => JUndefined
      end
  | Raises _ => JUndefined
  end.

Definition is_console (e : Event) : bool :=
  match e with EvConsole _ _ => true | _ => false end.

(** Line 166: [{ ok: false, status: r.status, body: await r.text() }]. *)
Definition wrapped_body (r : Response) (body : string) : JsVal :=
  JObj [("ok", JBool false); ("status", JNum (resp_status r)); ("body", JStr body)].

(** Line 161-163: the response says it is JSON. *)
Definition says_json (r : Response) : bool :=
  includes (match resp_content_type r with
            | Some s => if truthy_str s then s else ""
            | None => ""
            end) "application/json".

(** [revalidatePath] is called exactly when the action succeeds, once and
    last. *)
Definition invalidates_on_success (m : M JsVal) : Prop :=
  (result_of m = Val success_result ->
     count is_revalidate (trace_of m) = 1
     /\ exists pre, trace_of m = (pre ++ [EvRevalidatePath "/driver"])%list)
  /\ (result_of m <> Val success_result -> count is_revalidate (trace_of m) = 0).

(** ** Runs a caller cannot tell apart *)

(** Two states that differ at most in the promises left unawaited. *)
Definition same_visible (st st' : St) : Prop :=
  trace st = trace st' /\ retryCount st = retryCount st' /\ lastError st = lastError st'.

Definition same_run {A} (r r' : Res A * St) : Prop :=
  fst r = fst r' /\ same_visible (snd r) (snd r').

(** Two email routes that differ at most in how the promise of a request
    settles: the [fetch] call returns a promise in both or raises in both. *)
Definition differ_in_settling (f f' : nat -> Outcome (Settled Response)) : Prop :=
  forall j, returned (f j) = returned (f' j).

(** The identity lookup raises instead of answering. *)
Definition w_identity_down : World := set_getUser w_online (Raises timeout_error).

(** A run that writes nothing and ends in a failure without a [code]. *)
Definition fails_without_code (m : M JsVal) : Prop :=
  count is_write (trace_of m) = 0
  /\ exists msg, result_of m = Val (failure_result msg).

(** * Properties *)

Open Scope list_scope.

(** ** Concrete runs *)

(** The update fails twice and succeeds the third time. *)
Example updateStopStatus_third_time_lucky :
  run (updateStopStatus w_flaky maxRetries "order-1" Delivered (Some "left at door"))
  = (Val success_result,
     mkSt [EvCreateServerClient; EvGetUser;
           EvDateNow; EvOrdersUpdate "delivered" "2024-05-01T12:00:00.000Z" "order-1";
           EvSleep 1000;
           EvDateNow; EvOrdersUpdate "delivered" "2024-05-01T12:00:00.000Z" "order-1";
           EvSleep 2000;
           EvDateNow; EvOrdersUpdate "delivered" "2024-05-01T12:00:00.000Z" "order-1";
           EvStopEventsInsert "order-1" "driver-1" "delivered" (Some "left at door");
           EvRevalidatePath "/driver"]
       2 timeout_error []).
Proof. reflexivity. Qed.

(** The update fails three times: the message of the last error is reported
    and no sleep follows the third attempt. *)
Example updateStopStatus_store_down :
  run (updateStopStatus w_store_down maxRetries "order-1" Failed None)
  = (Val (failure_result "Failed to update order status: timeout"),
     mkSt [EvCreateServerClient; EvGetUser;
           EvDateNow; EvOrdersUpdate "failed" "2024-05-01T12:00:00.000Z" "order-1";
           EvSleep 1000;
           EvDateNow; EvOrdersUpdate "failed" "2024-05-01T12:00:00.000Z" "order-1";
           EvSleep 2000;
           EvDateNow; EvOrdersUpdate "failed" "2024-05-01T12:00:00.000Z" "order-1";
           EvConsole LError "[v0] Database error in updateStopStatus after retries:"]
       3 timeout_error []).
Proof. reflexivity. Qed.

(** No user: AUTH_EXPIRED and no store call. *)
Example updateStopStatus_signed_out :
  run (updateStopStatus w_signed_out maxRetries "order-1" Delivered None)
  = (Val (JObj [("success", JBool false);
                ("error", JStr "Your session has expired. Please log in again.");
                ("code", JStr "AUTH_EXPIRED")]),
     mkSt [EvCreateServerClient; EvGetUser;
           EvConsole LError "[v0] Auth error in updateStopStatus:"]
       0 EUndefined []).
Proof. reflexivity. Qed.

(** A proof of delivery with the email request sent and left unawaited. *)
Example savePOD_online :
  run (savePOD w_online maxRetries "order-1" (Some "https://blob.example/p.jpg") None
         (Some "left at door") (Some "Jane Doe"))
  = (Val success_result,
     mkSt [EvCreateServerClient; EvGetUser;
           EvDateNow;
           EvPodsInsert "order-1" "driver-1" (Some "https://blob.example/p.jpg") None
             (Some ("Recipient: Jane Doe" ++ newline ++ "left at door")%string)
             "2024-05-01T12:00:00.000Z";
           EvConsole LLog "[v0] [POD] Triggering email via API route";
           EvConsole LLog "[v0] [POD] Order ID:";
           EvConsole LLog "[v0] [POD] POD ID:";
           EvFetchPodEmail "order-1" (JStr "pod-1");
           EvRevalidatePath "/driver"]
       0 EUndefined [Fulfilled email_ok]).
Proof. reflexivity. Qed.

(** The callbacks of the email request: a JSON answer is returned as it is; a
    body that is not JSON is wrapped and logged as failed; a rejected request
    and a [null] body end in the warning of [.catch]. *)
Example pod_email_chain_json :
  pod_email_chain (Fulfilled email_ok) st0
  = (Val (JObj [("ok", JBool true)]),
     mkSt [EvConsole LLog "[v0] [POD] Email API response:"] 0 EUndefined []).
Proof. reflexivity. Qed.

Example pod_email_chain_not_json :
  pod_email_chain (Fulfilled email_html_error) st0
  = (Val (JObj [("ok", JBool false); ("status", JNum (S754_finite false 125%positive 2%Z));
                ("body", JStr "<html>oops</html>")]),
     mkSt [EvConsole LLog "[v0] [POD] Email API response:";
           EvConsole LError "[v0] [POD] Email failed:"] 0 EUndefined []).
Proof. reflexivity. Qed.

Example pod_email_chain_rejected :
  pod_email_chain (Rejected timeout_error) st0
  = (Val JUndefined,
     mkSt [EvConsole LWarn "[v0] [POD] Email API call failed (non-blocking):"]
       0 EUndefined []).
Proof. reflexivity. Qed.

Example pod_email_chain_null_body :
  pod_email_chain (Fulfilled email_json_null) st0
  = (Val JUndefined,
     mkSt [EvConsole LLog "[v0] [POD] Email API response:";
           EvConsole LWarn "[v0] [POD] Email API call failed (non-blocking):"]
       0 EUndefined []).
Proof. reflexivity. Qed.

(** [atob] and the payload of line 235. *)
Example atob_hi : atob "aGk=" = Returns "hi".
Proof. reflexivity. Qed.

Example atob_unpadded : atob "aGk" = Returns "hi".
Proof. reflexivity. Qed.

Example atob_rejects : atob "a" = Raises InvalidCharacterError.
Proof. reflexivity. Qed.

Example raw_base64_strips_header : raw_base64 "data;base64,aGk=" = "aGk=".
Proof. reflexivity. Qed.

Example raw_base64_without_comma : raw_base64 "aGk=" = "aGk=".
Proof. reflexivity. Qed.

(** A data URL is fetched, not decoded in place. *)
Example uploadToBlob_data_url :
  run (uploadToBlob w_online maxRetries "data:image/png;base64,iVBORw==" "f.png" "image/png")
  = (Val (upload_result "https://blob.example/f.png"),
     mkSt [EvFetchDataUrl "data:image/png;base64,iVBORw==";
           EvBlobPut "f.png" (mkBlob [137; 80; 78; 71]%N "image/png") "public" "image/png"]
       0 EUndefined []).
Proof. reflexivity. Qed.

(** ** Traces *)

Lemma count_app (p : Event -> bool) (a b : list Event) :
  count p (a ++ b) = count p a + count p b.
Proof. unfold count. now rewrite filter_app, length_app. Qed.

Lemma sleeps_app (a b : list Event) : sleeps (a ++ b) = sleeps a ++ sleeps b.
Proof.
  induction a as [|e a IH]; [reflexivity|].
  destruct e; simpl; rewrite IH; reflexivity.
Qed.

Lemma skeleton_app (p : Event -> bool) (a b : list Event) :
  skeleton p (a ++ b) = skeleton p a ++ skeleton p b.
Proof.
  induction a as [|e a IH]; [reflexivity|].
  simpl. destruct (p e); [now rewrite IH|].
  destruct e; simpl; rewrite IH; reflexivity.
Qed.

(** The attempts of a skeleton are the primary events of the trace. *)
Lemma skeleton_attempts (p : Event -> bool) (tr : list Event) :
  length (filter (fun b => match b with Attempt => true | Pause _ => false end) (skeleton p tr))
  = count p tr.
Proof.
  unfold count. induction tr as [|e tr IH]; [reflexivity|].
  simpl. destruct (p e); simpl; [now rewrite IH|].
  destruct e; simpl; exact IH.
Qed.

(** The pauses of a skeleton are the sleeps of the trace, when the primary
    call is not the timer. *)
Lemma skeleton_pauses (p : Event -> bool) (tr : list Event) :
  (forall ms, p (EvSleep ms) = false) ->
  flat_map (fun b => match b with Attempt => [] | Pause ms => [ms] end) (skeleton p tr)
  = sleeps tr.
Proof.
  intros Hp. induction tr as [|e tr IH]; [reflexivity|].
  simpl. destruct (p e) eqn:He.
  - destruct e; simpl; try exact IH. now rewrite Hp in He.
  - destruct e; simpl; try exact IH. now rewrite IH.
Qed.

(** ** The loop *)

Lemma while_done {R} (fuel : nat) (cond : St -> bool) (body : M (option R)) (st : St) :
  cond st = false -> while fuel cond body st = (Val None, st).
Proof. intros H. destruct fuel; simpl; rewrite H; reflexivity. Qed.

Lemma while_step {R} (fuel : nat) (cond : St -> bool) (body : M (option R)) (st : St) :
  cond st = true ->
  while (S fuel) cond body st =
  match body st with
  | (Val None, st') => while fuel cond body st'
  | r => r
  end.
Proof. intros H. simpl. rewrite H. reflexivity. Qed.

Lemma first_ok_from_bounds (ok : nat -> bool) (n c j : nat) :
  first_ok_from ok c n = Some j -> c <= j < c + n /\ ok j = true.
Proof.
  revert c. induction n as [|n IH]; intros c H; simpl in H; [discriminate|].
  destruct (ok c) eqn:Hc.
  - injection H as <-. split; [lia|exact Hc].
  - apply IH in H. split; [lia|tauto].
Qed.

Lemma first_ok_from_none (ok : nat -> bool) (n c : nat) :
  first_ok_from ok c n = None -> forall j, c <= j < c + n -> ok j = false.
Proof.
  revert c. induction n as [|n IH]; intros c H j Hj; [lia|].
  simpl in H. destruct (ok c) eqn:Hc; [discriminate|].
  destruct (Nat.eq_dec j c) as [->|Hne]; [exact Hc|].
  apply (IH (S c) H). lia.
Qed.

Lemma first_ok_from_first (ok : nat -> bool) (n c j : nat) :
  first_ok_from ok c n = Some j -> forall i, c <= i < j -> ok i = false.
Proof.
  revert c. induction n as [|n IH]; intros c H i Hi; simpl in H; [discriminate|].
  destruct (ok c) eqn:Hc.
  - injection H as <-. lia.
  - destruct (Nat.eq_dec i c) as [->|Hne]; [exact Hc|].
    apply (IH (S c) H). lia.
Qed.

Lemma first_ok_from_ext (ok ok' : nat -> bool) (n c : nat) :
  (forall j, ok j = ok' j) -> first_ok_from ok c n = first_ok_from ok' c n.
Proof.
  intros H. revert c. induction n as [|n IH]; intros c; [reflexivity|].
  cbn [first_ok_from]. now rewrite H, IH.
Qed.

Lemma record_failure_run (e : ErrVal) (st : St) :
  record_failure e st =
  (Val tt, mkSt (trace st ++ backoff (S (retryCount st))) (S (retryCount st)) e (detached st)).
Proof.
  unfold record_failure, bind, set_lastError, get_retryCount, set_retryCount, backoff, sleep,
    emit, ret. simpl.
  replace (retryCount st + 1) with (S (retryCount st)) by lia.
  destruct (Nat.ltb (S (retryCount st)) maxRetries); simpl; [reflexivity|].
  now rewrite app_nil_r.
Qed.

Section RetryLoop.

Variable body : M (option JsVal).
Variable ok : nat -> bool.
Variable primary : Event -> bool.
Variable Inv : nat -> list Event -> Prop.
Variable P : Event -> Prop.
Variable Good : nat -> JsVal -> list Event -> list (Settled Response) -> Prop.
Variable err : nat -> ErrVal.

Hypothesis primary_not_sleep : forall ms, primary (EvSleep ms) = false.
Hypothesis P_sleep : forall ms, P (EvSleep ms).

Hypothesis body_ok : forall st,
  retryCount st < maxRetries -> Inv (retryCount st) (trace st) ->
  ok (retryCount st) = true ->
  exists v a d st',
    body st = (Val (Some v), st') /\ trace st' = trace st ++ a
    /\ detached st' = detached st ++ d /\ attempt_shape primary P a
    /\ Good (retryCount st) v a d.

Hypothesis body_failed : forall st,
  retryCount st < maxRetries -> Inv (retryCount st) (trace st) ->
  ok (retryCount st) = false ->
  exists a st',
    body st = (Val None, st')
    /\ trace st' = trace st ++ a ++ backoff (S (retryCount st))
    /\ retryCount st' = S (retryCount st) /\ detached st' = detached st
    /\ lastError st' = err (retryCount st)
    /\ attempt_shape primary P a /\ Inv (S (retryCount st)) (trace st').

Lemma skeleton_backoff (c : nat) :
  skeleton primary (backoff c) = if Nat.ltb c maxRetries then [Pause (1000 * c)] else [].
Proof.
  unfold backoff. destruct (Nat.ltb c maxRetries); [|reflexivity].
  cbn [skeleton]. now rewrite primary_not_sleep.
Qed.

Lemma Forall_backoff (c : nat) : Forall P (backoff c).
Proof. unfold backoff. destruct (Nat.ltb c maxRetries); auto. Qed.

Lemma retry_loop (n : nat) : forall (st : St) (fuel : nat),
  retryCount st + n = maxRetries -> n <= fuel -> Inv (retryCount st) (trace st) ->
  exists x l st',
    while fuel retry_cond body st = (Val x, st')
    /\ trace st' = trace st ++ l /\ Forall P l
    /\ match first_ok_from ok (retryCount st) n with
       | Some j =>
           exists v l0 a d,
             x = Some v /\ l = l0 ++ a /\ detached st' = detached st ++ d
             /\ skeleton primary l0 = failed_beats (retryCount st) (j - retryCount st)
             /\ attempt_shape primary P a /\ Good j v a d /\ Inv j (trace st ++ l0)
       | None =>
           x = None /\ skeleton primary l = failed_beats (retryCount st) n
           /\ retryCount st' = maxRetries /\ detached st' = detached st
           /\ lastError st' = match n with
                              | O => lastError st
                              | S _ => err (maxRetries - 1)
                              end
           /\ Inv maxRetries (trace st')
       end.
Proof.
  induction n as [|n IH]; intros st fuel Hc Hfuel HI.
  - exists None, [], st. rewrite while_done.
    + rewrite app_nil_r. simpl. repeat split; auto; [lia|].
      replace maxRetries with (retryCount st) by lia. exact HI.
    + unfold retry_cond. apply Nat.ltb_ge. lia.
  - destruct fuel as [|fuel]; [lia|].
    assert (Hlt : retryCount st < maxRetries) by lia.
    rewrite while_step by (unfold retry_cond; apply Nat.ltb_lt; exact Hlt).
    cbn [first_ok_from]. destruct (ok (retryCount st)) eqn:Hok.
    + destruct (body_ok st Hlt HI Hok) as (v & a & d & st' & Hb & Ht & Hd & Ha & Hg).
      exists (Some v), a, st'. rewrite Hb. repeat split; auto.
      * apply Ha.
      * exists v, [], a, d. rewrite Nat.sub_diag, app_nil_r.
        repeat split; auto; apply Ha.
    + destruct (body_failed st Hlt HI Hok) as (a & st1 & Hb & Ht & Hr & Hd & He & Ha & HI1).
      rewrite Hb.
      destruct (IH st1 fuel) as (x & l & st' & Hw & Ht' & HP & Hres).
      { rewrite Hr. lia. } { lia. } { rewrite Hr. exact HI1. }
      exists x, (a ++ backoff (S (retryCount st)) ++ l), st'.
      split; [exact Hw|]. split.
      { rewrite Ht', Ht. now rewrite <- !app_assoc. }
      split.
      { apply Forall_app. split; [apply Ha|].
      apply Forall_app. split; [apply Forall_backoff|exact HP]. }
      rewrite Hr in Hres.
      destruct (first_ok_from ok (S (retryCount st)) n) as [j|] eqn:Hf.
      * destruct Hres as (v & l0 & a' & d & -> & -> & Hd' & Hsk & Ha' & Hg & HIj).
        exists v, (a ++ backoff (S (retryCount st)) ++ l0), a', d.
        apply first_ok_from_bounds in Hf. destruct Hf as [Hj _].
        repeat split; auto; try apply Ha'.
        { now rewrite <- !app_assoc. }
        { now rewrite Hd', Hd. }
        { replace (j - retryCount st) with (S (j - S (retryCount st))) by lia.
          cbn [failed_beats]. rewrite !skeleton_app, skeleton_backoff, Hsk.
          destruct Ha as [-> _]. reflexivity. }
        { rewrite Ht in HIj. now rewrite <- !app_assoc in HIj. }
      * destruct Hres as (-> & Hsk & Hr' & Hd' & He' & HIm).
        repeat split; auto.
        { cbn [failed_beats]. rewrite !skeleton_app, skeleton_backoff, Hsk.
          destruct Ha as [-> _]. reflexivity. }
        { now rewrite Hd', Hd. }
        { rewrite He'. destruct n; [|reflexivity].
          rewrite He. f_equal. lia. }
Qed.

End RetryLoop.

Lemma count_snoc (p : Event -> bool) (tr : list Event) (e : Event) :
  count p (tr ++ [e]) = count p tr + (if p e then 1 else 0).
Proof. rewrite count_app. unfold count. simpl. now destruct (p e). Qed.

Ltac run_action :=
  cbv beta iota zeta delta
    [try_catch bind call_nth call settle await emit ret throw console sleep revalidatePath
     detach get_lastError set_lastError set_retryCount get_retryCount st0];
  cbn [fst snd trace retryCount lastError detached app].

Ltac all_events :=
  repeat first [apply Forall_nil | apply Forall_cons; [hnf; auto|]].

Ltac counts :=
  rewrite ?count_snoc;
  cbn [is_getUser is_date_now is_orders_update is_stop_events_insert is_pods_insert
       is_upsert_position is_blob_put is_sleep is_fetch_pod_email];
  rewrite ?Nat.add_0_r.

(** After a failed attempt with events [a]: the trace, the counter and the
    invariant. *)
Ltac failed_attempt a Hu Hi :=
  rewrite record_failure_run; cbn [trace retryCount detached];
  exists a; eexists; (split; [reflexivity|]); cbn [trace retryCount detached lastError];
  rewrite <- !app_assoc; cbn [app];
  (split; [reflexivity|]); (split; [reflexivity|]); (split; [reflexivity|]);
  (split; [try reflexivity|]);
  (split; [split; [reflexivity|all_events]|]);
  rewrite !count_app, ?Hu, ?Hi; unfold backoff;
  destruct (Nat.ltb (S (retryCount _)) maxRetries).

Ltac finish_counts :=
  cbn [count filter length app is_orders_update is_stop_events_insert is_pods_insert
       is_blob_put]; lia.

Section UpdateStopStatusLoop.

Variable w : World.
Variables (orderId : string) (status : StopStatus) (notes : option string) (user : User).

Let body := updateStopStatus_attempt w orderId status notes user.
Let Inv (c : nat) (tr : list Event) : Prop :=
  count is_orders_update tr = c /\ count is_stop_events_insert tr = audit_index w c.
Let P := status_loop_event orderId status notes user.
Let Good (j : nat) (v : JsVal) (a : list Event) (d : list (Settled Response)) : Prop :=
  v = success_result /\ d = [] /\ count is_stop_events_insert a = 1
  /\ exists a', a = a' ++ [EvRevalidatePath "/driver"].

Lemma status_attempt_succeeds (st : St) :
  retryCount st < maxRetries -> Inv (retryCount st) (trace st) ->
  status_attempt_ok w (retryCount st) = true ->
  exists v a d st',
    body st = (Val (Some v), st') /\ trace st' = trace st ++ a
    /\ detached st' = detached st ++ d /\ attempt_shape is_orders_update P a
    /\ Good (retryCount st) v a d.
Proof.
  intros _ [Hu Hi] Hok. unfold status_attempt_ok in Hok.
  apply andb_true_iff in Hok. destruct Hok as [Hup Hins].
  subst body. unfold updateStopStatus_attempt, date_now, orders_update, stop_events_insert.
  run_action. counts. rewrite Hu.
  destruct (w_orders_update w (retryCount st)) as [e|e]; [|discriminate].
  cbn [update_ok] in Hup. rewrite Hup. run_action. counts. rewrite Hi.
  destruct (w_stop_events_insert w (audit_index w (retryCount st))) as [ee|ee]; [|discriminate].
  destruct (truthy_err ee); run_action; rewrite <- !app_assoc; cbn [app];
    exists success_result; eexists; exists []; eexists;
    (split; [reflexivity|]); cbn [trace detached];
    (split; [reflexivity|]); (split; [symmetry; apply app_nil_r|]);
    (split; [split; [reflexivity|all_events]|]);
    (split; [reflexivity|]); (split; [reflexivity|]); (split; [reflexivity|]).
  - now exists [EvDateNow;
                EvOrdersUpdate (status_string status) (w_now w (count is_date_now (trace st)))
                  orderId;
                EvStopEventsInsert orderId (user_id user) (status_string status) notes;
                EvConsole LError "[v0] Error creating stop event:"].
  - now exists [EvDateNow;
                EvOrdersUpdate (status_string status) (w_now w (count is_date_now (trace st)))
                  orderId;
                EvStopEventsInsert orderId (user_id user) (status_string status) notes].
Qed.

Lemma status_attempt_fails (st : St) :
  retryCount st < maxRetries -> Inv (retryCount st) (trace st) ->
  status_attempt_ok w (retryCount st) = false ->
  exists a st',
    body st = (Val None, st')
    /\ trace st' = trace st ++ a ++ backoff (S (retryCount st))
    /\ retryCount st' = S (retryCount st) /\ detached st' = detached st
    /\ lastError st' = status_error w (retryCount st)
    /\ attempt_shape is_orders_update P a /\ Inv (S (retryCount st)) (trace st').
Proof.
  intros _ [Hu Hi] Hok. unfold status_attempt_ok in Hok.
  subst body. unfold updateStopStatus_attempt, date_now, orders_update, stop_events_insert.
  run_action. counts. rewrite Hu.
  unfold Inv, status_error. cbn [audit_index].
  set (upd := EvOrdersUpdate (status_string status) (w_now w (count is_date_now (trace st)))
                orderId).
  set (ins := EvStopEventsInsert orderId (user_id user) (status_string status) notes).
  destruct (w_orders_update w (retryCount st)) as [e|e]; cbn [update_ok] in *.
  - destruct (truthy_err e) eqn:He; cbn [negb andb] in *.
    + failed_attempt [EvDateNow; upd] Hu Hi; subst upd ins; finish_counts.
    + run_action. counts. rewrite Hi.
      destruct (w_stop_events_insert w (audit_index w (retryCount st))) as [ee|ee];
        [discriminate|].
      failed_attempt [EvDateNow; upd; ins] Hu Hi; subst upd ins; finish_counts.
  - failed_attempt [EvDateNow; upd] Hu Hi; subst upd ins; finish_counts.
Qed.

End UpdateStopStatusLoop.

Lemma signed_in_inv (w : World) (user : User) :
  signed_in w = Some user ->
  exists u r, w_createServerClient w = Returns u /\ w_getUser w = Returns r
              /\ truthy_err (auth_error r) = false /\ auth_user r = Some user.
Proof.
  unfold signed_in. intros H.
  destruct (w_createServerClient w) as [u|]; [|discriminate].
  destruct (w_getUser w) as [r|]; [|discriminate].
  destruct (truthy_err (auth_error r)) eqn:He; [discriminate|].
  now exists u, r.
Qed.

Section UpdateStopStatus.

Variable w : World.
Variables (orderId : string) (status : StopStatus) (notes : option string).
Variable k : nat.

Let m := updateStopStatus w (maxRetries + k) orderId status notes.

Lemma updateStopStatus_signed_in (user : User) :
  signed_in w = Some user ->
  exists l,
    trace_of m = EvCreateServerClient :: EvGetUser :: l
    /\ Forall (status_loop_event orderId status notes user) l
    /\ match first_ok (status_attempt_ok w) with
       | Some j =>
           result_of m = Val success_result
           /\ skeleton is_orders_update l = failed_beats 0 j ++ [Attempt]
           /\ count is_stop_events_insert l = S (audit_index w j)
           /\ exists l0, l = l0 ++ [EvRevalidatePath "/driver"]
       | None =>
           result_of m
           = Val (failure_result
                    ("Failed to update order status: "
                     ++ message_or (status_error w (maxRetries - 1)) "Network error")%string)
           /\ skeleton is_orders_update l = failed_beats 0 maxRetries
       end.
Proof.
  intros Hs. destruct (signed_in_inv w user Hs) as (u & r & Hc & Hg & He & Hu).
  subst m. unfold result_of, trace_of, run, updateStopStatus, createServerClient, auth_getUser.
  run_action. rewrite Hc, Hg. run_action. rewrite He, Hu. run_action.
  set (st1 := mkSt _ 0 EUndefined []).
  destruct (retry_loop _ _ is_orders_update _ _ _ _
              (fun _ => eq_refl) (fun _ => I)
              (status_attempt_succeeds w orderId status notes user)
              (status_attempt_fails w orderId status notes user)
              maxRetries st1 (maxRetries + k))
    as (x & l & st' & Hw & Ht & HP & Hres).
  { reflexivity. } { lia. } { split; reflexivity. }
  rewrite Hw. cbn [retryCount st1] in Hres. unfold first_ok.
  destruct (first_ok_from (status_attempt_ok w) 0 maxRetries) as [j|].
  - destruct Hres
      as (v & l0 & a & d & -> & -> & _ & Hsk & [Ha _] & (-> & _ & Hins & a' & ->) & _ & HI).
    cbn [fst snd]. rewrite Ht. exists (l0 ++ a' ++ [EvRevalidatePath "/driver"]).
    split; [reflexivity|]. split; [exact HP|]. split; [reflexivity|]. split.
    { rewrite skeleton_app, Hsk, Ha, Nat.sub_0_r. reflexivity. }
    split.
    { rewrite count_app, Hins. rewrite count_app in HI. subst st1. cbn [trace] in HI.
      change (count is_stop_events_insert [EvCreateServerClient; EvGetUser]) with 0 in HI.
      cbn [Nat.add] in HI. rewrite HI. lia. }
    exists (l0 ++ a'). now rewrite app_assoc.
  - destruct Hres as (-> & Hsk & _ & _ & Hle & _).
    cbn [fst snd trace lastError]. rewrite Ht, Hle.
    eexists. split; [rewrite <- app_assoc; reflexivity|]. split.
    + apply Forall_app. split; [exact HP|all_events].
    + split; [reflexivity|].
      rewrite skeleton_app, Hsk. cbn [skeleton is_orders_update]. apply app_nil_r.
Qed.

Lemma updateStopStatus_client_raises (e : ErrVal) :
  w_createServerClient w = Raises e ->
  result_of m = Val (failure_result "An unexpected error occurred. Please try again.")
  /\ trace_of m = [EvCreateServerClient;
                   EvConsole LError "[v0] Unexpected error in updateStopStatus:"].
Proof.
  intros Hc. subst m.
  unfold result_of, trace_of, run, updateStopStatus, createServerClient, auth_getUser.
  run_action. rewrite Hc. run_action. split; reflexivity.
Qed.

Lemma updateStopStatus_getUser_raises (u : unit) (e : ErrVal) :
  w_createServerClient w = Returns u -> w_getUser w = Raises e ->
  result_of m = Val (failure_result "An unexpected error occurred. Please try again.")
  /\ trace_of m = [EvCreateServerClient; EvGetUser;
                   EvConsole LError "[v0] Unexpected error in updateStopStatus:"].
Proof.
  intros Hc Hg. subst m.
  unfold result_of, trace_of, run, updateStopStatus, createServerClient, auth_getUser.
  run_action. rewrite Hc, Hg. run_action. split; reflexivity.
Qed.

Lemma updateStopStatus_identity_check_fails :
  identity_check_fails w = true ->
  result_of m = Val session_expired
  /\ trace_of m = [EvCreateServerClient; EvGetUser;
                   EvConsole LError "[v0] Auth error in updateStopStatus:"].
Proof.
  unfold identity_check_fails. intros H. subst m.
  unfold result_of, trace_of, run, updateStopStatus, createServerClient, auth_getUser.
  run_action.
  destruct (w_createServerClient w); [|discriminate].
  destruct (w_getUser w) as [r|]; [|discriminate].
  run_action.
  destruct (truthy_err (auth_error r)); [split; reflexivity|].
  destruct (auth_user r); [discriminate|split; reflexivity].
Qed.

End UpdateStopStatus.

Section SavePODLoop.

Variable w : World.
Variables (orderId : string) (photoUrl signatureUrl podNotes : option string) (user : User).

Let body := savePOD_attempt w orderId photoUrl signatureUrl podNotes user.
Let Inv (c : nat) (tr : list Event) : Prop :=
  count is_pods_insert tr = c /\ count is_fetch_pod_email tr = 0.
Let P := pod_loop_event w orderId photoUrl signatureUrl podNotes user.
Let Good (j : nat) (v : JsVal) (a : list Event) (d : list (Settled Response)) : Prop :=
  v = success_result /\ d = dispatched w j
  /\ count is_fetch_pod_email a = (if dispatches w j then 1 else 0)
  /\ exists a', a = a' ++ [EvRevalidatePath "/driver"].

Lemma pod_attempt_succeeds (st : St) :
  retryCount st < maxRetries -> Inv (retryCount st) (trace st) ->
  pod_attempt_ok w (retryCount st) = true ->
  exists v a d st',
    body st = (Val (Some v), st') /\ trace st' = trace st ++ a
    /\ detached st' = detached st ++ d /\ attempt_shape is_pods_insert P a
    /\ Good (retryCount st) v a d.
Proof.
  intros _ [Hu Hi] Hok. unfold pod_attempt_ok, pod_insert_ok in Hok.
  subst body. unfold savePOD_attempt, date_now, pods_insert, trigger_pod_email, fetch_pod_email.
  unfold Good, dispatched, dispatches.
  run_action. counts. rewrite Hu.
  set (ins := EvPodsInsert orderId (user_id user) photoUrl signatureUrl podNotes
                (w_now w (count is_date_now (trace st)))).
  destruct (w_pods_insert w (retryCount st)) as [r|e] eqn:Hr; [|discriminate].
  assert (Hok' := Hok).
  apply andb_true_iff in Hok. destruct Hok as [He Hd].
  apply negb_true_iff in He. rewrite He.
  destruct (pods_data r) as [row|] eqn:Hrow; [|discriminate].
  assert (Hsent : exists j r0 row0,
             w_pods_insert w j = Returns r0 /\ pod_insert_ok (Returns r0) = true
             /\ pods_data r0 = Some row0 /\ pod_id row0 = pod_id row).
  { exists (retryCount st), r, row. cbn [pod_insert_ok]. now rewrite Hrow. }
  destruct (truthy (pod_id row)) eqn:Hid; cbn [andb].
  - destruct (pod_email_enabled w) eqn:Hflag.
    + run_action. counts. rewrite Hi.
      destruct (w_fetch_pod_email w 0) as [p|e]; run_action;
        rewrite <- !app_assoc; cbn [app];
        exists success_result; eexists; eexists; eexists;
        (split; [reflexivity|]); cbn [trace detached];
        (split; [reflexivity|]); (split; [try reflexivity; symmetry; apply app_nil_r|]);
        (split; [split; [reflexivity|subst ins; all_events]|]);
        (split; [reflexivity|]); (split; [reflexivity|]); (split; [reflexivity|]).
      * now exists [EvDateNow; ins;
                    EvConsole LLog "[v0] [POD] Triggering email via API route";
                    EvConsole LLog "[v0] [POD] Order ID:";
                    EvConsole LLog "[v0] [POD] POD ID:";
                    EvFetchPodEmail orderId (pod_id row)].
      * now exists [EvDateNow; ins;
                    EvConsole LLog "[v0] [POD] Triggering email via API route";
                    EvConsole LLog "[v0] [POD] Order ID:";
                    EvConsole LLog "[v0] [POD] POD ID:";
                    EvFetchPodEmail orderId (pod_id row);
                    EvConsole LWarn "[v0] [POD] Email setup failed (non-blocking):"].
    + run_action. rewrite <- !app_assoc; cbn [app].
      exists success_result; eexists; eexists; eexists.
      (split; [reflexivity|]); cbn [trace detached].
      (split; [reflexivity|]); (split; [symmetry; apply app_nil_r|]).
      (split; [split; [reflexivity|subst ins; all_events]|]).
      (split; [reflexivity|]); (split; [reflexivity|]); (split; [reflexivity|]).
      now exists [EvDateNow; ins].
  - run_action. rewrite <- !app_assoc; cbn [app].
    exists success_result; eexists; eexists; eexists.
    (split; [reflexivity|]); cbn [trace detached].
    (split; [reflexivity|]); (split; [symmetry; apply app_nil_r|]).
    (split; [split; [reflexivity|subst ins; all_events]|]).
    (split; [reflexivity|]); (split; [reflexivity|]); (split; [reflexivity|]).
    now exists [EvDateNow; ins].
Qed.

Lemma pod_attempt_fails (st : St) :
  retryCount st < maxRetries -> Inv (retryCount st) (trace st) ->
  pod_attempt_ok w (retryCount st) = false ->
  exists a st',
    body st = (Val None, st')
    /\ trace st' = trace st ++ a ++ backoff (S (retryCount st))
    /\ retryCount st' = S (retryCount st) /\ detached st' = detached st
    /\ lastError st' = pod_error w (retryCount st)
    /\ attempt_shape is_pods_insert P a /\ Inv (S (retryCount st)) (trace st').
Proof.
  intros _ [Hu Hi] Hok. unfold pod_attempt_ok, pod_insert_ok in Hok.
  subst body. unfold savePOD_attempt, date_now, pods_insert.
  run_action. counts. rewrite Hu.
  unfold Inv, pod_error.
  set (ins := EvPodsInsert orderId (user_id user) photoUrl signatureUrl podNotes
                (w_now w (count is_date_now (trace st)))).
  destruct (w_pods_insert w (retryCount st)) as [r|e].
  - destruct (truthy_err (pods_error r)) eqn:He; cbn [negb andb] in *.
    + failed_attempt [EvDateNow; ins] Hu Hi; subst ins;
        cbn [count filter length app is_pods_insert is_fetch_pod_email]; lia.
    + destruct (pods_data r) as [row|]; [discriminate|].
      failed_attempt [EvDateNow; ins] Hu Hi; subst ins;
        cbn [count filter length app is_pods_insert is_fetch_pod_email]; lia.
  - failed_attempt [EvDateNow; ins] Hu Hi; subst ins;
      cbn [count filter length app is_pods_insert is_fetch_pod_email]; lia.
Qed.

End SavePODLoop.

Section SavePOD.

Variable w : World.
Variables (orderId : string) (photoUrl signatureUrl notes recipientName : option string).
Variable k : nat.

Let m := savePOD w (maxRetries + k) orderId photoUrl signatureUrl notes recipientName.

Lemma savePOD_signed_in (user : User) :
  signed_in w = Some user ->
  exists l,
    trace_of m = EvCreateServerClient :: EvGetUser :: l
    /\ Forall (pod_loop_event w orderId photoUrl signatureUrl
                 (podNotes recipientName notes) user) l
    /\ match first_ok (pod_attempt_ok w) with
       | Some j =>
           result_of m = Val success_result
           /\ skeleton is_pods_insert l = failed_beats 0 j ++ [Attempt]
           /\ detached_of m = dispatched w j
           /\ count is_fetch_pod_email l = (if dispatches w j then 1 else 0)
           /\ exists l0, l = l0 ++ [EvRevalidatePath "/driver"]
       | None =>
           result_of m
           = Val (failure_result
                    ("Failed to save proof of delivery: "
                     ++ message_or (pod_error w (maxRetries - 1)) "Network error")%string)
           /\ skeleton is_pods_insert l = failed_beats 0 maxRetries
           /\ detached_of m = []
           /\ count is_fetch_pod_email l = 0
       end.
Proof.
  intros Hs. destruct (signed_in_inv w user Hs) as (u & r & Hc & Hg & He & Hu).
  subst m. unfold result_of, trace_of, detached_of, run, savePOD, createServerClient,
    auth_getUser.
  run_action. rewrite Hc, Hg. run_action. rewrite He, Hu. run_action.
  set (st1 := mkSt _ 0 EUndefined []).
  destruct (retry_loop _ _ is_pods_insert _ _ _ _
              (fun _ => eq_refl) (fun _ => I)
              (pod_attempt_succeeds w orderId photoUrl signatureUrl
                 (podNotes recipientName notes) user)
              (pod_attempt_fails w orderId photoUrl signatureUrl
                 (podNotes recipientName notes) user)
              maxRetries st1 (maxRetries + k))
    as (x & l & st' & Hw & Ht & HP & Hres).
  { reflexivity. } { lia. } { split; reflexivity. }
  rewrite Hw. cbn [retryCount st1] in Hres. unfold first_ok.
  destruct (first_ok_from (pod_attempt_ok w) 0 maxRetries) as [j|] eqn:Hfirst.
  - destruct Hres
      as (v & l0 & a & d & -> & -> & Hd & Hsk & [Ha _] & (-> & -> & Hcnt & a' & ->) & _ & HI).
    cbn [fst snd]. rewrite Ht, Hd. exists (l0 ++ a' ++ [EvRevalidatePath "/driver"]).
    split; [reflexivity|]. split; [exact HP|]. split; [reflexivity|]. split.
    { rewrite skeleton_app, Hsk, Ha, Nat.sub_0_r. reflexivity. }
    split; [reflexivity|]. split.
    { rewrite count_app, Hcnt.
      enough (count is_fetch_pod_email l0 = 0) as -> by reflexivity.
      rewrite count_app in HI. subst st1. cbn [trace] in HI.
      change (count is_fetch_pod_email [EvCreateServerClient; EvGetUser]) with 0 in HI.
      exact HI. }
    exists (l0 ++ a'). now rewrite app_assoc.
  - destruct Hres as (-> & Hsk & _ & Hd & Hle & _ & HI).
    cbn [fst snd trace lastError detached]. rewrite Ht, Hle, Hd.
    eexists. split; [rewrite <- app_assoc; reflexivity|]. split.
    + apply Forall_app. split; [exact HP|all_events].
    + split; [reflexivity|]. split.
      { rewrite skeleton_app, Hsk. cbn [skeleton is_pods_insert]. apply app_nil_r. }
      split; [reflexivity|].
      rewrite Ht, count_app in HI. subst st1. cbn [trace] in HI.
      change (count is_fetch_pod_email [EvCreateServerClient; EvGetUser]) with 0 in HI.
      cbn [Nat.add] in HI. rewrite count_app, HI. reflexivity.
Qed.

Lemma savePOD_client_raises (e : ErrVal) :
  w_createServerClient w = Raises e ->
  result_of m = Val (failure_result "An unexpected error occurred. Please try again.")
  /\ trace_of m = [EvCreateServerClient; EvConsole LError "[v0] Unexpected error in savePOD:"]
  /\ detached_of m = [].
Proof.
  intros Hc. subst m.
  unfold result_of, trace_of, detached_of, run, savePOD, createServerClient, auth_getUser.
  run_action. rewrite Hc. run_action. repeat split; reflexivity.
Qed.

Lemma savePOD_getUser_raises (u : unit) (e : ErrVal) :
  w_createServerClient w = Returns u -> w_getUser w = Raises e ->
  result_of m = Val (failure_result "An unexpected error occurred. Please try again.")
  /\ trace_of m = [EvCreateServerClient; EvGetUser;
                   EvConsole LError "[v0] Unexpected error in savePOD:"]
  /\ detached_of m = [].
Proof.
  intros Hc Hg. subst m.
  unfold result_of, trace_of, detached_of, run, savePOD, createServerClient, auth_getUser.
  run_action. rewrite Hc, Hg. run_action. repeat split; reflexivity.
Qed.

Lemma savePOD_identity_check_fails :
  identity_check_fails w = true ->
  result_of m = Val session_expired
  /\ trace_of m = [EvCreateServerClient; EvGetUser;
                   EvConsole LError "[v0] Auth error in savePOD:"]
  /\ detached_of m = [].
Proof.
  unfold identity_check_fails. intros H. subst m.
  unfold result_of, trace_of, detached_of, run, savePOD, createServerClient, auth_getUser.
  run_action.
  destruct (w_createServerClient w); [|discriminate].
  destruct (w_getUser w) as [r|]; [|discriminate].
  run_action.
  destruct (truthy_err (auth_error r)); [repeat split; reflexivity|].
  destruct (auth_user r); [discriminate|repeat split; reflexivity].
Qed.

End SavePOD.

Section UploadToBlobLoop.

Variable w : World.
Variables (filename : string) (blob : Blob) (contentType : string).

Let body := uploadToBlob_attempt w filename blob contentType.
Let Inv (c : nat) (tr : list Event) : Prop := count is_blob_put tr = c.
Let P := blob_loop_event filename blob contentType.
Let Good (j : nat) (v : JsVal) (a : list Event) (d : list (Settled Response)) : Prop :=
  d = [] /\ a = [EvBlobPut filename blob "public" contentType]
  /\ exists res, w_put w j = Returns res /\ v = upload_result (put_url res).

Lemma put_attempt_succeeds (st : St) :
  retryCount st < maxRetries -> Inv (retryCount st) (trace st) ->
  put_attempt_ok w (retryCount st) = true ->
  exists v a d st',
    body st = (Val (Some v), st') /\ trace st' = trace st ++ a
    /\ detached st' = detached st ++ d /\ attempt_shape is_blob_put P a
    /\ Good (retryCount st) v a d.
Proof.
  intros _ Hu Hok. unfold put_attempt_ok in Hok. unfold Inv in Hu.
  subst body. unfold uploadToBlob_attempt, put, Good.
  run_action. rewrite Hu.
  destruct (w_put w (retryCount st)) as [res|e]; [|discriminate].
  exists (upload_result (put_url res)); eexists; exists []; eexists.
  split; [reflexivity|]. cbn [trace detached].
  split; [reflexivity|]. split; [symmetry; apply app_nil_r|].
  split; [split; [reflexivity|all_events]|].
  split; [reflexivity|]. split; [reflexivity|]. now exists res.
Qed.

Lemma put_attempt_fails (st : St) :
  retryCount st < maxRetries -> Inv (retryCount st) (trace st) ->
  put_attempt_ok w (retryCount st) = false ->
  exists a st',
    body st = (Val None, st')
    /\ trace st' = trace st ++ a ++ backoff (S (retryCount st))
    /\ retryCount st' = S (retryCount st) /\ detached st' = detached st
    /\ lastError st' = put_error w (retryCount st)
    /\ attempt_shape is_blob_put P a /\ Inv (S (retryCount st)) (trace st').
Proof.
  intros _ Hu Hok. unfold put_attempt_ok in Hok. unfold Inv in Hu.
  subst body. unfold uploadToBlob_attempt, put, Inv, put_error.
  run_action. rewrite Hu.
  destruct (w_put w (retryCount st)) as [res|e]; [discriminate|].
  failed_attempt [EvBlobPut filename blob "public" contentType] Hu Hu; finish_counts.
Qed.

End UploadToBlobLoop.

Section UploadToBlob.

Variable w : World.
Variables (base64Data filename contentType : string).
Variable k : nat.

Let m := uploadToBlob w (maxRetries + k) base64Data filename contentType.

Lemma decode_payload_run (st : St) :
  decode_payload w base64Data contentType st =
  (match decoded_blob w base64Data contentType with
   | Some b => Val b
   | None =>
       Exn (if startsWith base64Data "data:"
            then match w_fetch_data_url w base64Data with
                 | Raises e => e
                 | Returns (Raises e) => e
                 | Returns (Returns _) => EUndefined
                 end
            else match atob (raw_base64 base64Data) with
                 | Raises e => e
                 | Returns _ => EUndefined
                 end)
   end,
   mkSt (trace st ++ decode_events base64Data) (retryCount st) (lastError st) (detached st)).
Proof.
  unfold decode_payload, decoded_blob, decode_events.
  destruct (startsWith base64Data "data:").
  - run_action. destruct (w_fetch_data_url w base64Data) as [[b|e]|e]; reflexivity.
  - run_action. rewrite app_nil_r.
    destruct (atob (raw_base64 base64Data)); destruct st; reflexivity.
Qed.

Lemma uploadToBlob_decode_fails :
  decoded_blob w base64Data contentType = None ->
  result_of m = Val (upload_failure "Failed to upload file")
  /\ trace_of m = decode_events base64Data ++ [EvConsole LError "[v0] Error uploading to blob:"].
Proof.
  intros Hd. subst m. unfold result_of, trace_of, run, uploadToBlob.
  run_action. rewrite decode_payload_run, Hd. run_action. split; reflexivity.
Qed.

Lemma uploadToBlob_decoded (blob : Blob) :
  decoded_blob w base64Data contentType = Some blob ->
  exists l,
    trace_of m = decode_events base64Data ++ l
    /\ Forall (blob_loop_event filename blob contentType) l
    /\ match first_ok (put_attempt_ok w) with
       | Some j =>
           (exists res, w_put w j = Returns res
                        /\ result_of m = Val (upload_result (put_url res)))
           /\ skeleton is_blob_put l = failed_beats 0 j ++ [Attempt]
       | None =>
           result_of m = Val (upload_failure "Failed to upload file after multiple attempts")
           /\ skeleton is_blob_put l = failed_beats 0 maxRetries
       end.
Proof.
  intros Hd. subst m. unfold result_of, trace_of, run, uploadToBlob.
  run_action. rewrite decode_payload_run, Hd. run_action.
  set (st1 := mkSt _ 0 EUndefined []).
  destruct (retry_loop _ _ is_blob_put _ _ _ _
              (fun _ => eq_refl) (fun _ => I)
              (put_attempt_succeeds w filename blob contentType)
              (put_attempt_fails w filename blob contentType)
              maxRetries st1 (maxRetries + k))
    as (x & l & st' & Hw & Ht & HP & Hres).
  { reflexivity. } { lia. }
  { subst st1. cbn [trace retryCount]. unfold decode_events.
    destruct (startsWith base64Data "data:"); reflexivity. }
  rewrite Hw. cbn [retryCount st1] in Hres. unfold first_ok.
  destruct (first_ok_from (put_attempt_ok w) 0 maxRetries) as [j|].
  - destruct Hres
      as (v & l0 & a & d & -> & -> & _ & Hsk & [Ha _] & (_ & _ & res & Hres & ->) & _).
    cbn [fst snd]. rewrite Ht. exists (l0 ++ a).
    split; [reflexivity|]. split; [exact HP|]. split.
    + now exists res.
    + rewrite skeleton_app, Hsk, Ha, Nat.sub_0_r. reflexivity.
  - destruct Hres as (-> & Hsk & _).
    cbn [fst snd trace]. rewrite Ht.
    eexists. split; [rewrite <- app_assoc; reflexivity|]. split.
    + apply Forall_app. split; [exact HP|all_events].
    + split; [reflexivity|].
      rewrite skeleton_app, Hsk. cbn [skeleton is_blob_put]. apply app_nil_r.
Qed.

End UploadToBlob.

Section UpdateDriverPosition.

Variable w : World.
Variables (lat lng : JsNumber) (accuracy : option JsNumber).

Let m := updateDriverPosition w lat lng accuracy.

Lemma updateDriverPosition_signed_in (user : User) :
  signed_in w = Some user ->
  let upsert := EvUpsertDriverPosition (user_id user) lat lng (accuracy_or_null accuracy) in
  match w_upsert_driver_position w 0 with
  | Returns e =>
      if truthy_err e
      then result_of m = Val (failure_result "Failed to update position")
           /\ trace_of m = [EvCreateServerClient; EvGetUser; upsert;
                            EvConsole LError "[v0] Error updating driver position:"]
      else result_of m = Val success_result
           /\ trace_of m = [EvCreateServerClient; EvGetUser; upsert]
  | Raises _ =>
      result_of m = Val (failure_result "An unexpected error occurred")
      /\ trace_of m = [EvCreateServerClient; EvGetUser; upsert;
                       EvConsole LError "[v0] Unexpected error in updateDriverPosition:"]
  end.
Proof.
  intros Hs. destruct (signed_in_inv w user Hs) as (u & r & Hc & Hg & He & Hu).
  subst m. unfold result_of, trace_of, run, updateDriverPosition, createServerClient,
    auth_getUser, upsert_driver_position.
  run_action. rewrite Hc, Hg. run_action. rewrite He, Hu. run_action.
  change (count is_upsert_position [EvCreateServerClient; EvGetUser]) with 0.
  destruct (w_upsert_driver_position w 0) as [e|e]; run_action.
  - destruct (truthy_err e); run_action; split; reflexivity.
  - split; reflexivity.
Qed.

Lemma updateDriverPosition_client_raises (e : ErrVal) :
  w_createServerClient w = Raises e ->
  result_of m = Val (failure_result "An unexpected error occurred")
  /\ trace_of m = [EvCreateServerClient;
                   EvConsole LError "[v0] Unexpected error in updateDriverPosition:"].
Proof.
  intros Hc. subst m.
  unfold result_of, trace_of, run, updateDriverPosition, createServerClient, auth_getUser.
  run_action. rewrite Hc. run_action. split; reflexivity.
Qed.

Lemma updateDriverPosition_getUser_raises (u : unit) (e : ErrVal) :
  w_createServerClient w = Returns u -> w_getUser w = Raises e ->
  result_of m = Val (failure_result "An unexpected error occurred")
  /\ trace_of m = [EvCreateServerClient; EvGetUser;
                   EvConsole LError "[v0] Unexpected error in updateDriverPosition:"].
Proof.
  intros Hc Hg. subst m.
  unfold result_of, trace_of, run, updateDriverPosition, createServerClient, auth_getUser.
  run_action. rewrite Hc, Hg. run_action. split; reflexivity.
Qed.

Lemma updateDriverPosition_identity_check_fails :
  identity_check_fails w = true ->
  result_of m = Val (failure_result_code "Authentication required" "AUTH_EXPIRED")
  /\ trace_of m = [EvCreateServerClient; EvGetUser].
Proof.
  unfold identity_check_fails. intros H. subst m.
  unfold result_of, trace_of, run, updateDriverPosition, createServerClient, auth_getUser.
  run_action.
  destruct (w_createServerClient w); [|discriminate].
  destruct (w_getUser w) as [r|]; [|discriminate].
  run_action.
  destruct (truthy_err (auth_error r)); [split; reflexivity|].
  destruct (auth_user r); [discriminate|split; reflexivity].
Qed.

End UpdateDriverPosition.

(** The four ways the identity check can go. *)
Lemma identity_cases (w : World) :
  (exists e, w_createServerClient w = Raises e)
  \/ (exists u e, w_createServerClient w = Returns u /\ w_getUser w = Raises e)
  \/ identity_check_fails w = true
  \/ (exists user, signed_in w = Some user).
Proof.
  unfold identity_check_fails, signed_in.
  destruct (w_createServerClient w) as [u|e]; [|left; now exists e].
  destruct (w_getUser w) as [r|e]; [|right; left; now exists u, e].
  right; right.
  destruct (truthy_err (auth_error r)); [now left|].
  destruct (auth_user r) as [user|]; [right; now exists user|now left].
Qed.

(** The callbacks of the email request never reject. *)
Lemma pod_email_chain_settles (p : Settled Response) (st : St) :
  exists v st', pod_email_chain p st = (Val v, st').
Proof.
  unfold pod_email_chain, pod_email_then.
  destruct p as [r|e]; run_action; [|eauto].
  destruct (includes _ "application/json"); run_action.
  - destruct (resp_json r) as [v|e]; run_action; [|eauto].
    destruct (get_prop v "ok") as [ok|e]; run_action; [|eauto].
    destruct (negb (truthy ok)); run_action; eauto.
  - destruct (resp_text r) as [t|e]; run_action; [|eauto].
    cbn [get_prop lookup_field String.eqb Ascii.eqb Bool.eqb]. run_action.
    cbn [truthy negb]. run_action. eauto.
Qed.

(** ** Attempts and pauses *)

Lemma pauses_followed (c : nat -> nat) (ks : list nat) (x y : list Beat) (ms : nat) :
  flat_map (fun k => [Pause (c k); Attempt]) ks = x ++ Pause ms :: y -> In Attempt y.
Proof.
  revert x. induction ks as [|k0 ks IH]; intros x H.
  - destruct x; discriminate.
  - cbn [flat_map app] in H. destruct x as [|b1 [|b2 x]].
    + injection H as _ <-. now left.
    + discriminate.
    + injection H as _ _ H. exact (IH x H).
Qed.

Lemma beats_pause_followed (n : nat) (x y : list Beat) (ms : nat) :
  beats n = x ++ Pause ms :: y -> In Attempt y.
Proof.
  destruct n as [|n]; cbn [beats]; intros H.
  - destruct x; discriminate.
  - destruct x as [|b x]; [discriminate|].
    injection H as _ H. exact (pauses_followed _ _ _ _ _ H).
Qed.

Lemma attempt_in_skeleton (p : Event -> bool) (tr : list Event) :
  In Attempt (skeleton p tr) -> 1 <= count p tr.
Proof.
  unfold count. induction tr as [|e tr IH]; [intros []|].
  cbn [skeleton filter]. destruct (p e); [cbn; lia|].
  destruct e; cbn [In]; intros H; auto; destruct H as [H|H]; auto; discriminate.
Qed.

(** The trace of a loop that stops at the first successful attempt. *)
Lemma failed_beats_beats (ok : nat -> bool) :
  match first_ok ok with
  | Some j => failed_beats 0 j ++ [Attempt]
  | None => failed_beats 0 maxRetries
  end = beats (attempts_made ok)
  /\ 1 <= attempts_made ok <= maxRetries.
Proof.
  unfold attempts_made. destruct (first_ok ok) as [j|] eqn:Hf.
  - apply first_ok_from_bounds in Hf. destruct Hf as [Hj _].
    destruct j as [|[|[|j]]]; [split; [reflexivity|unfold maxRetries; lia] ..|].
    unfold maxRetries in Hj. lia.
  - split; [reflexivity|unfold maxRetries; lia].
Qed.

Lemma policy_from_skeleton (primary : Event -> bool) (ok : nat -> bool) (tr : list Event) :
  (forall ms, primary (EvSleep ms) = false) ->
  skeleton primary tr = beats (attempts_made ok) ->
  1 <= attempts_made ok <= maxRetries ->
  count primary tr = attempts_made ok
  /\ sleeps tr = map (fun k => 1000 * k) (seq 1 (attempts_made ok - 1))
  /\ length (sleeps tr) <= 2
  /\ (forall pre ms post, tr = pre ++ EvSleep ms :: post -> 1 <= count primary post).
Proof.
  intros Hp Hsk Hn.
  assert (Hc : count primary tr = attempts_made ok
               /\ sleeps tr = map (fun k => 1000 * k) (seq 1 (attempts_made ok - 1))).
  { rewrite <- (skeleton_attempts primary tr), <- (skeleton_pauses primary tr Hp), Hsk.
    unfold maxRetries in Hn.
    destruct (attempts_made ok) as [|[|[|[|n]]]]; try lia; split; reflexivity. }
  destruct Hc as [Hc Hs]. repeat split; auto.
  - rewrite Hs, length_map, length_seq. unfold maxRetries in Hn. lia.
  - intros pre ms post ->. rewrite skeleton_app in Hsk. cbn [skeleton] in Hsk.
    rewrite Hp in Hsk. symmetry in Hsk. apply beats_pause_followed in Hsk.
    now apply attempt_in_skeleton.
Qed.

(** A decoded payload is put at least once. *)
Lemma uploadToBlob_puts_decoded (w : World) (k : nat)
    (base64Data filename contentType : string) (blob : Blob) :
  decoded_blob w base64Data contentType = Some blob ->
  In (EvBlobPut filename blob "public" contentType)
    (trace_of (uploadToBlob w (maxRetries + k) base64Data filename contentType)).
Proof.
  intros Hd.
  destruct (uploadToBlob_decoded w base64Data filename contentType k blob Hd)
    as (l & -> & HP & Hres).
  apply in_or_app. right.
  assert (Hatt : 1 <= count is_blob_put l).
  { apply attempt_in_skeleton. destruct (first_ok (put_attempt_ok w)) as [j|].
    - destruct Hres as (_ & ->). apply in_or_app. right. now left.
    - destruct Hres as (_ & ->). now left. }
  clear Hres. unfold count in Hatt.
  induction HP as [|e l He _ IH]; [cbn in Hatt; lia|].
  destruct e; cbn [filter is_blob_put] in Hatt; cbn [blob_loop_event] in He;
    try contradiction.
  - left. destruct He as (-> & -> & -> & ->). reflexivity.
  - right. now apply IH.
  - right. now apply IH.
Qed.

(** ** The loops, by attempts that reach the [return] *)

Lemma updateStopStatus_policy (w : World) (k : nat) (orderId : string)
    (status : StopStatus) (notes : option string) (user : User) :
  signed_in w = Some user ->
  retry_policy_holds is_orders_update (status_attempt_ok w)
    (updateStopStatus w (maxRetries + k) orderId status notes).
Proof.
  intros Hs.
  destruct (updateStopStatus_signed_in w orderId status notes k user Hs)
    as (l & Ht & _ & Hres).
  destruct (failed_beats_beats (status_attempt_ok w)) as [Hb Hn].
  assert (Hsk : skeleton is_orders_update
                  (trace_of (updateStopStatus w (maxRetries + k) orderId status notes))
                = beats (attempts_made (status_attempt_ok w))).
  { rewrite Ht. cbn [skeleton is_orders_update]. rewrite <- Hb.
    destruct (first_ok (status_attempt_ok w)); [apply Hres|apply Hres]. }
  destruct (policy_from_skeleton is_orders_update _ _ (fun _ => eq_refl) Hsk Hn)
    as (H1 & H2 & H3 & H4).
  unfold retry_policy_holds. cbv zeta.
  split; [exact Hn|]. split; [exact H1|]. split; [exact Hsk|]. split; [exact H2|].
  split; [exact H3|]. split; [exact H4|]. unfold attempts_made. split.
  + intros j Hj. rewrite Hj in *. destruct Hres as (Hr & _ & _ & l0 & ->).
    split; [reflexivity|]. split; [exact Hr|].
    exists (EvCreateServerClient :: EvGetUser :: l0). now rewrite Ht.
  + intros Hnone. rewrite Hnone in *. split; [reflexivity|]. eexists. apply Hres.
Qed.

Lemma savePOD_policy (w : World) (k : nat) (orderId : string)
    (photoUrl signatureUrl notes recipientName : option string) (user : User) :
  signed_in w = Some user ->
  retry_policy_holds is_pods_insert (pod_attempt_ok w)
    (savePOD w (maxRetries + k) orderId photoUrl signatureUrl notes recipientName).
Proof.
  intros Hs.
  destruct (savePOD_signed_in w orderId photoUrl signatureUrl notes recipientName k user Hs)
    as (l & Ht & _ & Hres).
  destruct (failed_beats_beats (pod_attempt_ok w)) as [Hb Hn].
  assert (Hsk : skeleton is_pods_insert
                  (trace_of (savePOD w (maxRetries + k) orderId photoUrl signatureUrl notes
                               recipientName))
                = beats (attempts_made (pod_attempt_ok w))).
  { rewrite Ht. cbn [skeleton is_pods_insert]. rewrite <- Hb.
    destruct (first_ok (pod_attempt_ok w)); [apply Hres|apply Hres]. }
  destruct (policy_from_skeleton is_pods_insert _ _ (fun _ => eq_refl) Hsk Hn)
    as (H1 & H2 & H3 & H4).
  unfold retry_policy_holds. cbv zeta.
  split; [exact Hn|]. split; [exact H1|]. split; [exact Hsk|]. split; [exact H2|].
  split; [exact H3|]. split; [exact H4|]. unfold attempts_made. split.
  + intros j Hj. rewrite Hj in *. destruct Hres as (Hr & _ & _ & _ & l0 & ->).
    split; [reflexivity|]. split; [exact Hr|].
    exists (EvCreateServerClient :: EvGetUser :: l0). now rewrite Ht.
  + intros Hnone. rewrite Hnone in *. split; [reflexivity|]. eexists. apply Hres.
Qed.

(** How the attempts that reach line 61 relate to the updates that report no
    error: the audit insert after the first such update is the first insert
    the action makes. *)
Lemma attempts_after_update (w : World) (j : nat) :
  first_ok (fun i => update_ok (w_orders_update w i)) = Some j ->
  S j <= attempts_made (status_attempt_ok w)
  /\ (returned (w_stop_events_insert w 0) = true -> first_ok (status_attempt_ok w) = Some j)
  /\ (returned (w_stop_events_insert w 0) = false -> S j < maxRetries ->
      S j < attempts_made (status_attempt_ok w)).
Proof.
  unfold attempts_made, first_ok, status_attempt_ok, maxRetries.
  cbn [first_ok_from audit_index Nat.add].
  destruct (update_ok (w_orders_update w 0)); cbn [andb Nat.add].
  - intros [= <-]. destruct (returned (w_stop_events_insert w 0)).
    + repeat split; try lia; discriminate.
    + split; [|split; [discriminate|intros _ _]];
        destruct (update_ok (w_orders_update w 1)); cbn [andb Nat.add];
        repeat match goal with
               | |- context [if returned ?x then _ else _] => destruct (returned x)
               | |- context [if ?b && _ then _ else _] => destruct b; cbn [andb Nat.add]
               end; lia.
  - destruct (update_ok (w_orders_update w 1)); cbn [andb Nat.add].
    + intros [= <-]. destruct (returned (w_stop_events_insert w 0)).
      * repeat split; try lia; discriminate.
      * split; [|split; [discriminate|intros _ _]];
          destruct (update_ok (w_orders_update w 2)); cbn [andb Nat.add];
          repeat match goal with
                 | |- context [if returned ?x then _ else _] => destruct (returned x)
                 end; lia.
    + destruct (update_ok (w_orders_update w 2)); cbn [andb Nat.add]; [|discriminate].
      intros [= <-]. destruct (returned (w_stop_events_insert w 0)).
      * repeat split; try lia; discriminate.
      * split; [lia|]. split; [discriminate|lia].
Qed.

Lemma no_attempt_ok_without_update (w : World) :
  first_ok (fun i => update_ok (w_orders_update w i)) = None ->
  first_ok (status_attempt_ok w) = None.
Proof.
  unfold first_ok, status_attempt_ok, maxRetries. cbn [first_ok_from].
  destruct (update_ok (w_orders_update w 0)); [discriminate|].
  destruct (update_ok (w_orders_update w 1)); [discriminate|].
  destruct (update_ok (w_orders_update w 2)); [discriminate|]. reflexivity.
Qed.

Lemma no_attempt_ok_without_insert (w : World) :
  (forall i, returned (w_stop_events_insert w i) = false) ->
  first_ok (status_attempt_ok w) = None.
Proof.
  intros H. unfold first_ok, status_attempt_ok, maxRetries. cbn [first_ok_from].
  now rewrite !H, !andb_false_r.
Qed.

(** ** Runs that differ in how the email promise settles *)

Lemma same_visible_refl (st : St) : same_visible st st.
Proof. repeat split. Qed.

Lemma while_same_run {R} (body body' : M (option R)) :
  (forall st st', same_visible st st' -> same_run (body st) (body' st')) ->
  forall fuel st st', same_visible st st' ->
    same_run (while fuel retry_cond body st) (while fuel retry_cond body' st').
Proof.
  intros Hb. induction fuel as [|fuel IH]; intros st st' Hv.
  - cbn [while]. unfold retry_cond. destruct Hv as (Ht & Hr & He). rewrite Hr.
    destruct (Nat.ltb (retryCount st') maxRetries); split; try reflexivity;
      repeat split; assumption.
  - cbn [while]. unfold retry_cond. pose proof Hv as (Ht & Hr & He). rewrite Hr.
    destruct (Nat.ltb (retryCount st') maxRetries).
    + destruct (Hb st st' Hv) as [Hf Hs].
      destruct (body st) as [[[v|]|e|] s1]; destruct (body' st') as [[[v'|]|e'|] s1'];
        cbn [fst snd] in Hf, Hs; try discriminate Hf.
      * split; assumption.
      * now apply IH.
      * split; assumption.
      * split; assumption.
    + split; [reflexivity|assumption].
Qed.

Section SavePODSettling.

Variables (w w' : World).
Variables (orderId : string) (photoUrl signatureUrl podNotes : option string) (user : User).

Hypothesis Hnow : w_now w' = w_now w.
Hypothesis Hpods : w_pods_insert w' = w_pods_insert w.
Hypothesis Hflag : w_ENABLE_POD_EMAIL w' = w_ENABLE_POD_EMAIL w.
Hypothesis Hfetch : differ_in_settling (w_fetch_pod_email w) (w_fetch_pod_email w').

Lemma savePOD_attempt_same_run (st st' : St) :
  same_visible st st' ->
  same_run (savePOD_attempt w orderId photoUrl signatureUrl podNotes user st)
           (savePOD_attempt w' orderId photoUrl signatureUrl podNotes user st').
Proof.
  destruct st as [tr c le d], st' as [tr' c' le' d'].
  intros (Ht & Hc & Hl). cbn [trace retryCount lastError] in Ht, Hc, Hl. subst tr' c' le'.
  unfold savePOD_attempt, date_now, pods_insert, trigger_pod_email, fetch_pod_email,
    pod_email_enabled.
  run_action. rewrite Hnow, Hpods, Hflag.
  destruct (w_pods_insert w (count is_pods_insert (tr ++ [EvDateNow]))) as [r|e].
  - run_action. destruct (truthy_err (pods_error r)).
    + rewrite !record_failure_run. cbn [fst snd trace retryCount lastError detached].
      repeat split.
    + destruct (pods_data r) as [row|].
      * destruct (truthy (pod_id row) && match w_ENABLE_POD_EMAIL w with
                                         | Some flag => String.eqb flag "true"
                                         | None => false
                                         end).
        -- run_action.
           set (n := count is_fetch_pod_email _).
           pose proof (Hfetch n) as Hn.
           destruct (w_fetch_pod_email w n) as [p|e], (w_fetch_pod_email w' n) as [p'|e'];
             try discriminate Hn; run_action; repeat split.
        -- run_action. repeat split.
      * rewrite !record_failure_run. cbn [fst snd trace retryCount lastError detached].
        repeat split.
  - run_action. rewrite !record_failure_run.
    cbn [fst snd trace retryCount lastError detached]. repeat split.
Qed.

End SavePODSettling.

Lemma savePOD_same_run (w w' : World) (k : nat) (orderId : string)
    (photoUrl signatureUrl notes recipientName : option string) :
  w_createServerClient w' = w_createServerClient w ->
  w_getUser w' = w_getUser w ->
  w_now w' = w_now w ->
  w_pods_insert w' = w_pods_insert w ->
  w_ENABLE_POD_EMAIL w' = w_ENABLE_POD_EMAIL w ->
  differ_in_settling (w_fetch_pod_email w) (w_fetch_pod_email w') ->
  result_of (savePOD w' (maxRetries + k) orderId photoUrl signatureUrl notes recipientName)
  = result_of (savePOD w (maxRetries + k) orderId photoUrl signatureUrl notes recipientName)
  /\ trace_of (savePOD w' (maxRetries + k) orderId photoUrl signatureUrl notes recipientName)
     = trace_of (savePOD w (maxRetries + k) orderId photoUrl signatureUrl notes
                   recipientName).
Proof.
  intros Hc Hg Hnow Hpods Hflag Hfetch.
  unfold result_of, trace_of, run, savePOD, createServerClient, auth_getUser.
  run_action. rewrite Hc, Hg.
  destruct (w_createServerClient w) as [u|e]; run_action; [|split; reflexivity].
  destruct (w_getUser w) as [r|e]; run_action; [|split; reflexivity].
  destruct (truthy_err (auth_error r)); [split; reflexivity|].
  destruct (auth_user r) as [user|]; [|split; reflexivity].
  run_action.
  set (st1 := mkSt _ 0 EUndefined []).
  destruct (while_same_run _ _
              (savePOD_attempt_same_run w w' orderId photoUrl signatureUrl
                 (podNotes recipientName notes) user Hnow Hpods Hflag Hfetch)
              (maxRetries + k) st1 st1 (same_visible_refl st1)) as [Hf (Ht & _ & Hl)].
  destruct (while (maxRetries + k) retry_cond
              (savePOD_attempt w orderId photoUrl signatureUrl (podNotes recipientName notes)
                 user) st1) as [[[v|]|e|] s1];
    destruct (while (maxRetries + k) retry_cond
                (savePOD_attempt w' orderId photoUrl signatureUrl
                   (podNotes recipientName notes) user) st1) as [[[v'|]|e'|] s1'];
    cbn [fst snd] in Hf, Ht, Hl; try discriminate Hf; run_action.
  - injection Hf as ->. now rewrite Ht.
  - now rewrite Ht, Hl.
  - now rewrite Ht.
  - now rewrite Ht.
Qed.

(** ** The identity check *)

Lemma count_zero_no_event (p : Event -> bool) (tr pre post : list Event) (e : Event) :
  count p tr = 0 -> tr = pre ++ e :: post -> p e = true -> False.
Proof.
  intros H -> He. rewrite count_app in H. unfold count in H. simpl in H.
  rewrite He in H. simpl in H. lia.
Qed.

Lemma Forall_count_zero (p : Event -> bool) (P : Event -> Prop) (l : list Event) :
  (forall e, P e -> p e = false) -> Forall P l -> count p l = 0.
Proof.
  intros HP H. unfold count. induction H as [|e l He _ IH]; [reflexivity|].
  simpl. now rewrite (HP e He).
Qed.

(** A trace that starts with the client and the identity check, and asks for
    the identity nowhere else. *)
Lemma guarded_trace (tr l : list Event) :
  tr = EvCreateServerClient :: EvGetUser :: l -> count is_getUser l = 0 ->
  count is_getUser tr = 1
  /\ forall pre e post, tr = pre ++ e :: post -> is_write e = true -> count is_getUser pre = 1.
Proof.
  intros -> Hl. split.
  - change (count is_getUser (EvCreateServerClient :: EvGetUser :: l))
      with (S (count is_getUser l)). now rewrite Hl.
  - intros pre e post Heq He.
    destruct pre as [|e1 pre]; [injection Heq as <- _; discriminate|].
    injection Heq as <- Heq.
    destruct pre as [|e2 pre]; [injection Heq as <- _; discriminate|].
    injection Heq as <- Heq. subst l. rewrite count_app in Hl.
    change (count is_getUser (EvCreateServerClient :: EvGetUser :: pre))
      with (S (count is_getUser pre)). lia.
Qed.

Lemma status_loop_no_getUser o s n u (e : Event) :
  status_loop_event o s n u e -> is_getUser e = false.
Proof. destruct e; cbn; tauto. Qed.

Lemma pod_loop_no_getUser w o p s n u (e : Event) :
  pod_loop_event w o p s n u e -> is_getUser e = false.
Proof. destruct e; cbn; tauto. Qed.

Lemma blob_loop_no_getUser f b ct (e : Event) :
  blob_loop_event f b ct e -> is_getUser e = false.
Proof. destruct e; cbn; tauto. Qed.

Lemma signed_in_check_passes (w : World) (user : User) :
  signed_in w = Some user -> identity_check_fails w = false.
Proof.
  intros H. destruct (signed_in_inv w user H) as (u & r & Hc & Hg & He & Hu).
  unfold identity_check_fails. now rewrite Hc, Hg, He, Hu.
Qed.

(** The shape shared by the three actions that ask for the identity. *)
Lemma guarded_from_cases (w : World) (m : M JsVal) (v_expired : JsVal)
    (after_client after_getUser after_expired : list Event) :
  code_of v_expired = Some "AUTH_EXPIRED" ->
  count is_write after_client = 0 -> count is_getUser after_client = 0 ->
  count is_write after_getUser = 0 -> count is_getUser after_getUser = 0 ->
  count is_write after_expired = 0 -> count is_getUser after_expired = 0 ->
  (forall e, w_createServerClient w = Raises e ->
     trace_of m = EvCreateServerClient :: after_client) ->
  (forall u e, w_createServerClient w = Returns u -> w_getUser w = Raises e ->
     trace_of m = EvCreateServerClient :: EvGetUser :: after_getUser) ->
  (identity_check_fails w = true ->
     result_of m = Val v_expired
     /\ trace_of m = EvCreateServerClient :: EvGetUser :: after_expired) ->
  (forall user, signed_in w = Some user ->
     exists l, trace_of m = EvCreateServerClient :: EvGetUser :: l /\ count is_getUser l = 0) ->
  guarded_by_identity_check w m.
Proof.
  intros Hcode Hw1 Hg1 Hw2 Hg2 Hw3 Hg3 Hclient HgetUser Hexpired Hsigned.
  destruct (identity_cases w) as [(e & Hc)|[(u & e & Hc & Hg)|[Hf|(user & Hs)]]].
  - specialize (Hclient e Hc). unfold guarded_by_identity_check, identity_check_fails.
    rewrite Hclient, Hc.
    change (count is_getUser (EvCreateServerClient :: after_client))
      with (count is_getUser after_client). rewrite Hg1.
    split; [lia|]. split; [|discriminate].
    intros pre ev post Heq Hev. exfalso.
    eapply (count_zero_no_event is_write); [|exact Heq|exact Hev].
    exact Hw1.
  - specialize (HgetUser u e Hc Hg).
    destruct (guarded_trace _ _ HgetUser Hg2) as [H1 H2].
    unfold guarded_by_identity_check, identity_check_fails. rewrite Hc, Hg.
    split; [lia|]. split; [exact H2|discriminate].
  - destruct (Hexpired Hf) as [Hr Ht].
    destruct (guarded_trace _ _ Ht Hg3) as [H1 H2].
    unfold guarded_by_identity_check.
    split; [lia|]. split; [exact H2|]. intros _.
    split; [exact H1|]. split; [rewrite Ht; exact Hw3|]. now exists v_expired.
  - destruct (Hsigned user Hs) as (l & Ht & Hl).
    destruct (guarded_trace _ _ Ht Hl) as [H1 H2].
    unfold guarded_by_identity_check.
    split; [lia|]. split; [exact H2|].
    rewrite (signed_in_check_passes w user Hs). discriminate.
Qed.

(** A raised identity lookup ends the action in its outermost [catch]. *)
Lemma raised_lookup_fails_without_code (m : M JsVal) (msg : string) (tr : list Event) :
  result_of m = Val (failure_result msg) -> trace_of m = tr -> count is_write tr = 0 ->
  fails_without_code m.
Proof. intros Hr Ht Hw. split; [now rewrite Ht|now exists msg]. Qed.

(** C1, as the code has it.  [updateStopStatus], [savePOD] and
    [updateDriverPosition] ask the identity provider at most once, exactly
    once before any write, and when the provider reports an error or no user
    they return a failure with code AUTH_EXPIRED and write nothing.  When the
    client or the identity lookup raises they write nothing either, and
    return a failure that carries no code.  [uploadToBlob] is not guarded: it
    asks for no identity at all, and whatever the identity provider would
    report, a payload that decodes is put. *)
Theorem identity_check_guards_store_actions (w : World) (k : nat)
    (orderId : string) (status : StopStatus)
    (notes photoUrl signatureUrl recipientName : option string)
    (lat lng : JsNumber) (accuracy : option JsNumber)
    (base64Data filename contentType : string) :
  guarded_by_identity_check w (updateStopStatus w (maxRetries + k) orderId status notes)
  /\ guarded_by_identity_check w
       (savePOD w (maxRetries + k) orderId photoUrl signatureUrl notes recipientName)
  /\ guarded_by_identity_check w (updateDriverPosition w lat lng accuracy)
  /\ count is_getUser
       (trace_of (uploadToBlob w (maxRetries + k) base64Data filename contentType)) = 0
  /\ (forall blob,
        decoded_blob w base64Data contentType = Some blob ->
        In (EvBlobPut filename blob "public" contentType)
          (trace_of (uploadToBlob w (maxRetries + k) base64Data filename contentType)))
  /\ (identity_lookup_raises w = true ->
        fails_without_code (updateStopStatus w (maxRetries + k) orderId status notes)
        /\ fails_without_code
             (savePOD w (maxRetries + k) orderId photoUrl signatureUrl notes recipientName)
        /\ fails_without_code (updateDriverPosition w lat lng accuracy)).
Proof.
  split; [|split; [|split; [|split; [|split]]]].
  - apply (guarded_from_cases w _ session_expired
             [EvConsole LError "[v0] Unexpected error in updateStopStatus:"]
             [EvConsole LError "[v0] Unexpected error in updateStopStatus:"]
             [EvConsole LError "[v0] Auth error in updateStopStatus:"]);
      try reflexivity.
    + intros e Hc. now apply updateStopStatus_client_raises with (e := e).
    + intros u e Hc Hg. now apply updateStopStatus_getUser_raises with (u := u) (e := e).
    + apply updateStopStatus_identity_check_fails.
    + intros user Hs.
      destruct (updateStopStatus_signed_in w orderId status notes k user Hs)
        as (l & Ht & HP & _).
      exists l. split; [exact Ht|].
      eapply Forall_count_zero; [|exact HP]. apply status_loop_no_getUser.
  - apply (guarded_from_cases w _ session_expired
             [EvConsole LError "[v0] Unexpected error in savePOD:"]
             [EvConsole LError "[v0] Unexpected error in savePOD:"]
             [EvConsole LError "[v0] Auth error in savePOD:"]);
      try reflexivity.
    + intros e Hc. now apply savePOD_client_raises with (e := e).
    + intros u e Hc Hg. now apply savePOD_getUser_raises with (u := u) (e := e).
    + intros Hf. destruct (savePOD_identity_check_fails w orderId photoUrl signatureUrl
                             notes recipientName k Hf) as (Hr & Ht & _). now split.
    + intros user Hs.
      destruct (savePOD_signed_in w orderId photoUrl signatureUrl notes recipientName k
                  user Hs) as (l & Ht & HP & _).
      exists l. split; [exact Ht|].
      eapply Forall_count_zero; [|exact HP]. apply pod_loop_no_getUser.
  - apply (guarded_from_cases w _
             (failure_result_code "Authentication required" "AUTH_EXPIRED")
             [EvConsole LError "[v0] Unexpected error in updateDriverPosition:"]
             [EvConsole LError "[v0] Unexpected error in updateDriverPosition:"]
             []);
      try reflexivity.
    + intros e Hc. now apply updateDriverPosition_client_raises with (e := e).
    + intros u e Hc Hg. now apply updateDriverPosition_getUser_raises with (u := u) (e := e).
    + apply updateDriverPosition_identity_check_fails.
    + intros user Hs.
      pose proof (updateDriverPosition_signed_in w lat lng accuracy user Hs) as H.
      cbv zeta in H.
      destruct (w_upsert_driver_position w 0) as [e|e];
        [destruct (truthy_err e)|]; destruct H as [_ ->]; eexists; split; reflexivity.
  - destruct (decoded_blob w base64Data contentType) as [blob|] eqn:Hd.
    + destruct (uploadToBlob_decoded w base64Data filename contentType k blob Hd)
        as (l & -> & HP & _).
      rewrite count_app, (Forall_count_zero is_getUser _ l (blob_loop_no_getUser _ _ _) HP).
      unfold decode_events. now destruct (startsWith base64Data "data:").
    + destruct (uploadToBlob_decode_fails w base64Data filename contentType k Hd) as [_ ->].
      unfold decode_events. now destruct (startsWith base64Data "data:").
  - intros blob Hd. now apply uploadToBlob_puts_decoded.
  - unfold identity_lookup_raises. intros Hraise.
    destruct (w_createServerClient w) as [u|e] eqn:Hc.
    + destruct (w_getUser w) as [r|e] eqn:Hg; [discriminate|].
      destruct (updateStopStatus_getUser_raises w orderId status notes k u e Hc Hg)
        as (Hr1 & Ht1).
      destruct (savePOD_getUser_raises w orderId photoUrl signatureUrl notes recipientName k
                  u e Hc Hg) as (Hr2 & Ht2 & _).
      destruct (updateDriverPosition_getUser_raises w lat lng accuracy u e Hc Hg)
        as (Hr3 & Ht3).
      split; [|split]; eapply raised_lookup_fails_without_code; eauto.
    + destruct (updateStopStatus_client_raises w orderId status notes k e Hc) as (Hr1 & Ht1).
      destruct (savePOD_client_raises w orderId photoUrl signatureUrl notes recipientName k
                  e Hc) as (Hr2 & Ht2 & _).
      destruct (updateDriverPosition_client_raises w lat lng accuracy e Hc) as (Hr3 & Ht3).
      split; [|split]; eapply raised_lookup_fails_without_code; eauto.
Qed.

(** C1 at an input where the code departs from it: with the identity
    provider reporting no user, [uploadToBlob] puts the blob all the same,
    asks for no identity, and returns the URL instead of AUTH_EXPIRED. *)
Lemma uploadToBlob_not_guarded :
  identity_check_fails w_signed_out = true
  /\ trace_of (uploadToBlob w_signed_out maxRetries "aGk=" "f.png" "image/png")
     = [EvBlobPut "f.png" (mkBlob [104; 105]%N "image/png") "public" "image/png"]
  /\ result_of (uploadToBlob w_signed_out maxRetries "aGk=" "f.png" "image/png")
     = Val (upload_result "https://blob.example/f.png")
  /\ ~ guarded_by_identity_check w_signed_out
         (uploadToBlob w_signed_out maxRetries "aGk=" "f.png" "image/png").
Proof.
  split; [reflexivity|]. split; [reflexivity|]. split; [reflexivity|].
  intros (_ & H & _).
  specialize (H [] (EvBlobPut "f.png" (mkBlob [104; 105]%N "image/png") "public" "image/png")
                [] eq_refl eq_refl).
  discriminate H.
Qed.

(** The identity lookup raises: nothing is written, and the failure carries
    no code. *)
Lemma raised_identity_lookup_has_no_code :
  let m := updateStopStatus w_identity_down maxRetries "order-1" Delivered None in
  identity_lookup_raises w_identity_down = true
  /\ result_of m = Val (failure_result "An unexpected error occurred. Please try again.")
  /\ code_of (failure_result "An unexpected error occurred. Please try again.") = None
  /\ count is_write (trace_of m) = 0.
Proof. cbv zeta. repeat split; reflexivity. Qed.

(** The identity provider reports no user. *)
Lemma identity_check_guards_witness :
  identity_check_fails w_signed_out = true
  /\ count is_getUser
       (trace_of (updateStopStatus w_signed_out (maxRetries + 0) "order-1" Delivered None)) = 1
  /\ count is_write
       (trace_of (updateStopStatus w_signed_out (maxRetries + 0) "order-1" Delivered None)) = 0
  /\ exists v,
       result_of (updateStopStatus w_signed_out (maxRetries + 0) "order-1" Delivered None)
       = Val v
       /\ code_of v = Some "AUTH_EXPIRED".
Proof.
  split; [reflexivity|].
  exact (proj2 (proj2 (proj1 (identity_check_guards_store_actions w_signed_out 0 "order-1"
                                Delivered None None None None example_lat example_lng None
                                "" "" ""))) eq_refl).
Defined.

(** ** The retry policy *)

(** C2.  When the identity check lets the action through, the retry loop of
    [updateStopStatus] makes the orders update at most [maxRetries = 3] times
    and sleeps at most twice; the k-th sleep lasts 1000 * k ms; updates and
    sleeps alternate and an update comes last, so no sleep follows the final
    failed attempt; every attempt up to the first update that reports no
    error is made.  When the audit insert after that update returns, the
    loop ends there with [{ success: true }] and nothing after it.  When that
    insert raises, the loop does not end: it goes on to a further update, and
    when the insert raises every time the action makes all three updates and
    fails.  The loop of [savePOD] keeps the whole policy, with the [pods]
    insert as the wrapped call: it ends at the first insert that reports no
    error and gives a row. *)
Theorem retry_loop_policy (w : World) (k : nat) (orderId : string) (status : StopStatus)
    (notes photoUrl signatureUrl recipientName : option string) (user : User) :
  signed_in w = Some user ->
  let m := updateStopStatus w (maxRetries + k) orderId status notes in
  let tr := trace_of m in
  let n := count is_orders_update tr in
  let updated := first_ok (fun j => update_ok (w_orders_update w j)) in
  (1 <= n <= maxRetries
   /\ skeleton is_orders_update tr = beats n
   /\ sleeps tr = map (fun i => 1000 * i) (seq 1 (n - 1))
   /\ length (sleeps tr) <= 2
   /\ (forall pre ms post, tr = pre ++ EvSleep ms :: post -> 1 <= count is_orders_update post)
   /\ (forall j, updated = Some j -> S j <= n)
   /\ (forall j, updated = Some j -> returned (w_stop_events_insert w 0) = true ->
         n = S j /\ result_of m = Val success_result
         /\ exists pre, tr = pre ++ [EvRevalidatePath "/driver"])
   /\ (forall j, updated = Some j -> returned (w_stop_events_insert w 0) = false ->
         S j < maxRetries -> S j < n)
   /\ ((forall i, returned (w_stop_events_insert w i) = false) ->
         n = maxRetries /\ exists msg, result_of m = Val (failure_result msg))
   /\ (updated = None -> n = maxRetries /\ exists msg, result_of m = Val (failure_result msg)))
  /\ retry_policy_holds is_pods_insert (pod_attempt_ok w)
       (savePOD w (maxRetries + k) orderId photoUrl signatureUrl notes recipientName).
Proof.
  intros Hs. cbv zeta. split; [|now apply savePOD_policy with (user := user)].
  destruct (updateStopStatus_policy w k orderId status notes user Hs)
    as (Hn & Hc & Hsk & Hsl & Hlen & Hlast & Hsome & Hnone).
  rewrite Hc.
  split; [exact Hn|]. split; [exact Hsk|]. split; [exact Hsl|]. split; [exact Hlen|].
  split; [exact Hlast|]. split; [|split; [|split; [|split]]].
  - intros j Hj. now destruct (attempts_after_update w j Hj).
  - intros j Hj Hret. destruct (attempts_after_update w j Hj) as (_ & H & _).
    exact (Hsome j (H Hret)).
  - intros j Hj Hret Hlt. destruct (attempts_after_update w j Hj) as (_ & _ & H).
    exact (H Hret Hlt).
  - intros Hall. exact (Hnone (no_attempt_ok_without_insert w Hall)).
  - intros Hno. exact (Hnone (no_attempt_ok_without_update w Hno)).
Qed.

(** The audit insert raises and the orders update works: the first update
    reports no error, and the loop goes on to a second one. *)
Lemma retry_loop_policy_witness :
  signed_in w_audit_raises = Some driver
  /\ first_ok (fun j => update_ok (w_orders_update w_audit_raises j)) = Some 0
  /\ 1 < count is_orders_update
           (trace_of (updateStopStatus w_audit_raises (maxRetries + 0) "order-1" Delivered
                        (Some "left at door"))).
Proof.
  split; [reflexivity|]. split; [reflexivity|].
  pose proof (retry_loop_policy w_audit_raises 0 "order-1" Delivered (Some "left at door")
                None None None driver eq_refl) as H.
  cbv zeta in H. destruct H as [(_ & _ & _ & _ & _ & _ & _ & H & _) _].
  apply (H 0); [reflexivity|reflexivity|unfold maxRetries; lia].
Defined.

(** C2 at an input where the code departs from it.  The first orders update
    reports no error, so the first attempt succeeds, and yet the loop does
    not return: the audit insert raises, and the action makes three updates
    with sleeps of 1000 and 2000 ms and reports a failure. *)
Lemma successful_update_is_retried :
  let m := updateStopStatus w_audit_raises maxRetries "order-1" Delivered
             (Some "left at door") in
  signed_in w_audit_raises = Some driver
  /\ first_ok (fun j => update_ok (w_orders_update w_audit_raises j)) = Some 0
  /\ skeleton is_orders_update (trace_of m)
     = [Attempt; Pause 1000; Attempt; Pause 2000; Attempt]
  /\ result_of m = Val (failure_result "Failed to update order status: audit down").
Proof. cbv zeta. repeat split; reflexivity. Qed.

(** ** The audit insert *)

(** C3, at an input where the code departs from it.  The orders update
    succeeds on every attempt and the audit insert raises: the raise lands in
    the [catch] of the retry loop, the update is made three times with three
    audit inserts and both sleeps, and the action reports a failure. *)
Theorem audit_insert_raise_fails_update :
  let m := updateStopStatus w_audit_raises maxRetries "order-1" Delivered
             (Some "left at door") in
  (forall j, update_ok (w_orders_update w_audit_raises j) = true)
  /\ result_of m = Val (failure_result "Failed to update order status: audit down")
  /\ count is_orders_update (trace_of m) = 3
  /\ count is_stop_events_insert (trace_of m) = 3
  /\ sleeps (trace_of m) = [1000; 2000].
Proof. cbv zeta. repeat split; reflexivity. Qed.

(** What holds of C3: when no audit insert raises, so that its failure comes
    back in the [error] field, the first update that reports no error ends
    the action with [{ success: true }] after exactly one audit insert. *)
Lemma audit_error_is_tolerated (w : World) (k : nat) (orderId : string)
    (status : StopStatus) (notes : option string) (user : User) (j : nat) :
  signed_in w = Some user ->
  (forall i, returned (w_stop_events_insert w i) = true) ->
  first_ok (fun i => update_ok (w_orders_update w i)) = Some j ->
  result_of (updateStopStatus w (maxRetries + k) orderId status notes) = Val success_result
  /\ count is_stop_events_insert
       (trace_of (updateStopStatus w (maxRetries + k) orderId status notes)) = 1.
Proof.
  intros Hs Hret Hj.
  assert (Hok : forall i, status_attempt_ok w i = update_ok (w_orders_update w i)).
  { intros i. unfold status_attempt_ok. rewrite Hret. apply andb_true_r. }
  assert (Hj' : first_ok (status_attempt_ok w) = Some j).
  { unfold first_ok in *. now rewrite (first_ok_from_ext _ _ _ _ Hok). }
  assert (Hidx : forall i, i <= j -> audit_index w i = 0).
  { induction i as [|i IH]; intros Hi; [reflexivity|].
    cbn [audit_index]. rewrite IH by lia.
    rewrite (first_ok_from_first _ _ _ _ Hj i); [reflexivity|lia]. }
  destruct (updateStopStatus_signed_in w orderId status notes k user Hs)
    as (l & Ht & _ & Hres).
  rewrite Hj' in Hres. destruct Hres as (Hr & _ & Hc & _).
  split; [exact Hr|]. rewrite Ht.
  change (count is_stop_events_insert (EvCreateServerClient :: EvGetUser :: l))
    with (count is_stop_events_insert l).
  rewrite Hc, Hidx; [reflexivity|lia].
Qed.

(** ** The proof of delivery *)

Lemma persisted_notes_app (a b : list Event) :
  persisted_notes (a ++ b) = persisted_notes a ++ persisted_notes b.
Proof.
  induction a as [|e a IH]; [reflexivity|].
  destruct e; cbn [app persisted_notes]; rewrite IH; reflexivity.
Qed.

(** Every row the loop inserts carries the composed notes. *)
Lemma persisted_notes_loop w o p s n u (l : list Event) :
  Forall (pod_loop_event w o p s n u) l ->
  persisted_notes l = repeat n (count is_pods_insert l).
Proof.
  unfold count. induction 1 as [|e l He _ IH]; [reflexivity|].
  destruct e; cbn [persisted_notes filter is_pods_insert]; try exact IH; try contradiction.
  cbn in He. destruct He as (_ & _ & _ & _ & ->). cbn [length repeat]. now rewrite IH.
Qed.

Lemma count_from_skeleton (p : Event -> bool) (a b : list Event) :
  skeleton p a = skeleton p b -> count p a = count p b.
Proof. intros H. now rewrite <- !skeleton_attempts, H. Qed.

Section SavePODFacts.

Variables (orderId : string) (photoUrl signatureUrl notes recipientName : option string).
Variable k : nat.

Let act (w : World) : M JsVal :=
  savePOD w (maxRetries + k) orderId photoUrl signatureUrl notes recipientName.

(** The rows written, whatever the identity check says. *)
Lemma savePOD_persisted_notes (w : World) :
  persisted_notes (trace_of (act w))
  = repeat (podNotes recipientName notes) (count is_pods_insert (trace_of (act w))).
Proof.
  destruct (identity_cases w) as [(e & Hc)|[(u & e & Hc & Hg)|[Hf|(user & Hs)]]].
  - destruct (savePOD_client_raises w orderId photoUrl signatureUrl notes recipientName k
                e Hc) as (_ & Ht & _).
    subst act. cbv beta. now rewrite Ht.
  - destruct (savePOD_getUser_raises w orderId photoUrl signatureUrl notes recipientName k
                u e Hc Hg) as (_ & Ht & _).
    subst act. cbv beta. now rewrite Ht.
  - destruct (savePOD_identity_check_fails w orderId photoUrl signatureUrl notes
                recipientName k Hf) as (_ & Ht & _).
    subst act. cbv beta. now rewrite Ht.
  - destruct (savePOD_signed_in w orderId photoUrl signatureUrl notes recipientName k
                user Hs) as (l & Ht & HP & _).
    subst act. cbv beta. rewrite Ht.
    change (persisted_notes (EvCreateServerClient :: EvGetUser :: l))
      with (persisted_notes l).
    change (count is_pods_insert (EvCreateServerClient :: EvGetUser :: l))
      with (count is_pods_insert l).
    exact (persisted_notes_loop _ _ _ _ _ _ _ HP).
Qed.

(** The result, the attempts and sleeps, and the rows written depend on the
    world only through the client, the identity and the [pods] insert. *)
Lemma savePOD_store_determines (w w' : World) :
  w_createServerClient w' = w_createServerClient w ->
  w_getUser w' = w_getUser w ->
  (forall j, w_pods_insert w' j = w_pods_insert w j) ->
  result_of (act w') = result_of (act w)
  /\ skeleton is_pods_insert (trace_of (act w')) = skeleton is_pods_insert (trace_of (act w))
  /\ persisted_notes (trace_of (act w')) = persisted_notes (trace_of (act w)).
Proof.
  intros Hc' Hg' Hp'.
  enough (H : result_of (act w') = result_of (act w)
              /\ skeleton is_pods_insert (trace_of (act w'))
                 = skeleton is_pods_insert (trace_of (act w))).
  { destruct H as [H1 H2]. split; [exact H1|]. split; [exact H2|].
    rewrite !savePOD_persisted_notes. f_equal. now apply count_from_skeleton. }
  destruct (identity_cases w) as [(e & Hc)|[(u & e & Hc & Hg)|[Hf|(user & Hs)]]].
  - destruct (savePOD_client_raises w orderId photoUrl signatureUrl notes recipientName k
                e Hc) as (Hr & Ht & _).
    rewrite <- Hc' in Hc.
    destruct (savePOD_client_raises w' orderId photoUrl signatureUrl notes recipientName k
                e Hc) as (Hr' & Ht' & _).
    subst act. cbv beta. now rewrite Hr, Hr', Ht, Ht'.
  - destruct (savePOD_getUser_raises w orderId photoUrl signatureUrl notes recipientName k
                u e Hc Hg) as (Hr & Ht & _).
    rewrite <- Hc' in Hc. rewrite <- Hg' in Hg.
    destruct (savePOD_getUser_raises w' orderId photoUrl signatureUrl notes recipientName k
                u e Hc Hg) as (Hr' & Ht' & _).
    subst act. cbv beta. now rewrite Hr, Hr', Ht, Ht'.
  - destruct (savePOD_identity_check_fails w orderId photoUrl signatureUrl notes
                recipientName k Hf) as (Hr & Ht & _).
    assert (Hf' : identity_check_fails w' = true).
    { unfold identity_check_fails in *. now rewrite Hc', Hg'. }
    destruct (savePOD_identity_check_fails w' orderId photoUrl signatureUrl notes
                recipientName k Hf') as (Hr' & Ht' & _).
    subst act. cbv beta. now rewrite Hr, Hr', Ht, Ht'.
  - destruct (savePOD_signed_in w orderId photoUrl signatureUrl notes recipientName k
                user Hs) as (l & Ht & _ & Hres).
    assert (Hs' : signed_in w' = Some user).
    { unfold signed_in in *. now rewrite Hc', Hg'. }
    destruct (savePOD_signed_in w' orderId photoUrl signatureUrl notes recipientName k
                user Hs') as (l' & Ht' & _ & Hres').
    assert (Hfirst : first_ok (pod_attempt_ok w') = first_ok (pod_attempt_ok w)).
    { apply first_ok_from_ext. intros j. unfold pod_attempt_ok. now rewrite Hp'. }
    assert (Herr : pod_error w' (maxRetries - 1) = pod_error w (maxRetries - 1)).
    { unfold pod_error. now rewrite Hp'. }
    rewrite Hfirst, Herr in Hres'.
    subst act. cbv beta. rewrite Ht, Ht'. cbn [skeleton is_pods_insert].
    destruct (first_ok (pod_attempt_ok w)).
    + destruct Hres as (-> & -> & _). destruct Hres' as (-> & -> & _). now split.
    + destruct Hres as (-> & -> & _). destruct Hres' as (-> & -> & _). now split.
Qed.

End SavePODFacts.

Lemma pod_email_enabled_flag (w : World) :
  pod_email_enabled w = true <-> w_ENABLE_POD_EMAIL w = Some "true".
Proof.
  unfold pod_email_enabled. destruct (w_ENABLE_POD_EMAIL w) as [flag|].
  - rewrite String.eqb_eq. split; [now intros ->|now intros [= ->]].
  - split; discriminate.
Qed.

Lemma pod_loop_event_facts w o p s n u (e : Event) :
  pod_loop_event w o p s n u e ->
  is_email_callback_event e = false /\ dispatch_justified w e.
Proof.
  destruct e; cbn [pod_loop_event is_email_callback_event dispatch_justified];
    try tauto; try (intros; split; [reflexivity|exact I]).
  intros (_ & Hflag & Hid & Hrow). split; [reflexivity|].
  split; [now apply pod_email_enabled_flag|]. split; [exact Hid|exact Hrow].
Qed.

Lemma savePOD_events (w : World) (k : nat) (orderId : string)
    (photoUrl signatureUrl notes recipientName : option string) :
  Forall (fun e => is_email_callback_event e = false /\ dispatch_justified w e)
    (trace_of (savePOD w (maxRetries + k) orderId photoUrl signatureUrl notes recipientName)).
Proof.
  destruct (identity_cases w) as [(e & Hc)|[(u & e & Hc & Hg)|[Hf|(user & Hs)]]].
  - destruct (savePOD_client_raises w orderId photoUrl signatureUrl notes recipientName k
                e Hc) as (_ & -> & _).
    repeat constructor.
  - destruct (savePOD_getUser_raises w orderId photoUrl signatureUrl notes recipientName k
                u e Hc Hg) as (_ & -> & _).
    repeat constructor.
  - destruct (savePOD_identity_check_fails w orderId photoUrl signatureUrl notes
                recipientName k Hf) as (_ & -> & _).
    repeat constructor.
  - destruct (savePOD_signed_in w orderId photoUrl signatureUrl notes recipientName k
                user Hs) as (l & -> & HP & _).
    constructor; [split; [reflexivity|exact I]|].
    constructor; [split; [reflexivity|exact I]|].
    eapply Forall_impl; [|exact HP]. intros e. apply pod_loop_event_facts.
Qed.

Lemma savePOD_returns (w : World) (k : nat) (orderId : string)
    (photoUrl signatureUrl notes recipientName : option string) :
  exists v,
    result_of (savePOD w (maxRetries + k) orderId photoUrl signatureUrl notes recipientName)
    = Val v
    /\ is_ActionResponse v = true.
Proof.
  destruct (identity_cases w) as [(e & Hc)|[(u & e & Hc & Hg)|[Hf|(user & Hs)]]].
  - destruct (savePOD_client_raises w orderId photoUrl signatureUrl notes recipientName k
                e Hc) as (-> & _).
    eexists. split; reflexivity.
  - destruct (savePOD_getUser_raises w orderId photoUrl signatureUrl notes recipientName k
                u e Hc Hg) as (-> & _).
    eexists. split; reflexivity.
  - destruct (savePOD_identity_check_fails w orderId photoUrl signatureUrl notes
                recipientName k Hf) as (-> & _).
    eexists. split; reflexivity.
  - destruct (savePOD_signed_in w orderId photoUrl signatureUrl notes recipientName k
                user Hs) as (l & _ & _ & Hres).
    destruct (first_ok (pod_attempt_ok w)); destruct Hres as (-> & _);
      eexists; split; reflexivity.
Qed.



(** ** Results *)

Lemma updateStopStatus_returns (w : World) (k : nat) (orderId : string)
    (status : StopStatus) (notes : option string) :
  exists v,
    result_of (updateStopStatus w (maxRetries + k) orderId status notes) = Val v
    /\ is_ActionResponse v = true.
Proof.
  destruct (identity_cases w) as [(e & Hc)|[(u & e & Hc & Hg)|[Hf|(user & Hs)]]].
  - destruct (updateStopStatus_client_raises w orderId status notes k e Hc) as (-> & _).
    eexists. split; reflexivity.
  - destruct (updateStopStatus_getUser_raises w orderId status notes k u e Hc Hg) as (-> & _).
    eexists. split; reflexivity.
  - destruct (updateStopStatus_identity_check_fails w orderId status notes k Hf) as (-> & _).
    eexists. split; reflexivity.
  - destruct (updateStopStatus_signed_in w orderId status notes k user Hs)
      as (l & _ & _ & Hres).
    destruct (first_ok (status_attempt_ok w)); destruct Hres as (-> & _);
      eexists; split; reflexivity.
Qed.

Lemma updateDriverPosition_returns (w : World) (lat lng : JsNumber)
    (accuracy : option JsNumber) :
  exists v,
    result_of (updateDriverPosition w lat lng accuracy) = Val v
    /\ is_ActionResponse v = true.
Proof.
  destruct (identity_cases w) as [(e & Hc)|[(u & e & Hc & Hg)|[Hf|(user & Hs)]]].
  - destruct (updateDriverPosition_client_raises w lat lng accuracy e Hc) as (-> & _).
    eexists. split; reflexivity.
  - destruct (updateDriverPosition_getUser_raises w lat lng accuracy u e Hc Hg) as (-> & _).
    eexists. split; reflexivity.
  - destruct (updateDriverPosition_identity_check_fails w lat lng accuracy Hf) as (-> & _).
    eexists. split; reflexivity.
  - pose proof (updateDriverPosition_signed_in w lat lng accuracy user Hs) as H.
    cbv zeta in H.
    destruct (w_upsert_driver_position w 0) as [e|e];
      [destruct (truthy_err e)|]; destruct H as [-> _]; eexists; split; reflexivity.
Qed.

Lemma uploadToBlob_returns (w : World) (k : nat) (base64Data filename contentType : string) :
  exists v,
    result_of (uploadToBlob w (maxRetries + k) base64Data filename contentType) = Val v
    /\ is_upload_response v = true /\ is_ActionResponse v = false.
Proof.
  destruct (decoded_blob w base64Data contentType) as [blob|] eqn:Hd.
  - destruct (uploadToBlob_decoded w base64Data filename contentType k blob Hd)
      as (l & _ & _ & Hres).
    destruct (first_ok (put_attempt_ok w)).
    + destruct Hres as ((res & _ & ->) & _). eexists. repeat split; reflexivity.
    + destruct Hres as (-> & _). eexists. repeat split; reflexivity.
  - destruct (uploadToBlob_decode_fails w base64Data filename contentType k Hd) as [-> _].
    eexists. repeat split; reflexivity.
Qed.

(** C5 (amended).  [updateStopStatus], [savePOD] and [updateDriverPosition]
    return, in every world, a value of the shape of [ActionResponse].
    [uploadToBlob] returns [{ url, error }] with one of the two [null], which
    has no [success] field and is not of that shape. *)
Theorem results_have_their_shape (w : World) (k : nat) (orderId : string)
    (status : StopStatus) (notes photoUrl signatureUrl recipientName : option string)
    (lat lng : JsNumber) (accuracy : option JsNumber)
    (base64Data filename contentType : string) :
  (exists v, result_of (updateStopStatus w (maxRetries + k) orderId status notes) = Val v
             /\ is_ActionResponse v = true)
  /\ (exists v, result_of (savePOD w (maxRetries + k) orderId photoUrl signatureUrl notes
                             recipientName) = Val v
                /\ is_ActionResponse v = true)
  /\ (exists v, result_of (updateDriverPosition w lat lng accuracy) = Val v
                /\ is_ActionResponse v = true)
  /\ (exists v, result_of (uploadToBlob w (maxRetries + k) base64Data filename contentType)
                = Val v
                /\ is_upload_response v = true /\ is_ActionResponse v = false).
Proof.
  split; [apply updateStopStatus_returns|].
  split; [apply savePOD_returns|].
  split; [apply updateDriverPosition_returns|].
  apply uploadToBlob_returns.
Qed.

(** C5 as stated fails for [uploadToBlob]: a successful upload returns
    [{ url: "...", error: null }]. *)
Lemma uploadToBlob_result_is_not_an_ActionResponse :
  result_of (uploadToBlob w_online maxRetries "aGk=" "f.png" "image/png")
  = Val (JObj [("url", JStr "https://blob.example/f.png"); ("error", JNull)])
  /\ ~ (exists v, result_of (uploadToBlob w_online maxRetries "aGk=" "f.png" "image/png")
                  = Val v
                  /\ is_ActionResponse v = true).
Proof.
  split; [reflexivity|]. intros (v & Hv & Hshape).
  injection Hv as <-. discriminate Hshape.
Qed.

(** ** The position upsert *)

(** C6 (amended).  [updateDriverPosition] makes the upsert at most once and
    never sleeps.  When the identity check has passed and the upsert reports
    an error, that one attempt is final and the action returns the failure
    "Failed to update position"; when the upsert raises, that one attempt is
    final too and the action returns the failure "An unexpected error
    occurred". *)
Theorem position_upsert_is_attempted_once (w : World) (lat lng : JsNumber)
    (accuracy : option JsNumber) :
  let m := updateDriverPosition w lat lng accuracy in
  count is_upsert_position (trace_of m) <= 1
  /\ sleeps (trace_of m) = []
  /\ (forall user, signed_in w = Some user ->
        position_attempt_ok w 0 = false ->
        count is_upsert_position (trace_of m) = 1
        /\ result_of m
           = Val (failure_result
                    match w_upsert_driver_position w 0 with
                    | Returns _ => "Failed to update position"
                    | Raises _ => "An unexpected error occurred"
                    end)).
Proof.
  cbv zeta.
  destruct (identity_cases w) as [(e & Hc)|[(u & e & Hc & Hg)|[Hf|(user & Hs)]]].
  - destruct (updateDriverPosition_client_raises w lat lng accuracy e Hc) as (Hr & Ht).
    rewrite Ht. split; [cbn; lia|]. split; [reflexivity|].
    intros user Hs. unfold signed_in in Hs. now rewrite Hc in Hs.
  - destruct (updateDriverPosition_getUser_raises w lat lng accuracy u e Hc Hg) as (Hr & Ht).
    rewrite Ht. split; [cbn; lia|]. split; [reflexivity|].
    intros user Hs. unfold signed_in in Hs. now rewrite Hc, Hg in Hs.
  - destruct (updateDriverPosition_identity_check_fails w lat lng accuracy Hf) as (Hr & Ht).
    rewrite Ht. split; [cbn; lia|]. split; [reflexivity|].
    intros user Hs. apply signed_in_check_passes in Hs. congruence.
  - pose proof (updateDriverPosition_signed_in w lat lng accuracy user Hs) as H.
    cbv zeta in H. unfold position_attempt_ok, update_ok.
    destruct (w_upsert_driver_position w 0) as [e|e];
      [destruct (truthy_err e)|]; destruct H as [Hr ->];
      (split; [cbn; lia|]); (split; [reflexivity|]); intros user' _ Hfail;
      try discriminate; (split; [reflexivity|]); exact Hr.
Qed.

(** The upsert reports an error: one attempt, then the failure "Failed to
    update position". *)
Lemma position_upsert_is_attempted_once_witness :
  signed_in w_position_down = Some driver
  /\ position_attempt_ok w_position_down 0 = false
  /\ count is_upsert_position
       (trace_of (updateDriverPosition w_position_down example_lat example_lng None)) = 1
  /\ result_of (updateDriverPosition w_position_down example_lat example_lng None)
     = Val (failure_result "Failed to update position").
Proof.
  split; [reflexivity|]. split; [reflexivity|].
  exact (proj2 (proj2 (position_upsert_is_attempted_once w_position_down example_lat
                         example_lng None)) driver eq_refl eq_refl).
Defined.

(** C6 as stated fails: with the upsert reporting an error every time, the
    retry policy would make three attempts with sleeps of 1000 and 2000 ms;
    the action makes one attempt and does not sleep. *)
Lemma position_upsert_is_not_retried :
  let tr := trace_of (updateDriverPosition w_position_down example_lat example_lng None) in
  (forall j, position_attempt_ok w_position_down j = false)
  /\ skeleton is_upsert_position tr = [Attempt]
  /\ beats (attempts_made (position_attempt_ok w_position_down))
     = [Attempt; Pause 1000; Attempt; Pause 2000; Attempt]
  /\ skeleton is_upsert_position tr
     <> beats (attempts_made (position_attempt_ok w_position_down)).
Proof.
  cbv zeta. split; [reflexivity|]. split; [reflexivity|]. split; [reflexivity|].
  discriminate.
Qed.

(** ** The upload *)

Lemma decode_fails_no_blob (w : World) (base64Data contentType : string) :
  decode_fails w base64Data = true <-> decoded_blob w base64Data contentType = None.
Proof.
  unfold decode_fails, decoded_blob. destruct (startsWith base64Data "data:").
  - destruct (w_fetch_data_url w base64Data) as [[b|e]|e]; split; try reflexivity;
      discriminate.
  - destruct (atob (raw_base64 base64Data)); split; try reflexivity; discriminate.
Qed.

(** C7 (amended).  When the payload cannot be decoded ([atob] raises on raw
    base64; [fetch] or [.blob()] raises on a data URL), [uploadToBlob]
    returns [{ url: null, error: "Failed to upload file" }] at once: the blob
    put is never invoked and nothing sleeps.  A payload that decodes, to
    however few bytes, is put. *)
Theorem undecodable_payload_is_not_put (w : World) (k : nat)
    (base64Data filename contentType : string) :
  let m := uploadToBlob w (maxRetries + k) base64Data filename contentType in
  (decode_fails w base64Data = true ->
     result_of m = Val (upload_failure "Failed to upload file")
     /\ count is_blob_put (trace_of m) = 0
     /\ sleeps (trace_of m) = [])
  /\ (forall blob, decoded_blob w base64Data contentType = Some blob ->
        In (EvBlobPut filename blob "public" contentType) (trace_of m)).
Proof.
  cbv zeta. split.
  - intros Hf. apply (decode_fails_no_blob w base64Data contentType) in Hf.
    destruct (uploadToBlob_decode_fails w base64Data filename contentType k Hf) as [-> ->].
    split; [reflexivity|]. unfold decode_events.
    destruct (startsWith base64Data "data:"); split; reflexivity.
  - intros blob Hd.
    destruct (uploadToBlob_decoded w base64Data filename contentType k blob Hd)
      as (l & -> & HP & Hres).
    apply in_or_app. right.
    assert (Hatt : In Attempt (skeleton is_blob_put l)).
    { destruct (first_ok (put_attempt_ok w)) as [j|].
      - destruct Hres as (_ & ->). apply in_or_app. right. now left.
      - destruct Hres as (_ & ->). now left. }
    clear Hres. induction HP as [|e l He _ IH]; [destruct Hatt|].
    destruct e; cbn [skeleton is_blob_put] in Hatt; cbn [blob_loop_event] in He;
      try contradiction.
    + left. destruct He as (-> & -> & -> & ->). reflexivity.
    + right. apply IH. destruct Hatt as [Hatt|Hatt]; [discriminate|exact Hatt].
    + right. apply IH. exact Hatt.
Qed.

(** "%%%" is not base64. *)
Lemma undecodable_payload_is_not_put_witness :
  decode_fails w_online "%%%" = true
  /\ result_of (uploadToBlob w_online (maxRetries + 0) "%%%" "f.png" "image/png")
     = Val (upload_failure "Failed to upload file")
  /\ count is_blob_put
       (trace_of (uploadToBlob w_online (maxRetries + 0) "%%%" "f.png" "image/png")) = 0
  /\ sleeps (trace_of (uploadToBlob w_online (maxRetries + 0) "%%%" "f.png" "image/png")) = [].
Proof.
  split; [reflexivity|].
  exact (proj1 (undecodable_payload_is_not_put w_online 0 "%%%" "f.png" "image/png") eq_refl).
Defined.

(** C7 as stated fails for a payload of zero bytes: the empty string decodes
    to no bytes, and the empty blob is put and its URL returned. *)
Lemma empty_payload_is_put :
  let m := uploadToBlob w_online maxRetries "" "f.png" "image/png" in
  atob (raw_base64 "") = Returns ""
  /\ decoded_blob w_online "" "image/png" = Some (mkBlob [] "image/png")
  /\ trace_of m = [EvBlobPut "f.png" (mkBlob [] "image/png") "public" "image/png"]
  /\ result_of m = Val (upload_result "https://blob.example/f.png")
  /\ ~ (result_of m = Val (upload_failure "Failed to upload file")
        /\ count is_blob_put (trace_of m) = 0).
Proof.
  cbv zeta. split; [reflexivity|]. split; [reflexivity|]. split; [reflexivity|].
  split; [reflexivity|]. intros [H _]. discriminate H.
Qed.

(** ** The outermost boundary *)

(** C8.  In every world, collaborators that raise included, each of the
    four actions returns a value: it neither raises nor runs forever.  What
    no inner branch handles ends in the generic failure of the outermost
    [catch]: a raise of the client or of the identity lookup, for the three
    actions that ask for the identity; a raise of the position upsert; a
    payload that cannot be decoded. *)
Theorem actions_never_raise (w : World) (k : nat) (orderId : string)
    (status : StopStatus) (notes photoUrl signatureUrl recipientName : option string)
    (lat lng : JsNumber) (accuracy : option JsNumber)
    (base64Data filename contentType : string) :
  let status_action := updateStopStatus w (maxRetries + k) orderId status notes in
  let pod_action :=
    savePOD w (maxRetries + k) orderId photoUrl signatureUrl notes recipientName in
  let position_action := updateDriverPosition w lat lng accuracy in
  let upload_action := uploadToBlob w (maxRetries + k) base64Data filename contentType in
  ((exists v, result_of status_action = Val v)
   /\ (exists v, result_of pod_action = Val v)
   /\ (exists v, result_of position_action = Val v)
   /\ (exists v, result_of upload_action = Val v))
  /\ (identity_lookup_raises w = true ->
        result_of status_action
        = Val (failure_result "An unexpected error occurred. Please try again.")
        /\ result_of pod_action
           = Val (failure_result "An unexpected error occurred. Please try again.")
        /\ result_of position_action = Val (failure_result "An unexpected error occurred"))
  /\ (forall user e, signed_in w = Some user -> w_upsert_driver_position w 0 = Raises e ->
        result_of position_action = Val (failure_result "An unexpected error occurred"))
  /\ (decode_fails w base64Data = true ->
        result_of upload_action = Val (upload_failure "Failed to upload file")).
Proof.
  cbv zeta. split; [|split; [|split]].
  - split; [|split; [|split]].
    + destruct (updateStopStatus_returns w k orderId status notes) as (v & Hv & _).
      now exists v.
    + destruct (savePOD_returns w k orderId photoUrl signatureUrl notes recipientName)
        as (v & Hv & _).
      now exists v.
    + destruct (updateDriverPosition_returns w lat lng accuracy) as (v & Hv & _).
      now exists v.
    + destruct (uploadToBlob_returns w k base64Data filename contentType) as (v & Hv & _).
      now exists v.
  - unfold identity_lookup_raises. intros H.
    destruct (w_createServerClient w) as [u|e] eqn:Hc.
    + destruct (w_getUser w) as [r|e] eqn:Hg; [discriminate|].
      split; [|split].
      * now apply updateStopStatus_getUser_raises with (u := u) (e := e).
      * now apply savePOD_getUser_raises with (u := u) (e := e).
      * now apply updateDriverPosition_getUser_raises with (u := u) (e := e).
    + split; [|split].
      * now apply updateStopStatus_client_raises with (e := e).
      * now apply savePOD_client_raises with (e := e).
      * now apply updateDriverPosition_client_raises with (e := e).
  - intros user e Hs Hup.
    pose proof (updateDriverPosition_signed_in w lat lng accuracy user Hs) as H.
    cbv zeta in H. rewrite Hup in H. apply H.
  - intros Hf. apply (decode_fails_no_blob w base64Data contentType) in Hf.
    now apply uploadToBlob_decode_fails.
Qed.

(** The identity lookup raises. *)
Lemma actions_never_raise_witness :
  let w := set_getUser w_online (Raises timeout_error) in
  identity_lookup_raises w = true
  /\ result_of (updateStopStatus w (maxRetries + 0) "order-1" Delivered None)
     = Val (failure_result "An unexpected error occurred. Please try again.")
  /\ result_of (savePOD w (maxRetries + 0) "order-1" None None None None)
     = Val (failure_result "An unexpected error occurred. Please try again.")
  /\ result_of (updateDriverPosition w example_lat example_lng None)
     = Val (failure_result "An unexpected error occurred").
Proof.
  cbv zeta. split; [reflexivity|].
  exact (proj1 (proj2 (actions_never_raise (set_getUser w_online (Raises timeout_error)) 0
                         "order-1" Delivered None None None None example_lat example_lng None
                         "" "" "")) eq_refl).
Defined.

(** ** The notes of a proof of delivery *)

Lemma podNotes_recipient (r : string) (notes : option string) :
  r <> "" ->
  podNotes (Some r) notes = Some ("Recipient: " ++ r ++ newline ++ notes_text notes)%string.
Proof.
  intros Hr. unfold podNotes, notes_text.
  destruct r as [|c r]; [contradiction|]. cbn [truthy_str].
  destruct notes as [[|c' n]|]; reflexivity.
Qed.

Lemma podNotes_no_recipient (recipientName notes : option string) :
  recipientName = None \/ recipientName = Some "" -> podNotes recipientName notes = notes.
Proof. intros [-> | ->]; reflexivity. Qed.

Lemma savePOD_inserts_a_row (w : World) (k : nat) (orderId : string)
    (photoUrl signatureUrl notes recipientName : option string) (user : User) :
  signed_in w = Some user ->
  1 <= count is_pods_insert
         (trace_of (savePOD w (maxRetries + k) orderId photoUrl signatureUrl notes
                      recipientName)).
Proof.
  intros Hs.
  destruct (savePOD_signed_in w orderId photoUrl signatureUrl notes recipientName k user Hs)
    as (l & -> & _ & Hres).
  change (count is_pods_insert (EvCreateServerClient :: EvGetUser :: l))
    with (count is_pods_insert l).
  apply attempt_in_skeleton.
  destruct (first_ok (pod_attempt_ok w)) as [j|].
  - destruct Hres as (_ & -> & _). apply in_or_app. right. now left.
  - destruct Hres as (_ & -> & _). now left.
Qed.

(** C9.  Every row [savePOD] inserts into [pods] carries, as its notes:
    "Recipient: " + recipientName + "\n" + notes when a recipient name is
    supplied (a non-empty string; absent notes add nothing after the line
    break), and the caller's notes unchanged, absent included, when no
    recipient name is supplied (absent, or the empty string).  When the
    identity check passes at least one row is inserted. *)
Theorem persisted_notes_carry_recipient (w : World) (k : nat) (orderId : string)
    (photoUrl signatureUrl notes recipientName : option string) :
  let tr :=
    trace_of (savePOD w (maxRetries + k) orderId photoUrl signatureUrl notes recipientName) in
  (forall r, recipientName = Some r -> r <> "" ->
     Forall (fun n => n = Some ("Recipient: " ++ r ++ newline ++ notes_text notes)%string)
       (persisted_notes tr))
  /\ (recipientName = None \/ recipientName = Some "" ->
        Forall (fun n => n = notes) (persisted_notes tr))
  /\ (forall user, signed_in w = Some user -> persisted_notes tr <> []).
Proof.
  cbv zeta. rewrite savePOD_persisted_notes. split; [|split].
  - intros r -> Hr. rewrite (podNotes_recipient r notes Hr).
    apply Forall_forall. intros n Hn. now apply repeat_spec in Hn.
  - intros Hno. rewrite (podNotes_no_recipient recipientName notes Hno).
    apply Forall_forall. intros n Hn. now apply repeat_spec in Hn.
  - intros user Hs.
    pose proof (savePOD_inserts_a_row w k orderId photoUrl signatureUrl notes recipientName
                  user Hs) as Hc.
    destruct (count is_pods_insert _); [lia|discriminate].
Qed.

(** "Jane Doe" and "left at door". *)
Lemma persisted_notes_carry_recipient_witness :
  Some "Jane Doe" = Some "Jane Doe" /\ "Jane Doe" <> ""
  /\ Forall (fun n => n = Some ("Recipient: " ++ "Jane Doe" ++ newline
                               ++ notes_text (Some "left at door"))%string)
       (persisted_notes
          (trace_of (savePOD w_online (maxRetries + 0) "order-1" None None
                       (Some "left at door") (Some "Jane Doe")))).
Proof.
  split; [reflexivity|]. split; [discriminate|].
  exact (proj1 (persisted_notes_carry_recipient w_online 0 "order-1" None None
                  (Some "left at door") (Some "Jane Doe"))
           "Jane Doe" eq_refl (fun H => eq_ind "Jane Doe"
                                          (fun s => match s with
                                                    | EmptyString => False
                                                    | String _ _ => True
                                                    end) I "" H)).
Defined.

(** The example of the specification. *)
Example jane_doe_left_at_door :
  persisted_notes
    (trace_of (savePOD w_online maxRetries "order-1" None None (Some "left at door")
                 (Some "Jane Doe")))
  = [Some ("Recipient: Jane Doe" ++ newline ++ "left at door")%string].
Proof. reflexivity. Qed.

(** ** The accuracy of a position *)

(** C10.  An accuracy of 0 (of either sign) is turned into [null] by
    [accuracy || null]: the action runs exactly as it does when the accuracy
    is omitted, and the store receives [null] in both cases. *)
Theorem zero_accuracy_is_null (w : World) (lat lng : JsNumber) (sign : bool) :
  updateDriverPosition w lat lng (Some (S754_zero sign)) = updateDriverPosition w lat lng None
  /\ upserted_accuracies (trace_of (updateDriverPosition w lat lng (Some (S754_zero sign))))
     = upserted_accuracies (trace_of (updateDriverPosition w lat lng None))
  /\ Forall (fun acc => acc = JNull)
       (upserted_accuracies (trace_of (updateDriverPosition w lat lng (Some (S754_zero sign)))))
  /\ (forall user, signed_in w = Some user ->
        upserted_accuracies
          (trace_of (updateDriverPosition w lat lng (Some (S754_zero sign)))) = [JNull]).
Proof.
  split; [reflexivity|]. split; [reflexivity|].
  assert (H : forall user, signed_in w = Some user ->
                upserted_accuracies
                  (trace_of (updateDriverPosition w lat lng (Some (S754_zero sign))))
                = [JNull]).
  { intros user Hs.
    pose proof (updateDriverPosition_signed_in w lat lng (Some (S754_zero sign)) user Hs)
      as H.
    cbv zeta in H.
    destruct (w_upsert_driver_position w 0) as [e|e];
      [destruct (truthy_err e)|]; destruct H as [_ ->]; reflexivity. }
  split; [|exact H].
  destruct (identity_cases w) as [(e & Hc)|[(u & e & Hc & Hg)|[Hf|(user & Hs)]]].
  - destruct (updateDriverPosition_client_raises w lat lng (Some (S754_zero sign)) e Hc)
      as (_ & ->).
    constructor.
  - destruct (updateDriverPosition_getUser_raises w lat lng (Some (S754_zero sign)) u e Hc Hg)
      as (_ & ->).
    constructor.
  - destruct (updateDriverPosition_identity_check_fails w lat lng (Some (S754_zero sign)) Hf)
      as (_ & ->).
    constructor.
  - rewrite (H user Hs). repeat constructor.
Qed.

Lemma zero_accuracy_is_null_witness :
  signed_in w_online = Some driver
  /\ upserted_accuracies
       (trace_of (updateDriverPosition w_online example_lat example_lng
                    (Some (S754_zero false)))) = [JNull].
Proof.
  split; [reflexivity|].
  exact (proj2 (proj2 (proj2 (zero_accuracy_is_null w_online example_lat example_lng false)))
           driver eq_refl).
Defined.

(** * Further properties *)

(** ** The upload *)

Lemma skeleton_decode_events (base64Data : string) (l : list Event) :
  skeleton is_blob_put (decode_events base64Data ++ l) = skeleton is_blob_put l.
Proof. unfold decode_events. now destruct (startsWith base64Data "data:"). Qed.

(** X1.  For a payload that decodes, the retry loop of [uploadToBlob] follows
    the same policy as the store loops: puts and sleeps are attempt, 1000 ms,
    attempt, 2000 ms, attempt, cut after the first put that returns; the
    result is the URL of that put, and after three raises the fixed failure
    "Failed to upload file after multiple attempts". *)
Theorem uploadToBlob_retry_policy (w : World) (k : nat)
    (base64Data filename contentType : string) (blob : Blob) :
  decoded_blob w base64Data contentType = Some blob ->
  let m := uploadToBlob w (maxRetries + k) base64Data filename contentType in
  let n := attempts_made (put_attempt_ok w) in
  1 <= n <= maxRetries
  /\ count is_blob_put (trace_of m) = n
  /\ skeleton is_blob_put (trace_of m) = beats n
  /\ sleeps (trace_of m) = map (fun i => 1000 * i) (seq 1 (n - 1))
  /\ (forall pre ms post,
        trace_of m = pre ++ EvSleep ms :: post -> 1 <= count is_blob_put post)
  /\ (forall j, first_ok (put_attempt_ok w) = Some j ->
        exists res, w_put w j = Returns res
                    /\ result_of m = Val (upload_result (put_url res)))
  /\ (first_ok (put_attempt_ok w) = None ->
        result_of m = Val (upload_failure "Failed to upload file after multiple attempts")).
Proof.
  intros Hd. cbv zeta.
  destruct (uploadToBlob_decoded w base64Data filename contentType k blob Hd)
    as (l & Ht & _ & Hres).
  destruct (failed_beats_beats (put_attempt_ok w)) as [Hb Hn].
  assert (Hsk : skeleton is_blob_put
                  (trace_of (uploadToBlob w (maxRetries + k) base64Data filename contentType))
                = beats (attempts_made (put_attempt_ok w))).
  { rewrite Ht, skeleton_decode_events, <- Hb.
    destruct (first_ok (put_attempt_ok w)); apply Hres. }
  destruct (policy_from_skeleton is_blob_put _ _ (fun _ => eq_refl) Hsk Hn)
    as (H1 & H2 & _ & H4).
  split; [exact Hn|]. split; [exact H1|]. split; [exact Hsk|]. split; [exact H2|].
  split; [exact H4|]. split.
  - intros j Hj. rewrite Hj in Hres. apply Hres.
  - intros Hnone. rewrite Hnone in Hres. apply Hres.
Qed.

(** The blob store raises twice and answers the third time. *)
Lemma uploadToBlob_retry_policy_witness :
  decoded_blob w_blob_flaky "aGk=" "image/png" = Some (mkBlob [104; 105]%N "image/png")
  /\ count is_blob_put
       (trace_of (uploadToBlob w_blob_flaky (maxRetries + 0) "aGk=" "f.png" "image/png"))
     = attempts_made (put_attempt_ok w_blob_flaky)
  /\ attempts_made (put_attempt_ok w_blob_flaky) = 3.
Proof.
  split; [reflexivity|]. split; [|reflexivity].
  exact (proj1 (proj2 (uploadToBlob_retry_policy w_blob_flaky 0 "aGk=" "f.png" "image/png"
                         (mkBlob [104; 105]%N "image/png") eq_refl))).
Defined.

(** X2.  Whatever the collaborators do, [uploadToBlob] returns one of three
    things: the URL a put returned, or one of two fixed failures.  No text of
    an error raised by [atob], [fetch] or the blob store reaches the
    result. *)
Theorem uploadToBlob_hides_error_detail (w : World) (k : nat)
    (base64Data filename contentType : string) :
  let m := uploadToBlob w (maxRetries + k) base64Data filename contentType in
  result_of m = Val (upload_failure "Failed to upload file")
  \/ result_of m = Val (upload_failure "Failed to upload file after multiple attempts")
  \/ exists j res, j < maxRetries /\ w_put w j = Returns res
                   /\ result_of m = Val (upload_result (put_url res)).
Proof.
  cbv zeta. destruct (decoded_blob w base64Data contentType) as [blob|] eqn:Hd.
  - destruct (uploadToBlob_decoded w base64Data filename contentType k blob Hd)
      as (l & _ & _ & Hres).
    destruct (first_ok (put_attempt_ok w)) as [j|] eqn:Hj.
    + destruct Hres as ((res & Hput & Hr) & _). right. right.
      apply first_ok_from_bounds in Hj. exists j, res. split; [lia|]. now split.
    + right. left. apply Hres.
  - left. now apply uploadToBlob_decode_fails.
Qed.

(** X3.  Every put of one call of [uploadToBlob] has the same arguments: the
    caller's file name, the decoded blob, access "public" and the declared
    content type, also when the blob comes from a data URL with a type of
    its own.  An undecodable payload is never put. *)
Theorem uploadToBlob_puts_one_blob (w : World) (k : nat)
    (base64Data filename contentType : string) (e : Event) :
  In e (trace_of (uploadToBlob w (maxRetries + k) base64Data filename contentType)) ->
  is_blob_put e = true ->
  exists blob, decoded_blob w base64Data contentType = Some blob
               /\ e = EvBlobPut filename blob "public" contentType.
Proof.
  intros Hin He. destruct (decoded_blob w base64Data contentType) as [blob|] eqn:Hd.
  - exists blob. split; [reflexivity|].
    destruct (uploadToBlob_decoded w base64Data filename contentType k blob Hd)
      as (l & Ht & HP & _).
    rewrite Ht in Hin. apply in_app_or in Hin. destruct Hin as [Hin|Hin].
    + unfold decode_events in Hin. destruct (startsWith base64Data "data:");
        [destruct Hin as [<-|[]]; discriminate|destruct Hin].
    + rewrite Forall_forall in HP. specialize (HP e Hin).
      destruct e; try discriminate. cbn in HP. destruct HP as (-> & -> & -> & ->).
      reflexivity.
  - destruct (uploadToBlob_decode_fails w base64Data filename contentType k Hd) as [_ Ht].
    rewrite Ht in Hin. apply in_app_or in Hin. destruct Hin as [Hin|Hin].
    + unfold decode_events in Hin. destruct (startsWith base64Data "data:");
        [destruct Hin as [<-|[]]; discriminate|destruct Hin].
    + destruct Hin as [<-|[]]. discriminate.
Qed.

Lemma uploadToBlob_puts_one_blob_witness :
  exists blob, decoded_blob w_online "aGk=" "image/png" = Some blob
               /\ EvBlobPut "f.png" (mkBlob [104; 105]%N "image/png") "public" "image/png"
                  = EvBlobPut "f.png" blob "public" "image/png".
Proof.
  exact (uploadToBlob_puts_one_blob w_online 0 "aGk=" "f.png" "image/png"
           (EvBlobPut "f.png" (mkBlob [104; 105]%N "image/png") "public" "image/png")
           (or_introl eq_refl) eq_refl).
Defined.

Lemma charCodeAt_cons (c : ascii) (s : string) (i : nat) :
  charCodeAt (String c s) (S i) = charCodeAt s i.
Proof. reflexivity. Qed.

Lemma uint8_char_code (c : ascii) : uint8 (N_of_ascii c) = N_of_ascii c.
Proof. unfold uint8. apply N.mod_small. apply N_ascii_bounded. Qed.

(** Lines 236-240: the index loop copies the character codes one by one, and
    [Uint8Array] truncates none of them. *)
Lemma bytes_of_binary_string_codes (s : string) :
  bytes_of_binary_string s = map N_of_ascii (list_ascii_of_string s).
Proof.
  unfold bytes_of_binary_string. induction s as [|c s IH]; [reflexivity|].
  cbn [String.length seq map list_ascii_of_string].
  change (charCodeAt (String c s) 0) with (N_of_ascii c).
  rewrite uint8_char_code. f_equal.
  rewrite <- seq_shift, map_map. rewrite <- IH.
  apply map_ext. intros i. now rewrite charCodeAt_cons.
Qed.

(** X4.  On the raw base64 path the blob handed to the store holds exactly
    the bytes [atob] decoded, the code of each character of the binary string
    in order, and has the type [new Blob] makes of the declared content type:
    in ASCII lower case, or empty when the declared type holds a character
    outside U+0020..U+007E.  Every put carries that blob, and the declared
    content type itself as its [contentType] option. *)
Theorem raw_payload_bytes_are_decoded_bytes (w : World) (k : nat)
    (base64Data filename contentType byteCharacters : string) :
  startsWith base64Data "data:" = false ->
  atob (raw_base64 base64Data) = Returns byteCharacters ->
  let m := uploadToBlob w (maxRetries + k) base64Data filename contentType in
  let blob := mkBlob (map N_of_ascii (list_ascii_of_string byteCharacters))
                (blob_type_of contentType) in
  In (EvBlobPut filename blob "public" contentType) (trace_of m)
  /\ (forall e, In e (trace_of m) -> is_blob_put e = true ->
        e = EvBlobPut filename blob "public" contentType).
Proof.
  intros Hraw Hatob. cbv zeta.
  assert (Hd : decoded_blob w base64Data contentType
               = Some (mkBlob (map N_of_ascii (list_ascii_of_string byteCharacters))
                         (blob_type_of contentType))).
  { unfold decoded_blob. rewrite Hraw, Hatob, bytes_of_binary_string_codes. reflexivity. }
  split; [now apply uploadToBlob_puts_decoded|].
  intros e Hin He.
  destruct (uploadToBlob_decoded w base64Data filename contentType k _ Hd)
    as (l & Ht & HP & _).
  rewrite Ht in Hin. unfold decode_events in Hin. rewrite Hraw in Hin.
  cbn [app] in Hin. rewrite Forall_forall in HP. specialize (HP e Hin).
  destruct e; try discriminate. cbn in HP. destruct HP as (-> & -> & -> & ->).
  reflexivity.
Qed.

(** A content type in mixed case: the blob is typed in lower case, the option
    of the put is as declared. *)
Lemma raw_payload_bytes_are_decoded_bytes_witness :
  startsWith "aGk=" "data:" = false /\ atob (raw_base64 "aGk=") = Returns "hi"
  /\ In (EvBlobPut "f.png" (mkBlob [104; 105]%N "image/png") "public" "Image/PNG")
       (trace_of (uploadToBlob w_online (maxRetries + 0) "aGk=" "f.png" "Image/PNG")).
Proof.
  split; [reflexivity|]. split; [reflexivity|].
  exact (proj1 (raw_payload_bytes_are_decoded_bytes w_online 0 "aGk=" "f.png" "Image/PNG"
                  "hi" eq_refl eq_refl)).
Defined.

(** ** The payload of line 235 *)

Lemma split_comma_aux_no_comma (cur : list ascii) (s : string) :
  no_comma s = true ->
  split_comma_aux cur s = [string_of_list_ascii (rev cur ++ list_ascii_of_string s)].
Proof.
  revert cur. induction s as [|c s IH]; intros cur H.
  - cbn. now rewrite app_nil_r.
  - cbn [no_comma] in H. apply andb_true_iff in H. destruct H as [Hc Hs].
    apply negb_true_iff in Hc. cbn [split_comma_aux list_ascii_of_string]. rewrite Hc.
    rewrite (IH (c :: cur) Hs). cbn [rev]. now rewrite <- app_assoc.
Qed.

Lemma split_comma_aux_header (cur : list ascii) (h t : string) :
  no_comma h = true ->
  split_comma_aux cur (h ++ String ","%char t)
  = string_of_list_ascii (rev cur ++ list_ascii_of_string h) :: split_comma_aux [] t.
Proof.
  revert cur. induction h as [|c h IH]; intros cur H.
  - cbn. now rewrite app_nil_r.
  - cbn [no_comma] in H. apply andb_true_iff in H. destruct H as [Hc Hs].
    apply negb_true_iff in Hc. cbn [String.append split_comma_aux list_ascii_of_string].
    rewrite Hc. rewrite (IH (c :: cur) Hs). cbn [rev]. now rewrite <- app_assoc.
Qed.

Lemma split_comma_no_comma (s : string) : no_comma s = true -> split_comma s = [s].
Proof.
  intros H. unfold split_comma. rewrite (split_comma_aux_no_comma [] s H).
  cbn [rev app]. now rewrite string_of_list_ascii_of_string.
Qed.

Lemma split_comma_header (h t : string) :
  no_comma h = true -> split_comma (h ++ String ","%char t) = h :: split_comma t.
Proof.
  intros H. unfold split_comma. rewrite (split_comma_aux_header [] h t H).
  cbn [rev app]. now rewrite string_of_list_ascii_of_string.
Qed.

Lemma truthy_str_nonempty (s : string) : s <> "" -> truthy_str s = true.
Proof. destruct s; [contradiction|reflexivity]. Qed.

Lemma raw_base64_whole (s : string) : no_comma s = true -> raw_base64 s = s.
Proof. intros H. unfold raw_base64. now rewrite (split_comma_no_comma s H). Qed.

(** X5.  What line 235 decodes.  Without a comma the whole input; with
    commas the piece between the first and the second one, so that a header
    left in front of the payload is dropped and anything after a second comma
    is too; when that piece is empty, the whole input again, commas and
    all. *)
Theorem raw_base64_pieces (h p rest : string) :
  no_comma h = true -> no_comma p = true ->
  raw_base64 h = h
  /\ (p <> "" -> raw_base64 (h ++ "," ++ p) = p)
  /\ (p <> "" -> raw_base64 (h ++ "," ++ p ++ "," ++ rest) = p)
  /\ raw_base64 (h ++ ",") = (h ++ ",")%string
  /\ raw_base64 (h ++ ",," ++ rest) = (h ++ ",," ++ rest)%string.
Proof.
  intros Hh Hp. split; [now apply raw_base64_whole|].
  unfold raw_base64. split; [|split; [|split]].
  - intros Hne. change (h ++ "," ++ p)%string with (h ++ String ","%char p)%string.
    rewrite (split_comma_header h p Hh), (split_comma_no_comma p Hp).
    cbn [nth_error]. now rewrite (truthy_str_nonempty p Hne).
  - intros Hne.
    change (h ++ "," ++ p ++ "," ++ rest)%string
      with (h ++ String ","%char (p ++ String ","%char rest))%string.
    rewrite (split_comma_header h _ Hh), (split_comma_header p rest Hp).
    cbn [nth_error]. now rewrite (truthy_str_nonempty p Hne).
  - change (h ++ ",")%string with (h ++ String ","%char "")%string.
    now rewrite (split_comma_header h "" Hh).
  - change (h ++ ",," ++ rest)%string
      with (h ++ String ","%char ("" ++ String ","%char rest))%string.
    now rewrite (split_comma_header h _ Hh), (split_comma_header "" rest eq_refl).
Qed.

Lemma raw_base64_pieces_witness :
  no_comma "image/png;base64" = true /\ no_comma "aGk=" = true /\ "aGk=" <> ""
  /\ raw_base64 ("image/png;base64" ++ "," ++ "aGk=") = "aGk=".
Proof.
  split; [reflexivity|]. split; [reflexivity|]. split; [discriminate|].
  exact (proj1 (proj2 (raw_base64_pieces "image/png;base64" "aGk=" "" eq_refl eq_refl))
           (fun H => eq_ind "aGk=" (fun s => match s with
                                            | EmptyString => False
                                            | String _ _ => True
                                            end) I "" H)).
Defined.

(** X6.  A header left in front of raw base64 does not change what is
    uploaded: when neither the input nor the payload starts with "data:",
    "header,payload" decodes to the same blob as the payload alone. *)
Theorem forgotten_header_is_ignored (w : World) (h p contentType : string) :
  no_comma h = true -> no_comma p = true -> p <> "" ->
  startsWith (h ++ "," ++ p) "data:" = false -> startsWith p "data:" = false ->
  decoded_blob w (h ++ "," ++ p) contentType = decoded_blob w p contentType.
Proof.
  intros Hh Hp Hne Hs1 Hs2. unfold decoded_blob. rewrite Hs1, Hs2.
  rewrite (raw_base64_whole p Hp). unfold raw_base64.
  change (h ++ "," ++ p)%string with (h ++ String ","%char p)%string.
  rewrite (split_comma_header h p Hh), (split_comma_no_comma p Hp).
  cbn [nth_error]. now rewrite (truthy_str_nonempty p Hne).
Qed.

Lemma forgotten_header_is_ignored_witness :
  decoded_blob w_online ("image/png;base64" ++ "," ++ "aGk=") "image/png"
  = decoded_blob w_online "aGk=" "image/png".
Proof.
  exact (forgotten_header_is_ignored w_online "image/png;base64" "aGk=" "image/png"
           eq_refl eq_refl
           (fun H => eq_ind "aGk=" (fun s => match s with
                                            | EmptyString => False
                                            | String _ _ => True
                                            end) I "" H)
           eq_refl eq_refl).
Defined.

(** ** How many attempts *)

Lemma before_last_attempt_failed (ok : nat -> bool) (j : nat) :
  S j < attempts_made ok -> ok j = false.
Proof.
  unfold attempts_made, first_ok. intros Hj.
  destruct (first_ok_from ok 0 maxRetries) as [j0|] eqn:Hf.
  - apply (first_ok_from_first _ _ _ _ Hf). lia.
  - apply (first_ok_from_none _ _ _ Hf). lia.
Qed.

Lemma updateStopStatus_attempt_count (w : World) (k : nat) (orderId : string)
    (status : StopStatus) (notes : option string) (user : User) :
  signed_in w = Some user ->
  let tr := trace_of (updateStopStatus w (maxRetries + k) orderId status notes) in
  count is_orders_update tr = attempts_made (status_attempt_ok w)
  /\ sleeps tr = map (fun i => 1000 * i) (seq 1 (attempts_made (status_attempt_ok w) - 1)).
Proof.
  intros Hs. cbv zeta.
  destruct (updateStopStatus_signed_in w orderId status notes k user Hs)
    as (l & Ht & _ & Hres).
  destruct (failed_beats_beats (status_attempt_ok w)) as [Hb Hn].
  assert (Hsk : skeleton is_orders_update
                  (trace_of (updateStopStatus w (maxRetries + k) orderId status notes))
                = beats (attempts_made (status_attempt_ok w))).
  { rewrite Ht. cbn [skeleton is_orders_update]. rewrite <- Hb.
    destruct (first_ok (status_attempt_ok w)); apply Hres. }
  destruct (policy_from_skeleton is_orders_update _ _ (fun _ => eq_refl) Hsk Hn)
    as (H1 & H2 & _).
  now split.
Qed.

Lemma savePOD_attempt_count (w : World) (k : nat) (orderId : string)
    (photoUrl signatureUrl notes recipientName : option string) (user : User) :
  signed_in w = Some user ->
  let tr := trace_of (savePOD w (maxRetries + k) orderId photoUrl signatureUrl notes
                        recipientName) in
  count is_pods_insert tr = attempts_made (pod_attempt_ok w)
  /\ sleeps tr = map (fun i => 1000 * i) (seq 1 (attempts_made (pod_attempt_ok w) - 1)).
Proof.
  intros Hs. cbv zeta.
  destruct (savePOD_signed_in w orderId photoUrl signatureUrl notes recipientName k user Hs)
    as (l & Ht & _ & Hres).
  destruct (failed_beats_beats (pod_attempt_ok w)) as [Hb Hn].
  assert (Hsk : skeleton is_pods_insert
                  (trace_of (savePOD w (maxRetries + k) orderId photoUrl signatureUrl notes
                               recipientName))
                = beats (attempts_made (pod_attempt_ok w))).
  { rewrite Ht. cbn [skeleton is_pods_insert]. rewrite <- Hb.
    destruct (first_ok (pod_attempt_ok w)); apply Hres. }
  destruct (policy_from_skeleton is_pods_insert _ _ (fun _ => eq_refl) Hsk Hn)
    as (H1 & H2 & _).
  now split.
Qed.

Lemma uploadToBlob_attempt_count (w : World) (k : nat)
    (base64Data filename contentType : string) (blob : Blob) :
  decoded_blob w base64Data contentType = Some blob ->
  let tr := trace_of (uploadToBlob w (maxRetries + k) base64Data filename contentType) in
  count is_blob_put tr = attempts_made (put_attempt_ok w)
  /\ sleeps tr = map (fun i => 1000 * i) (seq 1 (attempts_made (put_attempt_ok w) - 1)).
Proof.
  intros Hd. cbv zeta.
  destruct (uploadToBlob_decoded w base64Data filename contentType k blob Hd)
    as (l & Ht & _ & Hres).
  destruct (failed_beats_beats (put_attempt_ok w)) as [Hb Hn].
  assert (Hsk : skeleton is_blob_put
                  (trace_of (uploadToBlob w (maxRetries + k) base64Data filename contentType))
                = beats (attempts_made (put_attempt_ok w))).
  { rewrite Ht, skeleton_decode_events, <- Hb.
    destruct (first_ok (put_attempt_ok w)); apply Hres. }
  destruct (policy_from_skeleton is_blob_put _ _ (fun _ => eq_refl) Hsk Hn)
    as (H1 & H2 & _).
  now split.
Qed.

(** The trace of an action the identity check stops. *)
Lemma savePOD_stopped_trace (w : World) (k : nat) (orderId : string)
    (photoUrl signatureUrl notes recipientName : option string) :
  signed_in w = None ->
  exists lvl msg pre,
    trace_of (savePOD w (maxRetries + k) orderId photoUrl signatureUrl notes recipientName)
    = pre ++ [EvConsole lvl msg]
    /\ (pre = [EvCreateServerClient] \/ pre = [EvCreateServerClient; EvGetUser]).
Proof.
  intros Hs.
  destruct (identity_cases w) as [(e & Hc)|[(u & e & Hc & Hg)|[Hf|(user & Hs')]]].
  - destruct (savePOD_client_raises w orderId photoUrl signatureUrl notes recipientName k
                e Hc) as (_ & -> & _).
    do 2 eexists. exists [EvCreateServerClient]. split; [reflexivity|now left].
  - destruct (savePOD_getUser_raises w orderId photoUrl signatureUrl notes recipientName k
                u e Hc Hg) as (_ & -> & _).
    do 2 eexists. exists [EvCreateServerClient; EvGetUser]. split; [reflexivity|now right].
  - destruct (savePOD_identity_check_fails w orderId photoUrl signatureUrl notes
                recipientName k Hf) as (_ & -> & _).
    do 2 eexists. exists [EvCreateServerClient; EvGetUser]. split; [reflexivity|now right].
  - congruence.
Qed.

Lemma updateStopStatus_stopped_trace (w : World) (k : nat) (orderId : string)
    (status : StopStatus) (notes : option string) :
  signed_in w = None ->
  exists lvl msg pre,
    trace_of (updateStopStatus w (maxRetries + k) orderId status notes)
    = pre ++ [EvConsole lvl msg]
    /\ (pre = [EvCreateServerClient] \/ pre = [EvCreateServerClient; EvGetUser]).
Proof.
  intros Hs.
  destruct (identity_cases w) as [(e & Hc)|[(u & e & Hc & Hg)|[Hf|(user & Hs')]]].
  - destruct (updateStopStatus_client_raises w orderId status notes k e Hc) as (_ & ->).
    do 2 eexists. exists [EvCreateServerClient]. split; [reflexivity|now left].
  - destruct (updateStopStatus_getUser_raises w orderId status notes k u e Hc Hg) as (_ & ->).
    do 2 eexists. exists [EvCreateServerClient; EvGetUser]. split; [reflexivity|now right].
  - destruct (updateStopStatus_identity_check_fails w orderId status notes k Hf) as (_ & ->).
    do 2 eexists. exists [EvCreateServerClient; EvGetUser]. split; [reflexivity|now right].
  - congruence.
Qed.

(** X7.  No second row, no second upload: once an insert of [savePOD] has
    given a row without error the action inserts no more, and once a put of
    [uploadToBlob] has returned it puts no more.  Every attempt but the last
    one made is a failed one. *)
Theorem no_attempt_after_success (w : World) (k : nat) (orderId : string)
    (photoUrl signatureUrl notes recipientName : option string)
    (base64Data filename contentType : string) (j : nat) :
  (S j < count is_pods_insert
           (trace_of (savePOD w (maxRetries + k) orderId photoUrl signatureUrl notes
                        recipientName)) ->
   pod_insert_ok (w_pods_insert w j) = false)
  /\ (S j < count is_blob_put
              (trace_of (uploadToBlob w (maxRetries + k) base64Data filename contentType)) ->
      returned (w_put w j) = false).
Proof.
  split.
  - intros Hj. destruct (signed_in w) as [user|] eqn:Hs.
    + destruct (savePOD_attempt_count w k orderId photoUrl signatureUrl notes recipientName
                  user Hs) as [Hc _].
      rewrite Hc in Hj. exact (before_last_attempt_failed (pod_attempt_ok w) j Hj).
    + destruct (savePOD_stopped_trace w k orderId photoUrl signatureUrl notes recipientName
                  Hs) as (lvl & msg & pre & Ht & [-> | ->]);
        rewrite Ht in Hj; cbn in Hj; lia.
  - intros Hj. destruct (decoded_blob w base64Data contentType) as [blob|] eqn:Hd.
    + destruct (uploadToBlob_attempt_count w k base64Data filename contentType blob Hd)
        as [Hc _].
      rewrite Hc in Hj. exact (before_last_attempt_failed (put_attempt_ok w) j Hj).
    + destruct (uploadToBlob_decode_fails w base64Data filename contentType k Hd) as [_ Ht].
      rewrite Ht, count_app in Hj. unfold decode_events in Hj.
      destruct (startsWith base64Data "data:"); cbn in Hj; lia.
Qed.

(** Two failed inserts, then a row. *)
Lemma no_attempt_after_success_witness :
  S 0 < count is_pods_insert
          (trace_of (savePOD w_flaky (maxRetries + 0) "order-1" None None None None))
  /\ pod_insert_ok (w_pods_insert w_flaky 0) = false.
Proof.
  assert (H : S 0 < count is_pods_insert
                      (trace_of (savePOD w_flaky (maxRetries + 0) "order-1" None None None
                                   None))).
  { apply (Nat.leb_le 2 3). reflexivity. }
  split; [exact H|].
  exact (proj1 (no_attempt_after_success w_flaky 0 "order-1" None None None None "" "" "" 0)
           H).
Defined.

(** ** What the retries cost *)

Lemma policy_sleep_sum (n : nat) :
  1 <= n <= maxRetries ->
  list_sum (map (fun i => 1000 * i) (seq 1 (n - 1))) <= 3000.
Proof.
  unfold maxRetries. intros Hn.
  destruct n as [|[|[|[|n]]]]; try lia; cbn [Nat.sub seq map list_sum fold_right]; lia.
Qed.

Lemma attempts_made_bounds (ok : nat -> bool) : 1 <= attempts_made ok <= maxRetries.
Proof. apply failed_beats_beats. Qed.

(** X8.  The backoff of one call adds up to at most 3000 ms, in every world
    and for each of the three actions that retry. *)
Theorem backoff_is_bounded (w : World) (k : nat) (orderId : string) (status : StopStatus)
    (notes photoUrl signatureUrl recipientName : option string)
    (base64Data filename contentType : string) :
  list_sum (sleeps (trace_of (updateStopStatus w (maxRetries + k) orderId status notes)))
  <= 3000
  /\ list_sum (sleeps (trace_of (savePOD w (maxRetries + k) orderId photoUrl signatureUrl
                                   notes recipientName))) <= 3000
  /\ list_sum (sleeps (trace_of (uploadToBlob w (maxRetries + k) base64Data filename
                                   contentType))) <= 3000.
Proof.
  split; [|split].
  - destruct (signed_in w) as [user|] eqn:Hs.
    + destruct (updateStopStatus_attempt_count w k orderId status notes user Hs) as [_ ->].
      apply policy_sleep_sum, attempts_made_bounds.
    + destruct (updateStopStatus_stopped_trace w k orderId status notes Hs)
        as (lvl & msg & pre & -> & [-> | ->]); cbn; lia.
  - destruct (signed_in w) as [user|] eqn:Hs.
    + destruct (savePOD_attempt_count w k orderId photoUrl signatureUrl notes recipientName
                  user Hs) as [_ ->].
      apply policy_sleep_sum, attempts_made_bounds.
    + destruct (savePOD_stopped_trace w k orderId photoUrl signatureUrl notes recipientName
                  Hs) as (lvl & msg & pre & -> & [-> | ->]); cbn; lia.
  - destruct (decoded_blob w base64Data contentType) as [blob|] eqn:Hd.
    + destruct (uploadToBlob_attempt_count w k base64Data filename contentType blob Hd)
        as [_ ->].
      apply policy_sleep_sum, attempts_made_bounds.
    + destruct (uploadToBlob_decode_fails w base64Data filename contentType k Hd) as [_ ->].
      unfold decode_events. destruct (startsWith base64Data "data:"); cbn; lia.
Qed.

(** ** What is reported after the last retry *)

(** X9.  When all three attempts fail, [updateStopStatus] and [savePOD]
    report the message of the error of the third attempt only; the errors of
    the first two are dropped.  "Network error" stands in when that error is
    [null] or [undefined] or has no message or an empty one. *)
Theorem exhausted_retries_report_last_error (w : World) (k : nat) (orderId : string)
    (status : StopStatus) (notes photoUrl signatureUrl recipientName : option string)
    (user : User) :
  signed_in w = Some user ->
  (first_ok (status_attempt_ok w) = None ->
   result_of (updateStopStatus w (maxRetries + k) orderId status notes)
   = Val (failure_result ("Failed to update order status: "
                          ++ message_or (status_error w 2) "Network error")%string))
  /\ (first_ok (pod_attempt_ok w) = None ->
      result_of (savePOD w (maxRetries + k) orderId photoUrl signatureUrl notes recipientName)
      = Val (failure_result ("Failed to save proof of delivery: "
                             ++ message_or (pod_error w 2) "Network error")%string))
  /\ (forall m, m <> "" -> message_or (EObj (Some m)) "Network error" = m)
  /\ message_or EUndefined "Network error" = "Network error"
  /\ message_or ENull "Network error" = "Network error"
  /\ message_or (EObj None) "Network error" = "Network error"
  /\ message_or (EObj (Some "")) "Network error" = "Network error".
Proof.
  intros Hs. split; [|split; [|split]].
  - intros Hnone.
    destruct (updateStopStatus_signed_in w orderId status notes k user Hs)
      as (l & _ & _ & Hres).
    rewrite Hnone in Hres. apply Hres.
  - intros Hnone.
    destruct (savePOD_signed_in w orderId photoUrl signatureUrl notes recipientName k user Hs)
      as (l & _ & _ & Hres).
    rewrite Hnone in Hres. apply Hres.
  - intros m Hm. destruct m; [contradiction|reflexivity].
  - repeat split.
Qed.

(** The store reports "timeout" three times. *)
Lemma exhausted_retries_report_last_error_witness :
  signed_in w_store_down = Some driver
  /\ first_ok (status_attempt_ok w_store_down) = None
  /\ result_of (updateStopStatus w_store_down (maxRetries + 0) "order-1" Failed None)
     = Val (failure_result ("Failed to update order status: "
                            ++ message_or (status_error w_store_down 2) "Network error")%string).
Proof.
  split; [reflexivity|]. split; [reflexivity|].
  exact (proj1 (exhausted_retries_report_last_error w_store_down 0 "order-1" Failed None None
                  None None driver eq_refl) eq_refl).
Defined.

(** ** What is written *)

Lemma in_stopped_trace_not_write (pre : list Event) (lvl : LogLevel) (msg : string)
    (e : Event) :
  pre = [EvCreateServerClient] \/ pre = [EvCreateServerClient; EvGetUser] ->
  In e (pre ++ [EvConsole lvl msg]) -> is_write e = true -> False.
Proof.
  intros [-> | ->] Hin He; cbn in Hin;
    repeat (destruct Hin as [<-|Hin]; [discriminate|]); destruct Hin.
Qed.

(** X10.  Each action writes only its own records, with the caller's
    arguments and the id of the signed-in user, and only after the identity
    check has passed: [updateStopStatus] updates [orders] and inserts into
    [stop_events], nothing else; [savePOD] inserts into [pods], nothing else
    (it does not touch the status of the order); [updateDriverPosition] makes
    the position upsert, nothing else. *)
Theorem writes_carry_the_callers_data (w : World) (k : nat) (orderId : string)
    (status : StopStatus) (notes photoUrl signatureUrl recipientName : option string)
    (lat lng : JsNumber) (accuracy : option JsNumber) (e : Event) :
  is_write e = true ->
  (In e (trace_of (updateStopStatus w (maxRetries + k) orderId status notes)) ->
   exists user, signed_in w = Some user
     /\ ((exists t, e = EvOrdersUpdate (status_string status) t orderId)
         \/ e = EvStopEventsInsert orderId (user_id user) (status_string status) notes))
  /\ (In e (trace_of (savePOD w (maxRetries + k) orderId photoUrl signatureUrl notes
                        recipientName)) ->
      exists user t, signed_in w = Some user
        /\ e = EvPodsInsert orderId (user_id user) photoUrl signatureUrl
                 (podNotes recipientName notes) t)
  /\ (In e (trace_of (updateDriverPosition w lat lng accuracy)) ->
      exists user, signed_in w = Some user
        /\ e = EvUpsertDriverPosition (user_id user) lat lng (accuracy_or_null accuracy)).
Proof.
  intros He. split; [|split].
  - intros Hin. destruct (signed_in w) as [user|] eqn:Hs.
    + exists user. split; [reflexivity|].
      destruct (updateStopStatus_signed_in w orderId status notes k user Hs)
        as (l & Ht & HP & _).
      rewrite Ht in Hin. destruct Hin as [<-|[<-|Hin]]; [discriminate He|discriminate He|].
      rewrite Forall_forall in HP. specialize (HP e Hin).
      destruct e; cbn in He; try discriminate He; cbn in HP; try contradiction.
      * destruct HP as [-> ->]. left. now eexists.
      * destruct HP as (-> & -> & -> & ->). now right.
    + exfalso.
      destruct (updateStopStatus_stopped_trace w k orderId status notes Hs)
        as (lvl & msg & pre & Ht & Hpre).
      rewrite Ht in Hin. exact (in_stopped_trace_not_write pre lvl msg e Hpre Hin He).
  - intros Hin. destruct (signed_in w) as [user|] eqn:Hs.
    + exists user.
      destruct (savePOD_signed_in w orderId photoUrl signatureUrl notes recipientName k
                  user Hs) as (l & Ht & HP & _).
      rewrite Ht in Hin. destruct Hin as [<-|[<-|Hin]]; [discriminate He|discriminate He|].
      rewrite Forall_forall in HP. specialize (HP e Hin).
      destruct e; cbn in He; try discriminate He; cbn in HP; try contradiction.
      destruct HP as (-> & -> & -> & -> & ->). eexists. now split.
    + exfalso.
      destruct (savePOD_stopped_trace w k orderId photoUrl signatureUrl notes recipientName
                  Hs) as (lvl & msg & pre & Ht & Hpre).
      rewrite Ht in Hin. exact (in_stopped_trace_not_write pre lvl msg e Hpre Hin He).
  - intros Hin.
    destruct (identity_cases w) as [(e0 & Hc)|[(u & e0 & Hc & Hg)|[Hf|(user & Hs)]]].
    + destruct (updateDriverPosition_client_raises w lat lng accuracy e0 Hc) as (_ & Ht).
      rewrite Ht in Hin. exfalso.
      repeat (destruct Hin as [<-|Hin]; [discriminate|]); destruct Hin.
    + destruct (updateDriverPosition_getUser_raises w lat lng accuracy u e0 Hc Hg)
        as (_ & Ht).
      rewrite Ht in Hin. exfalso.
      repeat (destruct Hin as [<-|Hin]; [discriminate|]); destruct Hin.
    + destruct (updateDriverPosition_identity_check_fails w lat lng accuracy Hf) as (_ & Ht).
      rewrite Ht in Hin. exfalso.
      repeat (destruct Hin as [<-|Hin]; [discriminate|]); destruct Hin.
    + exists user. split; [exact Hs|].
      pose proof (updateDriverPosition_signed_in w lat lng accuracy user Hs) as H.
      cbv zeta in H.
      destruct (w_upsert_driver_position w 0) as [e0|e0];
        [destruct (truthy_err e0)|]; destruct H as [_ Ht]; rewrite Ht in Hin;
        repeat (destruct Hin as [<-|Hin]; [try discriminate; try reflexivity|]);
        try destruct Hin.
Qed.

Lemma writes_carry_the_callers_data_witness :
  is_write (EvStopEventsInsert "order-1" "driver-1" "delivered" (Some "left at door")) = true
  /\ exists user, signed_in w_online = Some user
       /\ ((exists t, EvStopEventsInsert "order-1" "driver-1" "delivered"
                        (Some "left at door")
                      = EvOrdersUpdate (status_string Delivered) t "order-1")
           \/ EvStopEventsInsert "order-1" "driver-1" "delivered" (Some "left at door")
              = EvStopEventsInsert "order-1" (user_id user) (status_string Delivered)
                  (Some "left at door")).
Proof.
  split; [reflexivity|].
  exact (proj1 (writes_carry_the_callers_data w_online 0 "order-1" Delivered
                  (Some "left at door") None None None example_lat example_lng None
                  (EvStopEventsInsert "order-1" "driver-1" "delivered" (Some "left at door"))
                  eq_refl)
           (or_intror (or_intror (or_intror (or_intror (or_introl eq_refl)))))).
Defined.

(** ** The loops, event by event *)

Lemma update_stamps_app (a b : list Event) :
  update_stamps (a ++ b) = update_stamps a ++ update_stamps b.
Proof.
  induction a as [|e a IH]; [reflexivity|].
  destruct e; cbn [app update_stamps]; rewrite IH; reflexivity.
Qed.

Lemma pod_stamps_app (a b : list Event) :
  pod_stamps (a ++ b) = pod_stamps a ++ pod_stamps b.
Proof.
  induction a as [|e a IH]; [reflexivity|].
  destruct e; cbn [app pod_stamps]; rewrite IH; reflexivity.
Qed.

Lemma email_requests_app (a b : list Event) :
  email_requests (a ++ b) = email_requests a ++ email_requests b.
Proof.
  induction a as [|e a IH]; [reflexivity|].
  destruct e; cbn [app email_requests]; rewrite IH; reflexivity.
Qed.

Lemma stamps_next (now : nat -> string) (c : nat) :
  map now (seq 0 (S c)) = map now (seq 0 c) ++ [now c].
Proof. now rewrite seq_S, map_app. Qed.

Lemma backoff_observations (c : nat) :
  count is_orders_update (backoff c) = 0 /\ count is_stop_events_insert (backoff c) = 0
  /\ count is_pods_insert (backoff c) = 0 /\ count is_fetch_pod_email (backoff c) = 0
  /\ count is_date_now (backoff c) = 0 /\ count is_revalidate (backoff c) = 0
  /\ update_stamps (backoff c) = [] /\ pod_stamps (backoff c) = []
  /\ email_requests (backoff c) = [].
Proof. unfold backoff. destruct (Nat.ltb c maxRetries); repeat split. Qed.

Section UpdateStopStatusEvents.

Variable w : World.
Variables (orderId : string) (status : StopStatus) (notes : option string) (user : User).

Let body := updateStopStatus_attempt w orderId status notes user.
Let Inv (c : nat) (tr : list Event) : Prop :=
  count is_orders_update tr = c /\ count is_stop_events_insert tr = audit_index w c
  /\ count is_date_now tr = c /\ count is_revalidate tr = 0
  /\ update_stamps tr = map (w_now w) (seq 0 c).
Let P (e : Event) : Prop := True.
Let Good (j : nat) (v : JsVal) (a : list Event) (d : list (Settled Response)) : Prop :=
  count is_stop_events_insert a = 1 /\ count is_date_now a = 1
  /\ count is_revalidate a = 1 /\ update_stamps a = [w_now w j].

Lemma status_attempt_succeeds_events (st : St) :
  retryCount st < maxRetries -> Inv (retryCount st) (trace st) ->
  status_attempt_ok w (retryCount st) = true ->
  exists v a d st',
    body st = (Val (Some v), st') /\ trace st' = trace st ++ a
    /\ detached st' = detached st ++ d /\ attempt_shape is_orders_update P a
    /\ Good (retryCount st) v a d.
Proof.
  intros _ (Hu & Hi & Hd & _ & _) Hok. unfold status_attempt_ok in Hok.
  apply andb_true_iff in Hok. destruct Hok as [Hup Hins].
  subst body. unfold updateStopStatus_attempt, date_now, orders_update, stop_events_insert.
  run_action. counts. rewrite Hu, Hd.
  destruct (w_orders_update w (retryCount st)) as [e|e]; [|discriminate].
  cbn [update_ok] in Hup. rewrite Hup. run_action. counts. rewrite Hi.
  destruct (w_stop_events_insert w (audit_index w (retryCount st))) as [ee|ee]; [|discriminate].
  destruct (truthy_err ee); run_action; rewrite <- !app_assoc; cbn [app];
    exists success_result; eexists; exists []; eexists;
    (split; [reflexivity|]); cbn [trace detached];
    (split; [reflexivity|]); (split; [symmetry; apply app_nil_r|]);
    (split; [split; [reflexivity|all_events]|]);
    repeat split.
Qed.

Lemma status_attempt_fails_events (st : St) :
  retryCount st < maxRetries -> Inv (retryCount st) (trace st) ->
  status_attempt_ok w (retryCount st) = false ->
  exists a st',
    body st = (Val None, st')
    /\ trace st' = trace st ++ a ++ backoff (S (retryCount st))
    /\ retryCount st' = S (retryCount st) /\ detached st' = detached st
    /\ lastError st' = status_error w (retryCount st)
    /\ attempt_shape is_orders_update P a /\ Inv (S (retryCount st)) (trace st').
Proof.
  intros _ (Hu & Hi & Hd & Hr & Hst) Hok. unfold status_attempt_ok in Hok.
  subst body. unfold updateStopStatus_attempt, date_now, orders_update, stop_events_insert.
  run_action. counts. rewrite Hu, Hd.
  unfold Inv, status_error. cbn [audit_index].
  destruct (backoff_observations (S (retryCount st)))
    as (B1 & B2 & _ & _ & B5 & B6 & B7 & _).
  set (upd := EvOrdersUpdate (status_string status) (w_now w (retryCount st)) orderId).
  set (ins := EvStopEventsInsert orderId (user_id user) (status_string status) notes).
  assert (Hfin : forall a,
             count is_orders_update a = 1 ->
             count is_stop_events_insert a
             = (if update_ok (w_orders_update w (retryCount st)) then 1 else 0) ->
             count is_date_now a = 1 -> count is_revalidate a = 0 ->
             update_stamps a = [w_now w (retryCount st)] ->
             let tr := trace st ++ a ++ backoff (S (retryCount st)) in
             count is_orders_update tr = S (retryCount st)
             /\ count is_stop_events_insert tr
                = audit_index w (retryCount st)
                  + (if update_ok (w_orders_update w (retryCount st)) then 1 else 0)
             /\ count is_date_now tr = S (retryCount st) /\ count is_revalidate tr = 0
             /\ update_stamps tr = map (w_now w) (seq 0 (S (retryCount st)))).
  { intros a A1 A2 A3 A4 A5. cbv zeta.
    rewrite !count_app, !update_stamps_app, Hu, Hi, Hd, Hr, Hst, A1, A2, A3, A4, A5,
      B1, B2, B5, B6, B7, stamps_next, app_nil_r.
    repeat split; lia. }
  destruct (w_orders_update w (retryCount st)) as [e|e]; cbn [update_ok] in *.
  - destruct (truthy_err e) eqn:He; cbn [negb andb] in *.
    + rewrite record_failure_run. cbn [trace retryCount detached lastError].
      exists [EvDateNow; upd]. eexists. split; [reflexivity|].
      cbn [trace retryCount detached lastError]. rewrite <- !app_assoc. cbn [app].
      split; [reflexivity|]. split; [reflexivity|]. split; [reflexivity|].
      split; [reflexivity|]. split; [split; [reflexivity|all_events]|].
      apply (Hfin [EvDateNow; upd]); reflexivity.
    + run_action. counts. rewrite Hi.
      destruct (w_stop_events_insert w (audit_index w (retryCount st))) as [ee|ee];
        [discriminate|].
      rewrite record_failure_run. cbn [trace retryCount detached lastError].
      exists [EvDateNow; upd; ins]. eexists. split; [reflexivity|].
      cbn [trace retryCount detached lastError]. rewrite <- !app_assoc. cbn [app].
      split; [reflexivity|]. split; [reflexivity|]. split; [reflexivity|].
      split; [reflexivity|]. split; [split; [reflexivity|all_events]|].
      apply (Hfin [EvDateNow; upd; ins]); reflexivity.
  - rewrite record_failure_run. cbn [trace retryCount detached lastError].
    exists [EvDateNow; upd]. eexists. split; [reflexivity|].
    cbn [trace retryCount detached lastError]. rewrite <- !app_assoc. cbn [app].
    split; [reflexivity|]. split; [reflexivity|]. split; [reflexivity|].
    split; [reflexivity|]. split; [split; [reflexivity|all_events]|].
    apply (Hfin [EvDateNow; upd]); reflexivity.
Qed.

End UpdateStopStatusEvents.

Lemma audit_index_next_ok (w : World) (j : nat) :
  status_attempt_ok w j = true -> audit_index w (S j) = S (audit_index w j).
Proof.
  unfold status_attempt_ok. intros H. apply andb_true_iff in H. destruct H as [H _].
  cbn [audit_index]. rewrite H. lia.
Qed.

Lemma audit_index_le (w : World) (j : nat) : audit_index w j <= j.
Proof.
  induction j as [|j IH]; [reflexivity|]. cbn [audit_index].
  destruct (update_ok (w_orders_update w j)); lia.
Qed.

(** What the trace of [updateStopStatus] holds when the identity check has
    passed: [n] attempts, each with one clock reading that stamps its update,
    one audit insert for each update without error, and one invalidation if
    the action succeeds. *)
Lemma updateStopStatus_events (w : World) (k : nat) (orderId : string)
    (status : StopStatus) (notes : option string) (user : User) :
  signed_in w = Some user ->
  let tr := trace_of (updateStopStatus w (maxRetries + k) orderId status notes) in
  let n := attempts_made (status_attempt_ok w) in
  count is_stop_events_insert tr = audit_index w n
  /\ count is_date_now tr = n
  /\ update_stamps tr = map (w_now w) (seq 0 n)
  /\ count is_revalidate tr
     = match first_ok (status_attempt_ok w) with Some _ => 1 | None => 0 end.
Proof.
  intros Hs. destruct (signed_in_inv w user Hs) as (u & r & Hc & Hg & He & Hu).
  cbv zeta. unfold trace_of, run, updateStopStatus, createServerClient, auth_getUser.
  run_action. rewrite Hc, Hg. run_action. rewrite He, Hu. run_action.
  set (st1 := mkSt _ 0 EUndefined []).
  destruct (retry_loop _ _ is_orders_update _ _ _ _
              (fun _ => eq_refl) (fun _ => I)
              (status_attempt_succeeds_events w orderId status notes user)
              (status_attempt_fails_events w orderId status notes user)
              maxRetries st1 (maxRetries + k))
    as (x & l & st' & Hw & Ht & _ & Hres).
  { reflexivity. } { lia. } { repeat split. }
  rewrite Hw. cbn [retryCount st1] in Hres. unfold attempts_made, first_ok.
  destruct (first_ok_from (status_attempt_ok w) 0 maxRetries) as [j|] eqn:Hj.
  - destruct Hres as (v & l0 & a & d & -> & -> & _ & _ & _ & (G1 & G2 & G3 & G4) & HI).
    destruct HI as (_ & I2 & I3 & I4 & I5).
    apply first_ok_from_bounds in Hj. destruct Hj as [_ Hok].
    cbn [snd trace]. rewrite Ht, app_assoc.
    set (T := trace st1 ++ l0) in *.
    rewrite !count_app, update_stamps_app, I2, I3, I4, I5, G1, G2, G3, G4,
      (audit_index_next_ok w j Hok), stamps_next.
    repeat split; lia.
  - destruct Hres as (-> & _ & _ & _ & _ & HI).
    destruct HI as (_ & I2 & I3 & I4 & I5).
    cbn [snd trace]. rewrite !count_app, update_stamps_app, I2, I3, I4, I5.
    cbn [count filter is_stop_events_insert is_date_now is_revalidate length update_stamps].
    rewrite app_nil_r. repeat split; lia.
Qed.

(** X11.  When the identity check has passed, [updateStopStatus] makes one
    audit insert for each orders update that reported no error, never one
    without such an update, and so at most as many inserts as updates. *)
Theorem one_audit_insert_per_successful_update (w : World) (k : nat) (orderId : string)
    (status : StopStatus) (notes : option string) (user : User) :
  signed_in w = Some user ->
  let tr := trace_of (updateStopStatus w (maxRetries + k) orderId status notes) in
  count is_stop_events_insert tr
  = length (filter (fun j => update_ok (w_orders_update w j))
              (seq 0 (count is_orders_update tr)))
  /\ count is_stop_events_insert tr <= count is_orders_update tr.
Proof.
  intros Hs. cbv zeta.
  destruct (updateStopStatus_events w k orderId status notes user Hs) as (H1 & _).
  destruct (updateStopStatus_attempt_count w k orderId status notes user Hs) as (H2 & _).
  rewrite H1, H2.
  assert (Hidx : forall n, audit_index w n
                           = length (filter (fun j => update_ok (w_orders_update w j))
                                       (seq 0 n))).
  { induction n as [|n IH]; [reflexivity|].
    cbn [audit_index]. rewrite seq_S, filter_app, length_app, <- IH. cbn [Nat.add filter].
    destruct (update_ok (w_orders_update w n)); reflexivity. }
  split; [apply Hidx|apply audit_index_le].
Qed.

(** The update reports an error twice: no audit insert for those attempts,
    one for the third. *)
Lemma one_audit_insert_per_successful_update_witness :
  signed_in w_flaky = Some driver
  /\ count is_stop_events_insert
       (trace_of (updateStopStatus w_flaky (maxRetries + 0) "order-1" Delivered None))
     <= count is_orders_update
          (trace_of (updateStopStatus w_flaky (maxRetries + 0) "order-1" Delivered None)).
Proof.
  split; [reflexivity|].
  exact (proj2 (one_audit_insert_per_successful_update w_flaky 0 "order-1" Delivered None
                  driver eq_refl)).
Defined.

Section SavePODEvents.

Variable w : World.
Variables (orderId : string) (photoUrl signatureUrl podNotes : option string) (user : User).

Let body := savePOD_attempt w orderId photoUrl signatureUrl podNotes user.
Let Inv (c : nat) (tr : list Event) : Prop :=
  count is_pods_insert tr = c /\ count is_fetch_pod_email tr = 0
  /\ count is_date_now tr = c /\ count is_revalidate tr = 0
  /\ pod_stamps tr = map (w_now w) (seq 0 c) /\ email_requests tr = [].
Let P (e : Event) : Prop := True.
Let Good (j : nat) (v : JsVal) (a : list Event) (d : list (Settled Response)) : Prop :=
  count is_date_now a = 1 /\ count is_revalidate a = 1 /\ pod_stamps a = [w_now w j]
  /\ email_requests a = (if dispatches w j then [(orderId, inserted_id w j)] else []).

Lemma pod_attempt_succeeds_events (st : St) :
  retryCount st < maxRetries -> Inv (retryCount st) (trace st) ->
  pod_attempt_ok w (retryCount st) = true ->
  exists v a d st',
    body st = (Val (Some v), st') /\ trace st' = trace st ++ a
    /\ detached st' = detached st ++ d /\ attempt_shape is_pods_insert P a
    /\ Good (retryCount st) v a d.
Proof.
  intros _ (Hu & Hi & Hd & _) Hok. unfold pod_attempt_ok, pod_insert_ok in Hok.
  subst body. unfold savePOD_attempt, date_now, pods_insert, trigger_pod_email, fetch_pod_email.
  unfold Good, dispatches, inserted_id.
  run_action. counts. rewrite Hu, Hd.
  destruct (w_pods_insert w (retryCount st)) as [r|e] eqn:Hr; [|discriminate].
  apply andb_true_iff in Hok. destruct Hok as [He Hrow].
  apply negb_true_iff in He. rewrite He.
  destruct (pods_data r) as [row|]; [|discriminate].
  destruct (truthy (pod_id row)) eqn:Hid; cbn [andb];
    [destruct (pod_email_enabled w) eqn:Hflag|].
  - run_action. counts. rewrite Hi.
    destruct (w_fetch_pod_email w 0) as [p|e]; run_action;
      rewrite <- !app_assoc; cbn [app];
      exists success_result; eexists; eexists; eexists;
      (split; [reflexivity|]); cbn [trace detached];
      (split; [reflexivity|]); (split; [try reflexivity; symmetry; apply app_nil_r|]);
      (split; [split; [reflexivity|all_events]|]); repeat split.
  - run_action. rewrite <- !app_assoc; cbn [app].
    exists success_result; eexists; exists []; eexists.
    (split; [reflexivity|]); cbn [trace detached].
    (split; [reflexivity|]); (split; [symmetry; apply app_nil_r|]).
    (split; [split; [reflexivity|all_events]|]); repeat split.
  - run_action. rewrite <- !app_assoc; cbn [app].
    exists success_result; eexists; exists []; eexists.
    (split; [reflexivity|]); cbn [trace detached].
    (split; [reflexivity|]); (split; [symmetry; apply app_nil_r|]).
    (split; [split; [reflexivity|all_events]|]); repeat split.
Qed.

Lemma pod_attempt_fails_events (st : St) :
  retryCount st < maxRetries -> Inv (retryCount st) (trace st) ->
  pod_attempt_ok w (retryCount st) = false ->
  exists a st',
    body st = (Val None, st')
    /\ trace st' = trace st ++ a ++ backoff (S (retryCount st))
    /\ retryCount st' = S (retryCount st) /\ detached st' = detached st
    /\ lastError st' = pod_error w (retryCount st)
    /\ attempt_shape is_pods_insert P a /\ Inv (S (retryCount st)) (trace st').
Proof.
  intros _ (Hu & Hi & Hd & Hr & Hst & Hem) Hok. unfold pod_attempt_ok, pod_insert_ok in Hok.
  subst body. unfold savePOD_attempt, date_now, pods_insert.
  run_action. counts. rewrite Hu, Hd.
  unfold Inv, pod_error.
  destruct (backoff_observations (S (retryCount st)))
    as (_ & _ & B3 & B4 & B5 & B6 & _ & B8 & B9).
  set (ins := EvPodsInsert orderId (user_id user) photoUrl signatureUrl podNotes
                (w_now w (retryCount st))).
  assert (Hfin : let tr := trace st ++ [EvDateNow; ins] ++ backoff (S (retryCount st)) in
                 count is_pods_insert tr = S (retryCount st)
                 /\ count is_fetch_pod_email tr = 0
                 /\ count is_date_now tr = S (retryCount st) /\ count is_revalidate tr = 0
                 /\ pod_stamps tr = map (w_now w) (seq 0 (S (retryCount st)))
                 /\ email_requests tr = []).
  { cbv zeta.
    rewrite !count_app, !pod_stamps_app, !email_requests_app, Hu, Hi, Hd, Hr, Hst, Hem,
      B3, B4, B5, B6, B8, B9, stamps_next.
    subst ins.
    cbn [count filter length is_pods_insert is_fetch_pod_email is_date_now is_revalidate
         pod_stamps email_requests app].
    rewrite ?app_nil_r. repeat split; lia. }
  assert (Hdone : forall e,
             exists a st',
               record_failure e
                 (mkSt ((trace st ++ [EvDateNow]) ++ [ins]) (retryCount st) (lastError st)
                    (detached st))
               = (Val tt, st')
               /\ trace st' = trace st ++ a ++ backoff (S (retryCount st))
               /\ retryCount st' = S (retryCount st) /\ detached st' = detached st
               /\ lastError st' = e
               /\ attempt_shape is_pods_insert P a
               /\ (let tr := trace st' in
                   count is_pods_insert tr = S (retryCount st)
                   /\ count is_fetch_pod_email tr = 0
                   /\ count is_date_now tr = S (retryCount st)
                   /\ count is_revalidate tr = 0
                   /\ pod_stamps tr = map (w_now w) (seq 0 (S (retryCount st)))
                   /\ email_requests tr = [])).
  { intros e. rewrite record_failure_run. cbn [trace retryCount detached lastError].
    exists [EvDateNow; ins]. eexists. split; [reflexivity|].
    cbn [trace retryCount detached lastError]. rewrite <- !app_assoc. cbn [app].
    split; [reflexivity|]. split; [reflexivity|]. split; [reflexivity|].
    split; [reflexivity|]. split; [split; [reflexivity|all_events]|].
    exact Hfin. }
  destruct (w_pods_insert w (retryCount st)) as [r|e].
  - destruct (truthy_err (pods_error r)) eqn:He; cbn [negb andb] in *.
    + destruct (Hdone (pods_error r)) as (a & st' & Hrun & H).
      rewrite Hrun. now exists a, st'.
    + destruct (pods_data r) as [row|]; [discriminate|].
      destruct (Hdone (pods_error r)) as (a & st' & Hrun & H).
      rewrite Hrun. now exists a, st'.
  - destruct (Hdone e) as (a & st' & Hrun & H).
    rewrite Hrun. now exists a, st'.
Qed.

End SavePODEvents.

(** What the trace of [savePOD] holds when the identity check has passed. *)
Lemma savePOD_events_in_order (w : World) (k : nat) (orderId : string)
    (photoUrl signatureUrl notes recipientName : option string) (user : User) :
  signed_in w = Some user ->
  let tr := trace_of (savePOD w (maxRetries + k) orderId photoUrl signatureUrl notes
                        recipientName) in
  let n := attempts_made (pod_attempt_ok w) in
  count is_date_now tr = n
  /\ pod_stamps tr = map (w_now w) (seq 0 n)
  /\ count is_revalidate tr
     = match first_ok (pod_attempt_ok w) with Some _ => 1 | None => 0 end
  /\ email_requests tr
     = match first_ok (pod_attempt_ok w) with
       | Some j => if dispatches w j then [(orderId, inserted_id w j)] else []
       | None => []
       end.
Proof.
  intros Hs. destruct (signed_in_inv w user Hs) as (u & r & Hc & Hg & He & Hu).
  cbv zeta. unfold trace_of, run, savePOD, createServerClient, auth_getUser.
  run_action. rewrite Hc, Hg. run_action. rewrite He, Hu. run_action.
  set (st1 := mkSt _ 0 EUndefined []).
  destruct (retry_loop _ _ is_pods_insert _ _ _ _
              (fun _ => eq_refl) (fun _ => I)
              (pod_attempt_succeeds_events w orderId photoUrl signatureUrl
                 (podNotes recipientName notes) user)
              (pod_attempt_fails_events w orderId photoUrl signatureUrl
                 (podNotes recipientName notes) user)
              maxRetries st1 (maxRetries + k))
    as (x & l & st' & Hw & Ht & _ & Hres).
  { reflexivity. } { lia. } { repeat split. }
  rewrite Hw. cbn [retryCount st1] in Hres. unfold attempts_made, first_ok.
  destruct (first_ok_from (pod_attempt_ok w) 0 maxRetries) as [j|] eqn:Hj.
  - destruct Hres as (v & l0 & a & d & -> & -> & _ & _ & _ & (G1 & G2 & G3 & G4) & HI).
    destruct HI as (_ & _ & I3 & I4 & I5 & I6).
    cbn [snd trace]. rewrite Ht, app_assoc.
    set (T := trace st1 ++ l0) in *.
    rewrite !count_app, pod_stamps_app, email_requests_app, I3, I4, I5, I6, G1, G2, G3, G4,
      stamps_next.
    repeat split; lia.
  - destruct Hres as (-> & _ & _ & _ & _ & HI).
    destruct HI as (_ & _ & I3 & I4 & I5 & I6).
    cbn [snd trace]. rewrite !count_app, pod_stamps_app, email_requests_app, I3, I4, I5, I6.
    cbn [count filter is_date_now is_revalidate length pod_stamps email_requests].
    rewrite app_nil_r. repeat split; lia.
Qed.

(** X12.  Each attempt reads the clock once, and the write of the k-th
    attempt carries the k-th reading, as [updated_at] in [updateStopStatus]
    and as [delivered_at] in [savePOD]: the timestamp is taken anew for every
    retry and never comes from the caller. *)
Theorem writes_are_stamped_per_attempt (w : World) (k : nat) (orderId : string)
    (status : StopStatus) (notes photoUrl signatureUrl recipientName : option string)
    (user : User) :
  signed_in w = Some user ->
  let status_trace := trace_of (updateStopStatus w (maxRetries + k) orderId status notes) in
  let pod_trace := trace_of (savePOD w (maxRetries + k) orderId photoUrl signatureUrl notes
                               recipientName) in
  update_stamps status_trace = map (w_now w) (seq 0 (count is_orders_update status_trace))
  /\ count is_date_now status_trace = count is_orders_update status_trace
  /\ pod_stamps pod_trace = map (w_now w) (seq 0 (count is_pods_insert pod_trace))
  /\ count is_date_now pod_trace = count is_pods_insert pod_trace.
Proof.
  intros Hs. cbv zeta.
  destruct (updateStopStatus_events w k orderId status notes user Hs) as (_ & H2 & H3 & _).
  destruct (updateStopStatus_attempt_count w k orderId status notes user Hs) as (H & _).
  destruct (savePOD_events_in_order w k orderId photoUrl signatureUrl notes recipientName
              user Hs) as (P1 & P2 & _).
  destruct (savePOD_attempt_count w k orderId photoUrl signatureUrl notes recipientName
              user Hs) as (P & _).
  now rewrite H2, H3, H, P1, P2, P.
Qed.

Lemma writes_are_stamped_per_attempt_witness :
  signed_in w_flaky = Some driver
  /\ count is_date_now
       (trace_of (updateStopStatus w_flaky (maxRetries + 0) "order-1" Delivered None))
     = count is_orders_update
         (trace_of (updateStopStatus w_flaky (maxRetries + 0) "order-1" Delivered None)).
Proof.
  split; [reflexivity|].
  exact (proj1 (proj2 (writes_are_stamped_per_attempt w_flaky 0 "order-1" Delivered None
                         None None None driver eq_refl))).
Defined.

(** ** The invalidation *)

Lemma invalidation_either (w : World) (k : nat) (orderId : string)
    (status : StopStatus) (notes photoUrl signatureUrl recipientName : option string)
    (m : M JsVal) :
  m = updateStopStatus w (maxRetries + k) orderId status notes
  \/ m = savePOD w (maxRetries + k) orderId photoUrl signatureUrl notes recipientName ->
  invalidates_on_success m.
Proof.
  unfold invalidates_on_success. intros Hm.
  destruct (signed_in w) as [user|] eqn:Hs.
  - destruct Hm as [-> | ->].
    + destruct (updateStopStatus_signed_in w orderId status notes k user Hs)
        as (l & Ht & _ & Hres).
      destruct (updateStopStatus_events w k orderId status notes user Hs)
        as (_ & _ & _ & Hrev).
      destruct (first_ok (status_attempt_ok w)).
      * destruct Hres as (Hr & _ & _ & l0 & ->). split.
        { intros _. split; [exact Hrev|].
          exists (EvCreateServerClient :: EvGetUser :: l0). now rewrite Ht. }
        { intros Hne. contradiction. }
      * destruct Hres as (Hr & _). split; [|intros _; exact Hrev].
        rewrite Hr. discriminate.
    + destruct (savePOD_signed_in w orderId photoUrl signatureUrl notes recipientName k
                  user Hs) as (l & Ht & _ & Hres).
      destruct (savePOD_events_in_order w k orderId photoUrl signatureUrl notes recipientName
                  user Hs) as (_ & _ & Hrev & _).
      destruct (first_ok (pod_attempt_ok w)).
      * destruct Hres as (Hr & _ & _ & _ & l0 & ->). split.
        { intros _. split; [exact Hrev|].
          exists (EvCreateServerClient :: EvGetUser :: l0). now rewrite Ht. }
        { intros Hne. contradiction. }
      * destruct Hres as (Hr & _). split; [|intros _; exact Hrev].
        rewrite Hr. discriminate.
  - assert (Hstop : exists lvl msg pre,
               trace_of m = pre ++ [EvConsole lvl msg]
               /\ (pre = [EvCreateServerClient] \/ pre = [EvCreateServerClient; EvGetUser])).
    { destruct Hm as [-> | ->];
        [now apply updateStopStatus_stopped_trace|now apply savePOD_stopped_trace]. }
    destruct Hstop as (lvl & msg & pre & Ht & Hpre).
    assert (Hzero : count is_revalidate (trace_of m) = 0).
    { rewrite Ht. destruct Hpre as [-> | ->]; reflexivity. }
    split; [|intros _; exact Hzero].
    intros Hr. exfalso.
    destruct Hm as [-> | ->].
    + destruct (identity_cases w) as [(e & Hc)|[(u & e & Hc & Hg)|[Hf|(user & Hs')]]];
        [destruct (updateStopStatus_client_raises w orderId status notes k e Hc) as (H & _)
        |destruct (updateStopStatus_getUser_raises w orderId status notes k u e Hc Hg)
           as (H & _)
        |destruct (updateStopStatus_identity_check_fails w orderId status notes k Hf)
           as (H & _)
        |congruence];
        rewrite H in Hr; discriminate.
    + destruct (identity_cases w) as [(e & Hc)|[(u & e & Hc & Hg)|[Hf|(user & Hs')]]];
        [destruct (savePOD_client_raises w orderId photoUrl signatureUrl notes recipientName
                     k e Hc) as (H & _)
        |destruct (savePOD_getUser_raises w orderId photoUrl signatureUrl notes
                     recipientName k u e Hc Hg) as (H & _)
        |destruct (savePOD_identity_check_fails w orderId photoUrl signatureUrl notes
                     recipientName k Hf) as (H & _)
        |congruence];
        rewrite H in Hr; discriminate.
Qed.

(** X13.  [revalidatePath("/driver")] is called exactly when
    [updateStopStatus] or [savePOD] succeeds: once, as the last thing the
    action does, after all its writes; an action that fails, for whatever
    reason, invalidates nothing. *)
Theorem invalidation_follows_success (w : World) (k : nat) (orderId : string)
    (status : StopStatus) (notes photoUrl signatureUrl recipientName : option string) :
  invalidates_on_success (updateStopStatus w (maxRetries + k) orderId status notes)
  /\ invalidates_on_success
       (savePOD w (maxRetries + k) orderId photoUrl signatureUrl notes recipientName).
Proof.
  split.
  - apply (invalidation_either w k orderId status notes photoUrl signatureUrl recipientName).
    now left.
  - apply (invalidation_either w k orderId status notes photoUrl signatureUrl recipientName).
    now right.
Qed.

Lemma invalidation_follows_success_witness :
  result_of (updateStopStatus w_flaky (maxRetries + 0) "order-1" Delivered None)
  = Val success_result
  /\ count is_revalidate
       (trace_of (updateStopStatus w_flaky (maxRetries + 0) "order-1" Delivered None)) = 1.
Proof.
  split; [reflexivity|].
  exact (proj1 (proj1 (proj1 (invalidation_follows_success w_flaky 0 "order-1" Delivered
                                None None None None)) eq_refl)).
Defined.

(** ** The email request *)

(** X14.  When the identity check has passed, [savePOD] sends at most one
    email request, and only from the attempt whose insert succeeded; its body
    names the caller's order and the id of the row that very insert
    returned. *)
Theorem email_request_names_the_inserted_row (w : World) (k : nat) (orderId : string)
    (photoUrl signatureUrl notes recipientName : option string) (user : User) :
  signed_in w = Some user ->
  email_requests
    (trace_of (savePOD w (maxRetries + k) orderId photoUrl signatureUrl notes recipientName))
  = match first_ok (pod_attempt_ok w) with
    | Some j => if dispatches w j then [(orderId, inserted_id w j)] else []
    | None => []
    end.
Proof.
  intros Hs.
  now destruct (savePOD_events_in_order w k orderId photoUrl signatureUrl notes recipientName
                  user Hs) as (_ & _ & _ & H).
Qed.

Lemma email_request_names_the_inserted_row_witness :
  signed_in w_flaky = Some driver
  /\ email_requests
       (trace_of (savePOD w_flaky (maxRetries + 0) "order-1" None None None None))
     = match first_ok (pod_attempt_ok w_flaky) with
       | Some j => if dispatches w_flaky j then [("order-1", inserted_id w_flaky j)] else []
       | None => []
       end.
Proof.
  split; [reflexivity|].
  exact (email_request_names_the_inserted_row w_flaky 0 "order-1" None None None None driver
           eq_refl).
Defined.

(** ** The callbacks of the email request *)

Ltac all_console :=
  repeat first [apply Forall_nil | apply Forall_cons; [reflexivity|]].

Ltac email_case :=
  rewrite <- ?app_assoc; cbn [app]; do 2 eexists;
  (split; [try reflexivity; rewrite app_nil_r; reflexivity|]); (split; [all_console|]).

(** X15.  The callbacks of the email request (lines 159-183) only write to
    the console: whatever the route answers, they make no store call, send no
    further request and leave the retry state alone.  An answer that does not
    say it is JSON is wrapped as [{ ok: false, status, body }] and logged as
    failed, whatever its status; a request that is rejected ends in the
    warning of [.catch]. *)
Theorem email_callbacks_only_log (p : Settled Response) (st : St) :
  exists v logs,
    pod_email_chain p st
    = (Val v, mkSt (trace st ++ logs) (retryCount st) (lastError st) (detached st))
    /\ Forall (fun e => is_console e = true) logs
    /\ (forall r body,
          p = Fulfilled r -> says_json r = false -> resp_text r = Fulfilled body ->
          v = wrapped_body r body
          /\ logs = [EvConsole LLog "[v0] [POD] Email API response:";
                     EvConsole LError "[v0] [POD] Email failed:"])
    /\ (forall e,
          p = Rejected e ->
          v = JUndefined
          /\ logs = [EvConsole LWarn "[v0] [POD] Email API call failed (non-blocking):"]).
Proof.
  unfold pod_email_chain, pod_email_then.
  destruct p as [r|e]; run_action.
  - change (includes _ "application/json") with (says_json r).
    destruct (says_json r) eqn:Hjson; run_action.
    + assert (Hno : forall (v : JsVal) (logs : list Event) r' body',
                 Fulfilled r = Fulfilled r' -> says_json r' = false ->
                 resp_text r' = Fulfilled body' ->
                 v = wrapped_body r' body'
                 /\ logs = [EvConsole LLog "[v0] [POD] Email API response:";
                            EvConsole LError "[v0] [POD] Email failed:"]).
      { intros v logs r' body' [= <-] Hn. rewrite Hjson in Hn. discriminate Hn. }
      destruct (resp_json r) as [v|e]; run_action.
      * destruct (get_prop v "ok") as [ok|e]; run_action.
        { destruct (negb (truthy ok)); run_action; email_case;
            (split; [apply Hno|intros e' H; discriminate H]). }
        { email_case. split; [apply Hno|intros e' H; discriminate H]. }
      * email_case. split; [apply Hno|intros e' H; discriminate H].
    + destruct (resp_text r) as [t|e] eqn:Htext; run_action.
      * cbn [get_prop lookup_field String.eqb Ascii.eqb Bool.eqb]. run_action.
        cbn [truthy negb]. run_action. email_case.
        split; [|intros e' H; discriminate H].
        intros r' body' [= <-] _ Hb. rewrite Htext in Hb. injection Hb as <-.
        split; reflexivity.
      * email_case. split; [|intros e' H; discriminate H].
        intros r' body' [= <-] _ Hb. rewrite Htext in Hb. discriminate Hb.
  - email_case. split; [intros r' body' H; discriminate H|intros e' _; split; reflexivity].
Qed.

(** An HTML error page. *)
Lemma email_callbacks_only_log_witness :
  exists v logs,
    pod_email_chain (Fulfilled email_html_error) st0
    = (Val v, mkSt (trace st0 ++ logs) (retryCount st0) (lastError st0) (detached st0))
    /\ v = wrapped_body email_html_error "<html>oops</html>".
Proof.
  destruct (email_callbacks_only_log (Fulfilled email_html_error) st0)
    as (v & logs & Hrun & _ & Hwrap & _).
  exists v, logs. split; [exact Hrun|].
  exact (proj1 (Hwrap email_html_error "<html>oops</html>" eq_refl eq_refl eq_refl)).
Defined.

(** ** The position *)

(** X16.  When the identity check has passed, [updateDriverPosition] succeeds
    exactly when the upsert returns without error; the store receives the
    accuracy unchanged when it is a number other than 0 and NaN, and [null]
    when it is NaN, as for 0 and for an omitted accuracy. *)
Theorem position_result_follows_the_upsert (w : World) (lat lng : JsNumber)
    (accuracy : option JsNumber) (user : User) :
  signed_in w = Some user ->
  let m := updateDriverPosition w lat lng accuracy in
  (result_of m = Val success_result <-> position_attempt_ok w 0 = true)
  /\ (forall e, w_upsert_driver_position w 0 = Returns e -> truthy_err e = true ->
        result_of m = Val (failure_result "Failed to update position"))
  /\ (forall a, accuracy = Some a -> truthy_num a = true ->
        upserted_accuracies (trace_of m) = [JNum a])
  /\ (accuracy = Some S754_nan -> upserted_accuracies (trace_of m) = [JNull]).
Proof.
  intros Hs. cbv zeta.
  pose proof (updateDriverPosition_signed_in w lat lng accuracy user Hs) as H.
  cbv zeta in H. unfold position_attempt_ok, update_ok.
  assert (Hacc : upserted_accuracies (trace_of (updateDriverPosition w lat lng accuracy))
                 = [accuracy_or_null accuracy]).
  { destruct (w_upsert_driver_position w 0) as [e|e];
      [destruct (truthy_err e)|]; destruct H as [_ ->]; reflexivity. }
  split; [|split; [|split]].
  - destruct (w_upsert_driver_position w 0) as [e|e];
      [destruct (truthy_err e)|]; destruct H as [-> _]; split; intros H0;
      try reflexivity; discriminate H0.
  - intros e He Ht. rewrite He, Ht in H. apply H.
  - intros a -> Ha. rewrite Hacc. cbn [accuracy_or_null]. now rewrite Ha.
  - intros ->. rewrite Hacc. reflexivity.
Qed.

(** An accuracy of 12.5 m. *)
Lemma position_result_follows_the_upsert_witness :
  signed_in w_online = Some driver
  /\ truthy_num (S754_finite false 25%positive (-1)%Z) = true
  /\ upserted_accuracies
       (trace_of (updateDriverPosition w_online example_lat example_lng
                    (Some (S754_finite false 25%positive (-1)%Z))))
     = [JNum (S754_finite false 25%positive (-1)%Z)].
Proof.
  split; [reflexivity|]. split; [reflexivity|].
  exact (proj1 (proj2 (proj2 (position_result_follows_the_upsert w_online example_lat
                                example_lng (Some (S754_finite false 25%positive (-1)%Z))
                                driver eq_refl)))
           _ eq_refl eq_refl).
Defined.
